(** * DarkPyonix sticky kernel manager: identity resolution and reuse decision

    A shallow embedding of [DarkPyonix_km/manager.py]: the path utilities
    [_abs_norm] and [_pick_path_from_kwargs], the identity resolver
    [_stable_kernel_id] / [_namespace] / [_propose_id], and the two entry
    points [start_kernel] and [start_kernel_async] of
    [StickyMappingKernelManager].

    Python values are a small tagged union, keyword arguments and the kernel
    registry are finite maps, exceptions are an error result, and the calls
    into the host (logging, registry probe, the inherited start operation)
    are recorded in an event trace.

    Further parts embed the constructor of the manager,
    [DarkPyonix_km/config.py] ([create_config], [check_installation],
    [clean_config]) over text as sequences of code points and a
    configuration directory, and the activate-script step of [setup.py]. *)

From Stdlib Require Import ZArith NArith Ascii String List Bool Lia.
From stdpp Require Import base option gmap strings list fin_maps.

Set Warnings "-register-all".
Local Open Scope string_scope.

(** ** Python values *)

Module Py.

(** The values a start request carries.  A mapping is its entries together
    with its [str()] (a [dict] keeps insertion order, which the entries alone
    do not tell).  [PObj] stands for any object that is neither [None], a
    [str] nor a mapping, and that [os.fspath] does not accept (neither
    [bytes] nor path-like): all the code ever asks of such an object is its
    truth value and its [str()]. *)
Inductive PyVal : Type :=
  | PNone
  | PStr (s : string)
  | PDict (d : gmap string PyVal) (repr : string)
  | PObj (truth : bool) (repr : string).

(** [{}] *)
Definition empty_dict : PyVal := PDict ∅ "{}".

(** Truth value testing, as [if v:], [not v] and [v or w] apply it. *)
Definition truthy (v : PyVal) : bool :=
  match v with
  | PNone => false
  | PStr s => negb (String.eqb s "")
  | PDict d _ => negb (bool_decide (d = ∅))
  | PObj b _ => b
  end.

(** [a or b] *)
Definition py_or (a b : PyVal) : PyVal := if truthy a then a else b.

(** [d.get(k)]: the entry, or [None] *)
Definition dict_get (d : gmap string PyVal) (k : string) : PyVal :=
  default PNone (d !! k).

(** [d.get(k, dflt)] *)
Definition dict_get_default (d : gmap string PyVal) (k : string) (dflt : PyVal) : PyVal :=
  default dflt (d !! k).

(** Exceptions.  [except Exception] catches the instances of classes derived
    from [Exception]; [KeyboardInterrupt], [SystemExit] and [GeneratorExit]
    derive from [BaseException] only. *)
Inductive ExcBase : Type := FromException | FromBaseExceptionOnly.

Record PyExc : Type := mkExc { exc_class : string; exc_base : ExcBase }.

Definition isinstance_Exception (e : PyExc) : bool :=
  match exc_base e with
  | FromException => true
  | FromBaseExceptionOnly => false
  end.

Definition TypeError : PyExc := mkExc "TypeError" FromException.
Definition AttributeError : PyExc := mkExc "AttributeError" FromException.
Definition ValueError : PyExc := mkExc "ValueError" FromException.
Definition RuntimeError : PyExc := mkExc "RuntimeError" FromException.
Definition KeyboardInterrupt : PyExc := mkExc "KeyboardInterrupt" FromBaseExceptionOnly.

(** The result of evaluating an expression: a value, or a raised exception. *)
Inductive Res (A : Type) : Type :=
  | Ok (a : A)
  | Raise (e : PyExc).
Arguments Ok {A} a.
Arguments Raise {A} e.

Definition res_bind {A B : Type} (r : Res A) (k : A → Res B) : Res B :=
  match r with
  | Ok a => k a
  | Raise e => Raise e
  end.

(** [try: r except Exception: handler] *)
Definition try_except_Exception {A : Type} (r : Res A) (handler : Res A) : Res A :=
  match r with
  | Ok a => Ok a
  | Raise e => if isinstance_Exception e then handler else Raise e
  end.

End Py.
Export Py.

(** ** Case folding and [ntpath.normcase] *)

Module Case.

Definition lower_ascii (c : ascii) : ascii :=
  let n := nat_of_ascii c in
  if (65 <=? n)%nat && (n <=? 90)%nat then ascii_of_nat (n + 32) else c.

Fixpoint lower (s : string) : string :=
  match s with
  | EmptyString => EmptyString
  | String c r => String (lower_ascii c) (lower r)
  end.


Definition slash_to_backslash (c : ascii) : ascii :=
  if Ascii.eqb c "/"%char then "\"%char else c.

Fixpoint replace_slashes (s : string) : string :=
  match s with
  | EmptyString => EmptyString
  | String c r => String (slash_to_backslash c) (replace_slashes r)
  end.

(** [ntpath.normcase(s)]: [s.replace('/', '\\').lower()], the lower-casing
    being [fold]. *)
Definition ntpath_normcase (fold : string → string) (s : string) : string :=
  fold (replace_slashes s).

End Case.
Export Case.

(** ** The [uuid] module: [uuid5], [str] and the constructor from a string *)

Module Uuid.
Local Open Scope N_scope.

(** A UUID is its 128-bit integer ([uuid.UUID.int]). *)
Definition UUID : Type := N.

Definition w32 (x : N) : N := N.land x 0xffffffff.

Definition rotl (k : N) (x : N) : N :=
  w32 (N.lor (N.shiftl x k) (N.shiftr (w32 x) (32 - k))).

(** The bytes of a text: a [string] holds the UTF-8 encoding. *)
Definition bytes_of_string (s : string) : list N :=
  map N_of_ascii (list_ascii_of_string s).

(** The [n] low bytes of [x], most significant first. *)
Fixpoint be_bytes (n : nat) (x : N) : list N :=
  match n with
  | O => []
  | S n' => N.land (N.shiftr x (8 * N.of_nat n')) 0xff :: be_bytes n' x
  end.

Definition be_int (bs : list N) : N :=
  fold_left (fun acc b => N.lor (N.shiftl acc 8) b) bs 0.

Definition sha1_pad (msg : list N) : list N :=
  let len := length msg in
  let zeros := ((64 - ((len + 9) mod 64)) mod 64)%nat in
  msg ++ [0x80] ++ repeat 0 zeros ++ be_bytes 8 (8 * N.of_nat len).

Fixpoint chunks (fuel : nat) (k : nat) (l : list N) : list (list N) :=
  match fuel with
  | O => []
  | S f =>
      match l with
      | [] => []
      | _ => take k l :: chunks f k (drop k l)
      end
  end.

(** The message schedule, last word first. *)
Fixpoint schedule (n : nat) (rev_ws : list N) : list N :=
  match n with
  | O => rev_ws
  | S n' =>
      let w i := nth i rev_ws 0 in
      schedule n'
        (rotl 1 (N.lxor (N.lxor (w 2%nat) (w 7%nat)) (N.lxor (w 13%nat) (w 15%nat)))
         :: rev_ws)
  end.

Definition sha1_f (t : nat) (b c d : N) : N * N :=
  if (t <? 20)%nat then (N.lor (N.land b c) (N.land (N.lxor b 0xffffffff) d), 0x5A827999)
  else if (t <? 40)%nat then (N.lxor (N.lxor b c) d, 0x6ED9EBA1)
  else if (t <? 60)%nat then (N.lor (N.lor (N.land b c) (N.land b d)) (N.land c d), 0x8F1BBCDC)
  else (N.lxor (N.lxor b c) d, 0xCA62C1D6).

Definition Sha1State : Type := N * N * N * N * N.

Definition sha1_round (st : Sha1State * nat) (w : N) : Sha1State * nat :=
  let '((a, b, c, d, e), t) := st in
  let '(f, k) := sha1_f t b c d in
  let tmp := w32 (rotl 5 a + f + e + k + w) in
  ((tmp, a, rotl 30 b, c, d), S t).

Definition sha1_block (h : Sha1State) (block : list N) : Sha1State :=
  let ws := rev (schedule 64 (rev (map be_int (chunks 16 4 block)))) in
  let '(h0, h1, h2, h3, h4) := h in
  let '((a, b, c, d, e), _) := fold_left sha1_round ws (h, O) in
  (w32 (h0 + a), w32 (h1 + b), w32 (h2 + c), w32 (h3 + d), w32 (h4 + e)).

(** [hashlib.sha1(msg).digest()] *)
Definition sha1 (msg : list N) : list N :=
  let p := sha1_pad msg in
  let '(h0, h1, h2, h3, h4) :=
    fold_left sha1_block (chunks (length p) 64 p)
      (0x67452301, 0xEFCDAB89, 0x98BADCFE, 0x10325476, 0xC3D2E1F0) in
  be_bytes 4 h0 ++ be_bytes 4 h1 ++ be_bytes 4 h2 ++ be_bytes 4 h3 ++ be_bytes 4 h4.

(** The variant and version bits [uuid.UUID(bytes=..., version=...)] sets. *)
Definition set_version (version : N) (int : N) : N :=
  let int := N.ldiff int (N.shiftl 0xc000 48) in
  let int := N.lor int (N.shiftl 0x8000 48) in
  let int := N.ldiff int (N.shiftl 0xf000 64) in
  N.lor int (N.shiftl version 76).

(** [uuid.uuid5(namespace, name)] *)
Definition uuid5 (namespace : UUID) (name : string) : UUID :=
  let hash := sha1 (be_bytes 16 namespace ++ bytes_of_string name) in
  set_version 5 (be_int (take 16 hash)).

Definition hex_digit (d : N) : ascii :=
  if d <? 10 then ascii_of_N (48 + d) else ascii_of_N (87 + d).

Fixpoint hex_digits (n : nat) (x : N) : string :=
  match n with
  | O => EmptyString
  | S n' => String (hex_digit (N.land (N.shiftr x (4 * N.of_nat n')) 0xf)) (hex_digits n' x)
  end.

(** [str(u)]: 32 hexadecimal digits in groups of 8-4-4-4-12 *)
Definition str (u : UUID) : string :=
  let hex := hex_digits 32 u in
  substring 0 8 hex +:+ "-" +:+ substring 8 4 hex +:+ "-" +:+ substring 12 4 hex
  +:+ "-" +:+ substring 16 4 hex +:+ "-" +:+ substring 20 12 hex.

Fixpoint drop_chars (k : nat) (s : string) : string :=
  match k, s with
  | S k', String _ r => drop_chars k' r
  | _, _ => s
  end.

(** [s.replace(old, EmptyString)], for a non-empty [old] *)
Fixpoint remove_all (fuel : nat) (old s : string) : string :=
  match fuel with
  | O => s
  | S f =>
      match s with
      | EmptyString => EmptyString
      | String c r =>
          if String.prefix old s
          then remove_all f old (drop_chars (String.length old) s)
          else String c (remove_all f old r)
      end
  end.

Definition remove_substring (old s : string) : string :=
  remove_all (String.length s) old s.

Definition is_brace (c : ascii) : bool := Ascii.eqb c "{" || Ascii.eqb c "}".

Fixpoint lstrip (p : ascii → bool) (s : string) : string :=
  match s with
  | String c r => if p c then lstrip p r else s
  | EmptyString => EmptyString
  end.

Definition string_rev (s : string) : string :=
  string_of_list_ascii (rev (list_ascii_of_string s)).

Definition strip (p : ascii → bool) (s : string) : string :=
  string_rev (lstrip p (string_rev (lstrip p s))).

(** The white space [int()] skips: space, tab, line feed, vertical tab,
    form feed, carriage return. *)
Definition is_space (c : ascii) : bool :=
  let n := nat_of_ascii c in
  Nat.eqb n 32 || ((9 <=? n)%nat && (n <=? 13)%nat).

Definition hex_value (c : ascii) : option N :=
  let n := N_of_ascii c in
  if (48 <=? n) && (n <=? 57) then Some (n - 48)
  else if (97 <=? n) && (n <=? 102) then Some (n - 87)
  else if (65 <=? n) && (n <=? 70) then Some (n - 55)
  else None.

(** Digits with single underscores between them; [after_digit] tells
    whether the previous character was a digit. *)
Fixpoint hex_digits_value (after_digit : bool) (acc : N) (s : string) : option N :=
  match s with
  | EmptyString => if after_digit then Some acc else None
  | String c r =>
      if Ascii.eqb c "_"
      then if after_digit then hex_digits_value false acc r else None
      else match hex_value c with
           | Some d => hex_digits_value true (16 * acc + d) r
           | None => None
           end
  end.

(** [int(s, 16)] on ASCII text, for a result that is not negative *)
Definition int16 (s : string) : option N :=
  let s := strip is_space s in
  let '(neg, s) := match s with
                   | String "+" r => (false, r)
                   | String "-" r => (true, r)
                   | _ => (false, s)
                   end in
  let s := match s with
           | String "0" (String "x" (String "_" r)) => r
           | String "0" (String "X" (String "_" r)) => r
           | String "0" (String "x" r) => r
           | String "0" (String "X" r) => r
           | _ => s
           end in
  match hex_digits_value false 0 s with
  | Some n => if neg then (if N.eqb n 0 then Some 0 else None) else Some n
  | None => None
  end.

(** [uuid.UUID(hex)] on ASCII text: the integer of the UUID, or [None]
    where the constructor raises [ValueError] *)
Definition UUID_of_hex (hex : string) : option UUID :=
  let hex := remove_substring "uuid:" (remove_substring "urn:" hex) in
  let hex := remove_substring "-" (strip is_brace hex) in
  if negb (Nat.eqb (String.length hex) 32) then None
  else match int16 hex with
       | Some n => if n <? 2 ^ 128 then Some n else None
       | None => None
       end.

End Uuid.

(** ** [posixpath] on a file system without symbolic links *)

Module Posix.

Definition startswith_slash (s : string) : bool :=
  match s with
  | String c _ => Ascii.eqb c "/"
  | EmptyString => false
  end.

Fixpoint endswith_slash (s : string) : bool :=
  match s with
  | EmptyString => false
  | String c EmptyString => Ascii.eqb c "/"
  | String _ r => endswith_slash r
  end.

(** [posixpath.isabs] *)
Definition isabs (s : string) : bool := startswith_slash s.

(** [posixpath.join(a, b)] *)
Definition join (a b : string) : string :=
  if startswith_slash b then b
  else if String.eqb a "" || endswith_slash a then a +:+ b
  else a +:+ "/" +:+ b.

(** [s.split('/')] *)
Fixpoint split_slash (s : string) : list string :=
  match s with
  | EmptyString => [EmptyString]
  | String c r =>
      if Ascii.eqb c "/" then EmptyString :: split_slash r
      else match split_slash r with
           | h :: t => String c h :: t
           | [] => [String c EmptyString]
           end
  end.

(** ['/'.join(comps)] *)
Fixpoint join_slash (comps : list string) : string :=
  match comps with
  | [] => EmptyString
  | [c] => c
  | c :: r => c +:+ "/" +:+ join_slash r
  end.

(** One turn of the loop of [posixpath.normpath]; [new_comps] is kept with
    its last element first. *)
Definition normpath_step (initial_slashes : nat) (new_comps : list string) (comp : string) : list string :=
  if String.eqb comp "" || String.eqb comp "." then new_comps
  else if negb (String.eqb comp "..")
          || (Nat.eqb initial_slashes 0 && match new_comps with [] => true | _ => false end)
          || match new_comps with
             | last :: _ => String.eqb last ".."
             | [] => false
             end
       then comp :: new_comps
       else tail new_comps.

Definition initial_slashes (path : string) : nat :=
  match path with
  | String "/" (String "/" (String "/" _)) => 1
  | String "/" (String "/" _) => 2
  | String "/" _ => 1
  | _ => 0
  end.

(** [posixpath.normpath] *)
Definition normpath (path : string) : string :=
  if String.eqb path "" then "."
  else
    let n := initial_slashes path in
    let comps := rev (fold_left (normpath_step n) (split_slash path) []) in
    let path := join_slash comps in
    let path := match n with
                | 0 => path
                | 1 => "/" +:+ path
                | _ => "//" +:+ path
                end in
    if String.eqb path "" then "." else path.

(** [posixpath.abspath], in working directory [cwd] *)
Definition abspath (cwd : string) (path : string) : string :=
  normpath (if startswith_slash path then path else join cwd path).

Fixpoint has_nul (s : string) : bool :=
  match s with
  | EmptyString => false
  | String c r => Ascii.eqb c zero || has_nul r
  end.

(** The path [realpath] arrives at where no component is a symbolic link:
    the components are walked from the root, so the result has a single
    leading slash. *)
Definition resolve (cwd : string) (path : string) : string :=
  match abspath cwd path with
  | String "/" (String "/" r) => String "/" r
  | p => p
  end.

(** [posixpath.realpath] where no component is a symbolic link.  Every
    component is looked up with [os.lstat], which raises [ValueError] on a
    name with an embedded NUL; the path looked up is the one given, under
    the working directory when it is relative. *)
Definition realpath (cwd : string) (path : string) : Res string :=
  if has_nul (if startswith_slash path then path else join cwd path)
  then Raise ValueError
  else Ok (resolve cwd path).

End Posix.

(** ** [ntpath], as the module defines it without the Win32 calls *)

Module Ntpath.

Definition backslash : ascii := ascii_of_nat 92.

(** [c in seps] *)
Definition is_sep (c : ascii) : bool := Ascii.eqb c "/" || Ascii.eqb c backslash.

Definition upper_ascii (c : ascii) : ascii :=
  let n := nat_of_ascii c in
  if (97 <=? n)%nat && (n <=? 122)%nat then ascii_of_nat (n - 32) else c.

Fixpoint upper (s : string) : string :=
  match s with
  | EmptyString => EmptyString
  | String c r => String (upper_ascii c) (upper r)
  end.

Definition startswith_sep (s : string) : bool :=
  match s with
  | String c _ => is_sep c
  | EmptyString => false
  end.

Fixpoint endswith_sep (s : string) : bool :=
  match s with
  | EmptyString => false
  | String c EmptyString => is_sep c
  | String _ r => endswith_sep r
  end.

Fixpoint endswith_colon (s : string) : bool :=
  match s with
  | EmptyString => false
  | String c EmptyString => Ascii.eqb c ":"
  | String _ r => endswith_colon r
  end.

(** [s[n:]] *)
Fixpoint drop (n : nat) (s : string) : string :=
  match n, s with
  | S n', String _ r => drop n' r
  | _, _ => s
  end.

(** [normp.find(sep, start)], on the path itself: the first separator at or
    after [start] *)
Fixpoint find_sep (start : nat) (s : string) : option nat :=
  match s with
  | EmptyString => None
  | String c r =>
      match start with
      | O => if is_sep c then Some O else option_map S (find_sep O r)
      | S n => option_map S (find_sep n r)
      end
  end.

Definition unc_prefix : string := "\\?\UNC\".

(** [ntpath.splitdrive] *)
Definition splitdrive (p : string) : string * string :=
  match p with
  | String c0 (String c1 _) =>
      if is_sep c0 && is_sep c1 then
        let start :=
          if String.eqb (upper (replace_slashes (substring 0 8 p))) unc_prefix
          then 8 else 2 in
        match find_sep start p with
        | None => (p, EmptyString)
        | Some index =>
            match find_sep (S index) p with
            | None => (p, EmptyString)
            | Some index2 => (substring 0 index2 p, drop index2 p)
            end
        end
      else if Ascii.eqb c1 ":" then (substring 0 2 p, drop 2 p)
      else (EmptyString, p)
  | _ => (EmptyString, p)
  end.

(** [ntpath.isabs]: a leading separator, or a colon and a separator after the
    first character *)
Definition isabs (s : string) : bool :=
  match s with
  | String c0 r =>
      is_sep c0
      || match r with
         | String c1 (String c2 _) => Ascii.eqb c1 ":" && is_sep c2
         | _ => false
         end
  | EmptyString => false
  end.

Definition nonempty (s : string) : bool := negb (String.eqb s "").

(** [ntpath.join(path, p)]; [fold] is the lower-casing that compares the
    drives *)
Definition join (fold : string → string) (path p : string) : string :=
  let '(result_drive, result_path) := splitdrive path in
  let '(p_drive, p_path) := splitdrive p in
  let '(result_drive, result_path) :=
    if startswith_sep p_path then
      (if nonempty p_drive || negb (nonempty result_drive) then p_drive else result_drive,
       p_path)
    else if nonempty p_drive && negb (String.eqb p_drive result_drive)
            && negb (String.eqb (fold p_drive) (fold result_drive))
    then (p_drive, p_path)
    else
      let result_drive :=
        if nonempty p_drive && negb (String.eqb p_drive result_drive)
        then p_drive else result_drive in
      let result_path :=
        if nonempty result_path && negb (endswith_sep result_path)
        then result_path +:+ "\" else result_path in
      (result_drive, result_path +:+ p_path) in
  if nonempty result_path && negb (startswith_sep result_path)
     && nonempty result_drive && negb (endswith_colon result_drive)
  then result_drive +:+ "\" +:+ result_path
  else result_drive +:+ result_path.

(** [path.lstrip(sep)] *)
Fixpoint lstrip_sep (s : string) : string :=
  match s with
  | String c r => if Ascii.eqb c backslash then lstrip_sep r else s
  | EmptyString => EmptyString
  end.

(** [path.split(sep)] *)
Fixpoint split_sep (s : string) : list string :=
  match s with
  | EmptyString => [EmptyString]
  | String c r =>
      if Ascii.eqb c backslash then EmptyString :: split_sep r
      else match split_sep r with
           | h :: t => String c h :: t
           | [] => [String c EmptyString]
           end
  end.

(** [sep.join(comps)] *)
Fixpoint join_sep (comps : list string) : string :=
  match comps with
  | [] => EmptyString
  | [c] => c
  | c :: r => c +:+ "\" +:+ join_sep r
  end.

(** One turn of the loop of [ntpath.normpath]; the components kept so far
    are held with the last one first. *)
Definition normpath_step (prefix_ends_with_sep : bool) (kept : list string) (comp : string)
    : list string :=
  if String.eqb comp "" || String.eqb comp "." then kept
  else if String.eqb comp ".." then
    match kept with
    | last :: rest => if negb (String.eqb last "..") then rest else comp :: kept
    | [] => if prefix_ends_with_sep then kept else comp :: kept
    end
  else comp :: kept.

(** [ntpath.normpath] *)
Definition normpath (path : string) : string :=
  let path := replace_slashes path in
  let '(prefix, path) := splitdrive path in
  let '(prefix, path) :=
    if startswith_sep path then (prefix +:+ "\", lstrip_sep path) else (prefix, path) in
  let comps := rev (fold_left (normpath_step (endswith_sep prefix)) (split_sep path) []) in
  let comps :=
    if String.eqb prefix "" && match comps with [] => true | _ => false end
    then ["."] else comps in
  prefix +:+ join_sep comps.

(** [ntpath.abspath] in working directory [cwd] *)
Definition abspath (fold : string → string) (cwd : string) (path : string) : string :=
  normpath (if isabs path then path else join fold cwd path).

(** [ntpath.realpath] is [abspath] where the final path name of a file is
    not asked for: no links, names as spelled. *)
Definition realpath (fold : string → string) (cwd : string) (path : string) : string :=
  abspath fold cwd path.

End Ntpath.

(** ** The host: operating system, [os.path], [uuid], the inherited manager *)

Module Host.

Abbreviation UUID := Uuid.UUID.

(** [DEFAULT_NAMESPACE = uuid.UUID("f2a57b34-7b27-43e9-87fd-1b7e9f9d5d6a")] *)
Definition DEFAULT_NAMESPACE : UUID := 0xf2a57b347b2743e987fd1b7e9f9d5d6a%N.


(** What the code reads from the process and from the [os], [os.path] and
    [uuid] modules, on text.  [os.getcwd], [os.path.realpath] and
    [os.path.abspath] ask the operating system and can raise;
    [os_path_realpath] is the only operation that consults the file system;
    [uuid_UUID v] is the constructor [uuid.UUID(v)], [None] where it raises
    [ValueError]. *)
Record OS : Type := mkOS {
  os_name : string;
  os_getcwd : Res string;
  os_environ : gmap string string;
  os_path_isabs : string → bool;
  os_path_join : string → string → string;
  os_path_realpath : string → Res string;
  os_path_abspath : string → Res string;
  os_path_normcase : string → string;
  uuid_UUID : string → option UUID
}.

(** [os.environ[k] = v] *)
Definition setenv (os : OS) (k v : string) : OS :=
  mkOS (os_name os) (os_getcwd os) (<[k := v]> (os_environ os))
       (os_path_isabs os) (os_path_join os) (os_path_realpath os)
       (os_path_abspath os) (os_path_normcase os) (uuid_UUID os).

(** [del os.environ[k]] *)
Definition unsetenv (os : OS) (k : string) : OS :=
  mkOS (os_name os) (os_getcwd os) (delete k (os_environ os))
       (os_path_isabs os) (os_path_join os) (os_path_realpath os)
       (os_path_abspath os) (os_path_normcase os) (uuid_UUID os).

(** [str(v)], as an f-string field formats a value. *)
Definition py_str (v : PyVal) : string :=
  match v with
  | PNone => "None"
  | PStr s => s
  | PDict _ r => r
  | PObj _ r => r
  end.

(** A running-kernel handle: what [km.is_alive()] does when called. *)
Record KernelManager : Type := mkKM { is_alive : Res bool }.

(** [self.parent], with its [root_dir] attribute when it has one. *)
Record Parent : Type := mkParent { root_dir : option string }.

(** The state of a [StickyMappingKernelManager]: the registry [_kernels]
    inherited from [MappingKernelManager], the (unused) [_path_to_kernel_id],
    the [parent] attribute when present, and whether [self.log] is set. *)
Record Self : Type := mkSelf {
  _kernels : gmap string KernelManager;
  _path_to_kernel_id : gmap string string;
  parent : option Parent;
  has_log : bool
}.

(** The messages handed to [_debug], by call site. *)
Inductive DebugMsg : Type :=
  | MsgKwargs (async : bool) (kwargs : gmap string PyVal)
  | MsgChosen (async : bool) (raw_path : PyVal) (abs_path : string) (kernel_name : PyVal)
  | MsgReusing (async : bool) (proposed abs_path : string)
  | MsgDead (proposed : string)
  | MsgStarting (async : bool) (kernel_id : PyVal)
  | MsgStarted (async : bool) (rid : PyVal).

(** What a start request does to its surroundings, in order. *)
Inductive Event : Type :=
  | EvStickyLog (m : DebugMsg)
  | EvServerLog (m : DebugMsg)
  | EvContains (kernel_id : string)
  | EvGetItem (kernel_id : string)
  | EvIsAlive (kernel_id : string)
  | EvSuperStart (kernel_id : PyVal) (kwargs : gmap string PyVal)
  | EvSuperStartAsync (kernel_id : PyVal) (kwargs : gmap string PyVal).

(** The inherited [MappingKernelManager]: its [start_kernel] and
    [start_kernel_async], which return the started kernel's id or raise and
    leave the manager in a new state. *)
Record Super : Type := mkSuper {
  super_start_kernel : Self → PyVal → gmap string PyVal → Res PyVal * Self;
  super_start_kernel_async : Self → PyVal → gmap string PyVal → Res PyVal * Self
}.

End Host.
Export Host.

(** ** Actions: state, trace and exceptions *)

Module Act.

Record Run (A : Type) : Type := mkRun {
  events : list Event;
  outcome : Res A;
  final : Self
}.
Arguments mkRun {A} events outcome final.
Arguments events {A} r.
Arguments outcome {A} r.
Arguments final {A} r.

Definition Action (A : Type) : Type := Self → Run A.

Definition ret {A : Type} (a : A) : Action A := fun s => mkRun [] (Ok a) s.

Definition raise {A : Type} (e : PyExc) : Action A := fun s => mkRun [] (Raise e) s.

Definition bind {A B : Type} (m : Action A) (k : A → Action B) : Action B :=
  fun s =>
    match m s with
    | mkRun ev (Ok a) s' =>
        match k a s' with
        | mkRun ev' o s'' => mkRun (ev ++ ev') o s''
        end
    | mkRun ev (Raise e) s' => mkRun ev (Raise e) s'
    end.

Definition lift {A : Type} (r : Res A) : Action A := fun s => mkRun [] r s.

Definition emit (e : Event) : Action unit := fun s => mkRun [e] (Ok tt) s.

Definition get_self : Action Self := fun s => mkRun [] (Ok s) s.

(** [try: m except Exception: handler] *)
Definition try_except {A : Type} (m : Action A) (handler : Action A) : Action A :=
  fun s =>
    match m s with
    | mkRun ev (Ok a) s' => mkRun ev (Ok a) s'
    | mkRun ev (Raise e) s' =>
        if isinstance_Exception e
        then match handler s' with
             | mkRun ev' o s'' => mkRun (ev ++ ev') o s''
             end
        else mkRun ev (Raise e) s'
    end.

(** A run with events put in front. *)
Definition prepend {A : Type} (ev : list Event) (r : Run A) : Run A :=
  mkRun (ev ++ events r) (outcome r) (final r).

End Act.
Export Act.

Declare Scope act_scope.
Delimit Scope act_scope with act.
Notation "'let*' x ':=' m 'in' k" := (Act.bind m (fun x => k))
  (at level 10, x name, m at level 100, k at level 200) : act_scope.
Notation "m ';;' k" := (Act.bind m (fun _ => k))
  (at level 100, k at level 200, right associativity) : act_scope.

(** ** [DarkPyonix_km/manager.py] *)

Module Manager.

Definition nonempty (s : string) : bool := negb (String.eqb s "").

Definition is_None (v : PyVal) : bool :=
  match v with
  | PNone => true
  | _ => false
  end.

(** [_abs_norm(root_dir, raw_path)].  [os.getcwd] is called when there is
    no root directory, and can raise; [os.path.isabs] raises [TypeError] on
    a value that is not a path; [os.path.realpath] and [os.path.abspath]
    can raise on text. *)
Definition _abs_norm (os : OS) (root_dir : option string) (raw_path : PyVal) : Res string :=
  if negb (truthy raw_path) then Ok ""
  else
    res_bind (match root_dir with
              | Some d => if nonempty d then Ok d else os_getcwd os
              | None => os_getcwd os
              end)
      (fun base =>
         match raw_path with
         | PStr raw =>
             let p := if os_path_isabs os raw then raw else os_path_join os base raw in
             res_bind (os_path_realpath os p) (fun p =>
             res_bind (os_path_abspath os p) (fun p =>
             let p := if String.eqb (os_name os) "nt" then os_path_normcase os p else p in
             Ok p))
         | _ => Raise TypeError
         end).

(** [_pick_path_from_kwargs(kwargs)].  A truthy [env] that is not a mapping
    has no [get]: [AttributeError]. *)
Definition _pick_path_from_kwargs (kwargs : gmap string PyVal) : Res PyVal :=
  let raw := py_or (dict_get kwargs "path") (PStr "") in
  if truthy raw then Ok raw
  else
    let env := py_or (dict_get kwargs "env") empty_dict in
    match env with
    | PDict env _ =>
        Ok (py_or (py_or (dict_get env "JPY_SESSION_NAME") (dict_get env "NOTEBOOK_PATH"))
                  (PStr ""))
    | _ => Raise AttributeError
    end.

(** [_stable_kernel_id(abs_path, kernel_name, ns)]:
    [str(uuid.uuid5(ns, f"{abs_path}|{kernel_name}"))] *)
Definition _stable_kernel_id (abs_path : string) (kernel_name : PyVal) (ns : UUID) : string :=
  Uuid.str (Uuid.uuid5 ns (abs_path +:+ "|" +:+ py_str kernel_name)).

(** [_namespace()] *)
Definition _namespace (os : OS) : Res UUID :=
  let v := os_environ os !! "STICKYKM_NAMESPACE" in
  try_except_Exception
    (match v with
     | Some v =>
         if nonempty v
         then match uuid_UUID os v with
              | Some u => Ok u
              | None => Raise ValueError
              end
         else Ok DEFAULT_NAMESPACE
     | None => Ok DEFAULT_NAMESPACE
     end)
    (Ok DEFAULT_NAMESPACE).

(** [StickyMappingKernelManager._propose_id(abs_path, kernel_name)] *)
Definition _propose_id (os : OS) (abs_path : string) (kernel_name : PyVal) : Res string :=
  res_bind (_namespace os) (fun ns => Ok (_stable_kernel_id abs_path kernel_name ns)).

(** [StickyMappingKernelManager._debug(msg)] *)
Definition _debug (msg : DebugMsg) : Action unit :=
  (emit (EvStickyLog msg) ;;
   let* self := get_self in
   if has_log self then emit (EvServerLog msg) else ret tt)%act.

(** The log lines one [_debug] call writes. *)
Definition log_events (self : Self) (m : DebugMsg) : list Event :=
  EvStickyLog m :: (if has_log self then [EvServerLog m] else []).

(** [getattr(self.parent, "root_dir", None) if hasattr(self, "parent") else None] *)
Definition self_root_dir (self : Self) : option string :=
  match parent self with
  | Some p => root_dir p
  | None => None
  end.

(** [proposed in self._kernels] *)
Definition kernels_contains (kernel_id : string) : Action bool :=
  (emit (EvContains kernel_id) ;;
   let* self := get_self in
   ret (match _kernels self !! kernel_id with
        | Some _ => true
        | None => false
        end))%act.

(** [self._kernels[proposed]] *)
Definition kernels_getitem (kernel_id : string) : Action KernelManager :=
  (emit (EvGetItem kernel_id) ;;
   let* self := get_self in
   match _kernels self !! kernel_id with
   | Some km => ret km
   | None => raise (mkExc "KeyError" FromException)
   end)%act.

(** [km.is_alive()] on the handle registered under [kernel_id] *)
Definition call_is_alive (kernel_id : string) (km : KernelManager) : Action bool :=
  (emit (EvIsAlive kernel_id) ;; lift (is_alive km))%act.

(** [super().start_kernel(kernel_id=kernel_id, **kwargs)] *)
Definition call_super_start_kernel (sup : Super) (kernel_id : PyVal) (kwargs : gmap string PyVal) : Action PyVal :=
  fun self =>
    let '(r, self') := super_start_kernel sup self kernel_id kwargs in
    mkRun [EvSuperStart kernel_id kwargs] r self'.

(** [await super().start_kernel_async(kernel_id=kernel_id, **kwargs)] *)
Definition call_super_start_kernel_async (sup : Super) (kernel_id : PyVal) (kwargs : gmap string PyVal) : Action PyVal :=
  fun self =>
    let '(r, self') := super_start_kernel_async sup self kernel_id kwargs in
    mkRun [EvSuperStartAsync kernel_id kwargs] r self'.

(** [StickyMappingKernelManager.start_kernel(self, **kwargs)] *)
Definition start_kernel (sup : Super) (os : OS) (kwargs : gmap string PyVal) : Action PyVal :=
  (_debug (MsgKwargs false kwargs) ;;
   let kernel_id := dict_get_default kwargs "kernel_id" PNone in
   let kwargs := delete "kernel_id" kwargs in
   let kernel_name := dict_get_default kwargs "kernel_name" (PStr "python3") in
   let* raw_path := lift (_pick_path_from_kwargs kwargs) in
   let* self := get_self in
   let* abs_path := lift (_abs_norm os (self_root_dir self) raw_path) in
   _debug (MsgChosen false raw_path abs_path kernel_name) ;;
   let kwargs := if nonempty abs_path then <["path" := PStr abs_path]> kwargs else kwargs in
   let start_new (kernel_id : PyVal) : Action PyVal :=
     (_debug (MsgStarting false kernel_id) ;;
      let rid := if is_None kernel_id then PStr "<parent-generated>" else kernel_id in
      let* out := call_super_start_kernel sup kernel_id kwargs in
      _debug (MsgStarted false rid) ;;
      ret out) in
   if is_None kernel_id && nonempty abs_path then
     let* proposed := lift (_propose_id os abs_path kernel_name) in
     let* present := kernels_contains proposed in
     if present then
       let* km := kernels_getitem proposed in
       let* alive := try_except (call_is_alive proposed km) (ret true) in
       if alive then
         (_debug (MsgReusing false proposed abs_path) ;;
          ret (PStr proposed))
       else
         (_debug (MsgDead proposed) ;;
          start_new (PStr proposed))
     else start_new (PStr proposed)
   else start_new kernel_id)%act.

(** [StickyMappingKernelManager.start_kernel_async(self, **kwargs)] *)
Definition start_kernel_async (sup : Super) (os : OS) (kwargs : gmap string PyVal) : Action PyVal :=
  (_debug (MsgKwargs true kwargs) ;;
   let kernel_id := dict_get_default kwargs "kernel_id" PNone in
   let kwargs := delete "kernel_id" kwargs in
   let kernel_name := dict_get_default kwargs "kernel_name" (PStr "python3") in
   let* raw_path := lift (_pick_path_from_kwargs kwargs) in
   let* self := get_self in
   let* abs_path := lift (_abs_norm os (self_root_dir self) raw_path) in
   _debug (MsgChosen true raw_path abs_path kernel_name) ;;
   let kwargs := if nonempty abs_path then <["path" := PStr abs_path]> kwargs else kwargs in
   let start_new (kernel_id : PyVal) : Action PyVal :=
     (_debug (MsgStarting true kernel_id) ;;
      let* out := call_super_start_kernel_async sup kernel_id kwargs in
      let rid := if is_None kernel_id then PStr "<parent-generated>" else kernel_id in
      _debug (MsgStarted true rid) ;;
      ret out) in
   if is_None kernel_id && nonempty abs_path then
     let* proposed := lift (_propose_id os abs_path kernel_name) in
     let* present := kernels_contains proposed in
     if present then
       let* km := kernels_getitem proposed in
       let* alive := try_except (call_is_alive proposed km) (ret true) in
       if alive then
         (_debug (MsgReusing true proposed abs_path) ;;
          ret (PStr proposed))
       else start_new (PStr proposed)
     else start_new (PStr proposed)
   else start_new kernel_id)%act.

End Manager.
Export Manager.

(** ** What a run did: probes of the registry and delegated starts *)

Module Trace.

(** A registry membership test, a registry read or a liveness check. *)
Definition is_probe (e : Event) : bool :=
  match e with
  | EvContains _ | EvGetItem _ | EvIsAlive _ => true
  | _ => false
  end.

Definition probes (tr : list Event) : list Event := filter (fun e => is_probe e = true) tr.

(** The arguments of a call of the inherited start operation. *)
Definition started (e : Event) : option (PyVal * gmap string PyVal) :=
  match e with
  | EvSuperStart k kw | EvSuperStartAsync k kw => Some (k, kw)
  | _ => None
  end.

Definition super_starts (tr : list Event) : list (PyVal * gmap string PyVal) :=
  omap started tr.

(** The protocol of a run: its events without the log lines and without the
    distinction between the blocking and the suspending start. *)
Inductive Step : Type :=
  | Contains (kernel_id : string)
  | GetItem (kernel_id : string)
  | IsAlive (kernel_id : string)
  | Start (kernel_id : PyVal) (kwargs : gmap string PyVal).

Definition step_of (e : Event) : option Step :=
  match e with
  | EvStickyLog _ | EvServerLog _ => None
  | EvContains k => Some (Contains k)
  | EvGetItem k => Some (GetItem k)
  | EvIsAlive k => Some (IsAlive k)
  | EvSuperStart k kw | EvSuperStartAsync k kw => Some (Start k kw)
  end.

Definition protocol (tr : list Event) : list Step := omap step_of tr.

End Trace.
Export Trace.

(** ** Requests and platforms *)

Module Request.

(** The [kernel_id] a request carries ([None] when it carries none). *)
Definition explicit_kernel_id (kwargs : gmap string PyVal) : PyVal :=
  dict_get_default kwargs "kernel_id" PNone.

(** The kernel-type tag of a request. *)
Definition kernel_name_of (kwargs : gmap string PyVal) : PyVal :=
  dict_get_default kwargs "kernel_name" (PStr "python3").

(** The keyword arguments handed on to the inherited start operation. *)
Definition outgoing_kwargs (kwargs : gmap string PyVal) (abs_path : string) : gmap string PyVal :=
  if nonempty abs_path
  then <["path" := PStr abs_path]> (delete "kernel_id" kwargs)
  else delete "kernel_id" kwargs.

Definition optional_str (v : PyVal) : Prop :=
  match v with
  | PNone | PStr _ => True
  | _ => False
  end.

(** A request typed as the signatures say: [path] is an optional [str],
    [env] an optional mapping whose session entries are optional [str]. *)
Definition well_typed (kwargs : gmap string PyVal) : Prop :=
  optional_str (dict_get kwargs "path") ∧
  match dict_get kwargs "env" with
  | PNone => True
  | PDict env _ =>
      optional_str (dict_get env "JPY_SESSION_NAME") ∧
      optional_str (dict_get env "NOTEBOOK_PATH")
  | _ => False
  end.

(** The canonical path of a request: extraction, then normalization against
    the server root. *)
Definition canonical_path (os : OS) (self : Self) (kwargs : gmap string PyVal) : Res string :=
  res_bind (_pick_path_from_kwargs kwargs) (_abs_norm os (self_root_dir self)).




End Request.
Export Request.

(** ** Concrete platforms and a concrete backend *)

Module Concrete.

(** A POSIX platform whose file system has no symbolic links. *)
Definition posix_os (cwd : string) (environ : gmap string string) : OS :=
  mkOS "posix" (Ok cwd) environ Posix.isabs Posix.join (Posix.realpath cwd)
       (fun p => Ok (Posix.abspath cwd p)) (fun s => s) Uuid.UUID_of_hex.


(** A backend whose start operation registers a live kernel under the given
    id, drawing an id of its own when given [None]. *)
Definition live_start (self : Self) (kernel_id : PyVal) (kwargs : gmap string PyVal) : Res PyVal * Self :=
  let register k :=
    (Ok (PStr k),
     mkSelf (<[k := mkKM (Ok true)]> (_kernels self)) (_path_to_kernel_id self)
            (parent self) (has_log self)) in
  match kernel_id with
  | PStr k => register k
  | PNone => register "5d2f6c1e-0b7a-4c3e-9f21-7a0d4e8b6c55"
  | _ => (Raise TypeError, self)
  end.

Definition live_backend : Super := mkSuper live_start live_start.

(** A manager as the server builds it: an empty registry, a parent with the
    given root directory, and a server log. *)
Definition fresh_manager (root : option string) : Self :=
  mkSelf ∅ ∅ (Some (mkParent root)) true.

Definition with_kernel (self : Self) (kernel_id : string) (km : KernelManager) : Self :=
  mkSelf (<[kernel_id := km]> (_kernels self)) (_path_to_kernel_id self)
         (parent self) (has_log self).

End Concrete.
Export Concrete.

(** ** Scenarios of section 8 of the specification, evaluated *)

Module Scenarios.

(** The project of the specification's scenarios: server root
    [/home/u/proj], default namespace. *)
Definition proj_os : OS := posix_os "/srv" ∅.
Definition proj_self : Self := fresh_manager (Some "/home/u/proj").
Definition proj_path : string := "/home/u/proj/notebooks/a.ipynb".

(** [str(uuid.uuid5(DEFAULT_NAMESPACE, "/home/u/proj/notebooks/a.ipynb|python3"))] *)
Definition proj_id : string := "100b4c12-2eb2-50c6-99b2-a1775c7332f4".

Definition first_request : gmap string PyVal :=
  {[ "path" := PStr "notebooks/a.ipynb"; "kernel_name" := PStr "python3" ]}.

(** The same notebook under another spelling, asked for by someone else. *)
Definition second_request : gmap string PyVal :=
  {[ "path" := PStr "./notebooks/a.ipynb"; "kernel_name" := PStr "python3";
     "user" := PStr "someone-else" ]}.

Definition explicit_request : gmap string PyVal :=
  {[ "path" := PStr "notebooks/a.ipynb"; "kernel_id" := PStr "my-kernel" ]}.

(** A request under a kernel id of the caller's choice for a notebook whose
    name holds a NUL. *)
Definition nul_path : string := String "a" (String zero ".ipynb").

Definition nul_request : gmap string PyVal :=
  {[ "path" := PStr nul_path; "kernel_id" := PStr "my-kernel" ]}.

Definition pathless_request : gmap string PyVal :=
  {[ "kernel_name" := PStr "python3" ]}.

Definition session_env : gmap string PyVal :=
  {[ "JPY_SESSION_NAME" := PStr "notebooks/a.ipynb"; "NOTEBOOK_PATH" := PStr "other.ipynb" ]}.

Definition session_request : gmap string PyVal :=
  {[ "env" := PDict session_env "{...}" ]}.

Definition notebook_env : gmap string PyVal :=
  {[ "NOTEBOOK_PATH" := PStr "other.ipynb" ]}.

Definition notebook_request : gmap string PyVal :=
  {[ "env" := PDict notebook_env "{...}" ]}.

(** Managers whose registry holds the project's identity, with a handle
    that is alive, that is dead, whose probe fails, and whose probe is
    interrupted. *)
Definition live_self : Self := with_kernel proj_self proj_id (mkKM (Ok true)).
Definition dead_self : Self := with_kernel proj_self proj_id (mkKM (Ok false)).
Definition failing_self : Self := with_kernel proj_self proj_id (mkKM (Raise RuntimeError)).
Definition interrupted_self : Self :=
  with_kernel proj_self proj_id (mkKM (Raise KeyboardInterrupt)).

(** The namespace the installer exports, which is not a UUID, and one that
    is (the DNS namespace of RFC 4122). *)
Definition named_os : OS := setenv proj_os "STICKYKM_NAMESPACE" "my-project-2025".
Definition dns_namespace : string := "6ba7b810-9dad-11d1-80b4-00c04fd430c8".



End Scenarios.


(** ** The decision of a start request, as the algorithm of the specification words it *)

Module Decision.

(** What a start request comes to: it fails before anything is probed; it
    reuses a registered kernel; its liveness check raises past the handler;
    or it is handed to the inherited start operation, after the probes
    [probed], with a [kernel_id] and keyword arguments. *)
Inductive Decision : Type :=
  | Fails (e : PyExc)
  | Reuse (kernel_id : string)
  | ProbeRaises (kernel_id : string) (e : PyExc)
  | StartNew (probed : list Step) (kernel_id : PyVal) (kwargs : gmap string PyVal).

(** The three probes of a registered identity, in order. *)
Definition was_probed (kernel_id : string) : list Step :=
  [Contains kernel_id; GetItem kernel_id; IsAlive kernel_id].

(** Steps 1 to 4 of the algorithm: normalize the path; with an explicit
    identity, or without a canonical path, start with what was supplied;
    otherwise resolve the identity and look it up. *)
Definition decide (os : OS) (self : Self) (kwargs : gmap string PyVal) : Decision :=
  match canonical_path os self kwargs with
  | Raise e => Fails e
  | Ok abs_path =>
      let outgoing := outgoing_kwargs kwargs abs_path in
      if is_None (explicit_kernel_id kwargs) && nonempty abs_path
      then match _propose_id os abs_path (kernel_name_of kwargs) with
           | Raise e => Fails e
           | Ok proposed =>
               match _kernels self !! proposed with
               | None => StartNew [Contains proposed] (PStr proposed) outgoing
               | Some km =>
                   match is_alive km with
                   | Ok true => Reuse proposed
                   | Ok false => StartNew (was_probed proposed) (PStr proposed) outgoing
                   | Raise e =>
                       if isinstance_Exception e then Reuse proposed
                       else ProbeRaises proposed e
                   end
               end
           end
      else StartNew [] (explicit_kernel_id kwargs) outgoing
  end.

(** Step 5: what a decision does, given the inherited start operation:
    the protocol it follows, its result, and the manager it leaves. *)
Definition carry_out
    (start : Self → PyVal → gmap string PyVal → Res PyVal * Self)
    (self : Self) (d : Decision) : list Step * Res PyVal * Self :=
  match d with
  | Fails e => ([], Raise e, self)
  | Reuse id => (was_probed id, Ok (PStr id), self)
  | ProbeRaises id e => (was_probed id, Raise e, self)
  | StartNew probed kernel_id kwargs =>
      ((probed ++ [Start kernel_id kwargs])%list,
       (start self kernel_id kwargs).1, (start self kernel_id kwargs).2)
  end.

(** What is observed of a run: its protocol, its result, the manager it
    leaves. *)
Definition observed (r : Run PyVal) : list Step * Res PyVal * Self :=
  (protocol (events r), outcome r, final r).

(** The two entry points, and the inherited operation each one calls. *)
Definition entry (async : bool) : Super → OS → gmap string PyVal → Action PyVal :=
  if async then start_kernel_async else start_kernel.

Definition inherited (async : bool) (sup : Super)
    : Self → PyVal → gmap string PyVal → Res PyVal * Self :=
  if async then super_start_kernel_async sup else super_start_kernel sup.

(** The arguments of the inherited starts of a protocol. *)
Definition start_args (s : Step) : option (PyVal * gmap string PyVal) :=
  match s with
  | Start k kw => Some (k, kw)
  | _ => None
  end.

End Decision.
Export Decision.

(** ** A session: requests served one after another *)

Module Session.

(** The server calls the entry point once per request, each call on the
    manager the previous one left. *)
Fixpoint serve (async : bool) (sup : Super) (os : OS)
    (requests : list (gmap string PyVal)) (self : Self) : list (Run PyVal) :=
  match requests with
  | [] => []
  | kw :: rest =>
      let r := entry async sup os kw self in
      r :: serve async sup os rest (final r)
  end.

(** All the inherited starts of a session. *)
Definition session_starts (runs : list (Run PyVal)) : list (PyVal * gmap string PyVal) :=
  concat (map (fun r => super_starts (events r)) runs).

(** A start operation that, asked to start under a given identity, returns
    it and registers a live handle under it, and keeps the parent. *)
Definition registers_live (start : Self → PyVal → gmap string PyVal → Res PyVal * Self) : Prop :=
  ∀ self id kw,
    (start self (PStr id) kw).1 = Ok (PStr id) ∧
    parent (start self (PStr id) kw).2 = parent self ∧
    ∃ km, _kernels (start self (PStr id) kw).2 !! id = Some km ∧ is_alive km = Ok true.

End Session.
Export Session.


(** ** A protocol without the arguments handed on *)

Module Forget.

(** A step with the keyword arguments of a start left out. *)
Definition forget_kwargs (s : Step) : Step :=
  match s with
  | Start k _ => Start k ∅
  | _ => s
  end.

End Forget.
Export Forget.


(** ** Canonical absolute paths on POSIX *)

Module Canonical.
Import Posix.

Fixpoint has_slash (s : string) : bool :=
  match s with
  | EmptyString => false
  | String c r => Ascii.eqb c "/" || has_slash r
  end.

(** A name in a directory: not empty, not [.] or [..], without slash. *)
Definition is_name (c : string) : bool :=
  negb (String.eqb c "") && negb (String.eqb c ".") && negb (String.eqb c "..")
  && negb (has_slash c).

(** A canonical absolute path: one slash, then names separated by single
    slashes. *)
Definition canonical (p : string) : Prop :=
  ∃ names, forallb is_name names = true ∧ p = String "/" (join_slash names).

(** The components of a path that count: those that are neither empty nor
    a dot. *)
Definition essential (path : string) : list string :=
  List.filter (fun c => negb (String.eqb c "" || String.eqb c ".")) (split_slash path).

End Canonical.


(** ** The text of an identity *)

Module IdentityText.

(** A lower-case hexadecimal digit. *)
Definition is_lower_hex (c : ascii) : bool :=
  let n := N_of_ascii c in
  ((48 <=? n) && (n <=? 57) || (97 <=? n) && (n <=? 102))%N.

Fixpoint all_lower_hex (s : string) : bool :=
  match s with
  | EmptyString => true
  | String c r => is_lower_hex c && all_lower_hex r
  end.

(** The digit that carries the variant of RFC 4122. *)
Definition is_variant_digit (c : ascii) : bool :=
  Ascii.eqb c "8" || Ascii.eqb c "9" || Ascii.eqb c "a" || Ascii.eqb c "b".

(** The text of a version-5 UUID: groups of 8, 4, 4, 4 and 12 lower-case
    hexadecimal digits, the third starting with [5], the fourth with the
    variant digit. *)
Definition version5_text (s : string) : Prop :=
  ∃ a b c v d e,
    s = a +:+ "-" +:+ b +:+ "-" +:+ String "5" c +:+ "-" +:+ String v d +:+ "-" +:+ e ∧
    String.length a = 8%nat ∧ String.length b = 4%nat ∧ String.length c = 3%nat ∧
    String.length d = 3%nat ∧ String.length e = 12%nat ∧
    is_variant_digit v = true ∧
    all_lower_hex (a +:+ b +:+ c +:+ d +:+ e) = true.

End IdentityText.


(** ** Text as [config.py] handles it *)

Module Txt.

(** A [str] as a sequence of code points: [strip()] looks at Unicode white
    space, and the generated configuration holds characters outside ASCII. *)
Definition Text : Type := list N.

(** An ASCII literal. *)
Definition text (s : string) : Text := map N_of_ascii (list_ascii_of_string s).

Definition newline : N := 10%N.

(** The double quote. *)
Definition dq : N := 34%N.

(** [s.startswith(prefix)] *)
Fixpoint startswith (prefix s : Text) : bool :=
  match prefix, s with
  | [], _ => true
  | p :: ps, c :: cs => N.eqb p c && startswith ps cs
  | _ :: _, [] => false
  end.

(** [sub in s] *)
Fixpoint contains (sub s : Text) : bool :=
  startswith sub s ||
  match s with
  | [] => false
  | _ :: r => contains sub r
  end.

(** [s.count(newline)] *)
Definition count_newlines (s : Text) : nat :=
  List.length (List.filter (N.eqb newline) s).

(** [s.split(newline)] *)
Fixpoint split_lines (s : Text) : list Text :=
  match s with
  | [] => [[]]
  | c :: r =>
      if N.eqb c newline then [] :: split_lines r
      else match split_lines r with
           | l :: ls => (c :: l) :: ls
           | [] => [[c]]
           end
  end.

(** [newline.join(lines)] *)
Fixpoint join_lines (lines : list Text) : Text :=
  match lines with
  | [] => []
  | [l] => l
  | l :: rest => (l ++ newline :: join_lines rest)%list
  end.

(** The characters [str.strip()] removes: those for which [str.isspace()]
    holds. *)
Definition is_whitespace (c : N) : bool :=
  ((9 <=? c) && (c <=? 13) || (28 <=? c) && (c <=? 32)
   || (c =? 0x85) || (c =? 0xA0) || (c =? 0x1680)
   || (0x2000 <=? c) && (c <=? 0x200A)
   || (c =? 0x2028) || (c =? 0x2029) || (c =? 0x202F) || (c =? 0x205F)
   || (c =? 0x3000))%N.

Fixpoint lstrip (s : Text) : Text :=
  match s with
  | c :: r => if is_whitespace c then lstrip r else s
  | [] => []
  end.

(** [s.strip()] *)
Definition strip (s : Text) : Text := rev (lstrip (rev (lstrip s))).

(** A text within one line. *)
Definition no_newline (l : Text) : Prop := ¬ In newline l.

(** Each line followed by a line feed, as a triple-quoted literal that ends
    in a line break reads. *)
Definition unlines (lines : list Text) : Text :=
  concat (map (fun l => (l ++ [newline])%list) lines).

End Txt.

(** ** [DarkPyonix_km/config.py] *)

Module Config.
Import Txt.

(** The configuration [create_config] writes. *)
Definition config_content : Text := unlines [
    text "# DarkPyonix Configuration";
    text "# Sticky Kernel Manager for file-based kernel reuse";
    [];
    text "c.ServerApp.kernel_manager_class = 'DarkPyonix_km.manager.StickyMappingKernelManager'";
    text "c.ServerApp.session_manager_class = 'DarkPyonix_km.manager.StickySessionManager'";
    [];
    text "# Basic server settings";
    text "c.ServerApp.ip = '127.0.0.1'";
    text "c.ServerApp.open_browser = False";
    text "c.ServerApp.allow_root = True";
    [];
    text "# Optional: Enable debug logging";
    text "# import logging";
    text "# logging.getLogger(" ++ [dq] ++ text "StickyKM" ++ [dq] ++ text ").setLevel(logging.DEBUG)";
    text "# logging.getLogger(" ++ [dq] ++ text "StickySM" ++ [dq] ++ text ").setLevel(logging.DEBUG)";
    [];
    text "print(" ++ [dq; 0x1F680%N] ++ text " [DarkPyonix] Sticky Kernel Manager activated!" ++ [dq] ++ text ")";
    text "print(" ++ [dq; 0x1F4DD%N] ++ text " [DarkPyonix] Same file path " ++ [0x2192%N] ++ text " Same kernel reuse" ++ [dq] ++ text ")"
  ]%list.

(** The configuration directory of the virtual environment: absent, or
    present with or without [jupyter_server_config.py] and with or without
    other entries.  A file is held as the text written to it. *)
Inductive ConfigDir : Type :=
  | NoDir
  | Dir (config_file : option Text) (other_entries : bool).

(** [create_config()]: [mkdir(parents=True, exist_ok=True)], then the file
    is written anew. *)
Definition create_config (d : ConfigDir) : ConfigDir :=
  match d with
  | NoDir => Dir (Some config_content) false
  | Dir _ others => Dir (Some config_content) others
  end.

(** [line.strip() == EmptyString] *)
Definition is_blank (line : Text) : bool :=
  match strip line with
  | [] => true
  | _ :: _ => false
  end.

(** The lines that open a block to remove. *)
Definition is_marker (line : Text) : bool :=
  contains (text "DarkPyonix") line
  || contains (text "StickyMappingKernelManager") line
  || contains (text "StickySessionManager") line.

(** The lines that do not end a block. *)
Definition continues_block (line : Text) : bool :=
  startswith (text "c.") line || startswith (text "#") line
  || startswith (text "print") line.

(** The loop of [clean_config] over the lines, with its two variables. *)
Fixpoint clean_loop (skip_block : bool) (new_lines : list Text) (lines : list Text)
    : list Text :=
  match lines with
  | [] => new_lines
  | line :: rest =>
      if is_marker line then clean_loop true new_lines rest
      else if skip_block && is_blank line then clean_loop skip_block new_lines rest
      else
        let skip_block :=
          if skip_block && negb (continues_block line) then false else skip_block in
        let new_lines :=
          if negb skip_block then (new_lines ++ [line])%list else new_lines in
        clean_loop skip_block new_lines rest
  end.

(** What [clean_config] does with a file it has read. *)
Inductive Cleaned : Type :=
  | Unlinked
  | Rewritten (content : Text).

Definition clean_content (content : Text) : Cleaned :=
  if contains (text "DarkPyonix") content && (count_newlines content <? 20)%nat
  then Unlinked
  else
    let lines := split_lines content in
    let new_lines := clean_loop false [] lines in
    if match new_lines with [] => false | _ :: _ => true end
       && existsb (fun line => negb (is_blank line)) new_lines
    then Rewritten (join_lines new_lines)
    else Unlinked.

(** [clean_config()].  [read] is what reading a file in text mode with the
    default encoding gives for a stored text, [None] where it raises; the
    handler of [except Exception] then leaves the file as it is.  At the
    end the directory is removed when it is empty. *)
Definition clean_config (read : Text → option Text) (d : ConfigDir) : ConfigDir :=
  match d with
  | NoDir => NoDir
  | Dir file others =>
      let file' :=
        match file with
        | None => None
        | Some stored =>
            match read stored with
            | None => Some stored
            | Some content =>
                match clean_content content with
                | Unlinked => None
                | Rewritten new => Some new
                end
            end
        end in
      match file', others with
      | None, false => NoDir
      | _, _ => Dir file' others
      end
  end.




(** A configuration of the user's own that sets the kernel manager by hand,
    and what cleaning leaves of it. *)
Definition user_config : Text := join_lines [
    text "import os";
    text "from km import StickyMappingKernelManager";
    text "c.ServerApp.kernel_manager_class = StickyMappingKernelManager";
    text "c.ServerApp.port = 9999";
    [];
    text "c.ServerApp.ip = '0.0.0.0'";
    text "x = 2"
  ].

Definition user_config_cleaned : Text := join_lines [text "import os"; text "x = 2"].





End Config.

(** ** [setup.py] *)

Module Setup.
Import Txt.

(** The configuration [create_jupyter_config] writes. *)
Definition config_content : Text := unlines [
    text "# DarkPyonix Auto-Generated Configuration";
    text "# This file was automatically generated during DarkPyonix installation.";
    [];
    text "# Activate Sticky Kernel Manager";
    text "c.ServerApp.kernel_manager_class = 'DarkPyonix_km.manager.StickyMappingKernelManager'";
    text "c.ServerApp.session_manager_class = 'DarkPyonix_km.manager.StickySessionManager'";
    [];
    text "# Basic settings";
    text "c.ServerApp.ip = '127.0.0.1'";
    text "c.ServerApp.open_browser = False";
    text "c.ServerApp.allow_root = True";
    [];
    text "# Logging level (for development)";
    text "# c.Application.log_level = 'DEBUG'";
    [];
    text "print(" ++ [dq] ++ text "[DarkPyonix] Sticky Kernel Manager activated!" ++ [dq] ++ text ")";
    text "print(" ++ [dq] ++ text "[DarkPyonix] Notebooks with same file path will share kernels." ++ [dq] ++ text ")"
  ]%list.

(** [f"default-{venv_path.name}"]: the value of [STICKYKM_NAMESPACE] that
    the environment script and the activate script export. *)
Definition installer_namespace (venv_name : string) : string :=
  "default-" +:+ venv_name.

(** [modify_activate_script]: the lines appended to the activate script;
    [nt] tells whether [os.name] is [nt]. *)
Definition darkpyonix_config (nt : bool) (venv_name jupyter_config_dir : Text) : Text :=
  let env_line :=
    (if nt then text "set JUPYTER_CONFIG_DIR=" ++ jupyter_config_dir
     else text "export JUPYTER_CONFIG_DIR=" ++ [dq] ++ jupyter_config_dir ++ [dq])%list in
  ([newline; newline] ++ text "# DarkPyonix Auto Configuration" ++ [newline]
   ++ env_line ++ [newline]
   ++ text "export STICKYKM_NAMESPACE=" ++ [dq] ++ text "default-" ++ venv_name
   ++ [dq; newline])%list.

(** [modify_activate_script(venv_path, jupyter_config_dir)] on the activate
    script, [None] when it does not exist. *)
Definition modify_activate_script (nt : bool) (venv_name jupyter_config_dir : Text)
    (activate_script : option Text) : option Text :=
  match activate_script with
  | None => None
  | Some content =>
      if contains (text "DarkPyonix") content then Some content
      else Some (content ++ darkpyonix_config nt venv_name jupyter_config_dir)%list
  end.

(** Text that starts with [defaul]. *)
Definition defaul (r : string) : string :=
  String "d" (String "e" (String "f" (String "a" (String "u" (String "l" r))))).

End Setup.


(** ** The constructor of the manager and the [StickyKM] logger *)

Module Logging.

(** A handler of a logger: the stream handler the constructor installs, or
    one installed by someone else. *)
Inductive Handler : Type :=
  | StreamHandler (format : string)
  | OtherHandler (name : string).

Definition DEBUG : N := 10%N.
Definition INFO : N := 20%N.

(** [logging.getLogger(name)] is one object per name for the whole process:
    its handlers and its level. *)
Record Logger : Type := mkLogger { handlers : list Handler; level : N }.

Definition sticky_format : string :=
  "[%(name)s] %(asctime)s - %(levelname)s - %(message)s".

(** [StickyMappingKernelManager.__init__], after the inherited constructor
    has built [self]: the table from paths to identities starts empty, the
    logger gets a stream handler when it has no handler, and its level is
    set. *)
Definition __init__ (sticky_logger : Logger) (self : Self) : Logger * Self :=
  let self := mkSelf (_kernels self) ∅ (parent self) (has_log self) in
  let sticky_logger :=
    match handlers sticky_logger with
    | [] => mkLogger (handlers sticky_logger ++ [StreamHandler sticky_format])%list
                     (level sticky_logger)
    | _ :: _ => sticky_logger
    end in
  let sticky_logger := mkLogger (handlers sticky_logger) INFO in
  (sticky_logger, self).

(** Managers constructed one after another in one process; each from what
    the inherited constructor built. *)
Fixpoint construct_all (sticky_logger : Logger) (built : list Self) : Logger * list Self :=
  match built with
  | [] => (sticky_logger, [])
  | self :: rest =>
      let '(sticky_logger, self) := __init__ sticky_logger self in
      let '(sticky_logger, managers) := construct_all sticky_logger rest in
      (sticky_logger, self :: managers)
  end.

End Logging.

(** * Properties *)

(** ** The library models on known values *)

(** The example of the [uuid] documentation:
    [uuid.uuid5(uuid.NAMESPACE_DNS, 'python.org')]. *)
Example uuid5_python_org :
  Uuid.str (Uuid.uuid5 0x6ba7b8109dad11d180b400c04fd430c8%N "python.org")
  = "886313e1-3b8a-5372-9b90-0c9aee199e5d".
Proof. vm_compute. reflexivity. Qed.

Example sha1_abc :
  Uuid.hex_digits 40 (Uuid.be_int (Uuid.sha1 (Uuid.bytes_of_string "abc")))
  = "a9993e364706816aba3e25717850c26c9cd0d89d".
Proof. vm_compute. reflexivity. Qed.

Example default_namespace_text :
  Uuid.str DEFAULT_NAMESPACE = "f2a57b34-7b27-43e9-87fd-1b7e9f9d5d6a" ∧
  Uuid.UUID_of_hex "f2a57b34-7b27-43e9-87fd-1b7e9f9d5d6a" = Some DEFAULT_NAMESPACE.
Proof. vm_compute. split; reflexivity. Qed.

Example UUID_of_hex_forms :
  Uuid.UUID_of_hex "{F2A57B34-7B27-43E9-87FD-1B7E9F9D5D6A}" = Some DEFAULT_NAMESPACE ∧
  Uuid.UUID_of_hex "urn:uuid:f2a57b34-7b27-43e9-87fd-1b7e9f9d5d6a" = Some DEFAULT_NAMESPACE ∧
  Uuid.UUID_of_hex "my-project-2025" = None ∧
  Uuid.UUID_of_hex "f2a57b34-7b27-43e9-87fd-1b7e9f9d5d6" = None ∧
  Uuid.UUID_of_hex "g2a57b34-7b27-43e9-87fd-1b7e9f9d5d6a" = None.
Proof. vm_compute. repeat split. Qed.

Example posix_normpath_values :
  map Posix.normpath
    ["/home/u/proj/./notebooks/a.ipynb"; "a/../../b"; "//a"; "///a"; ""; "/.."; "a//b/"]
  = ["/home/u/proj/notebooks/a.ipynb"; "../b"; "//a"; "/a"; "."; "/"; "a/b"].
Proof. vm_compute. reflexivity. Qed.

Example posix_join_values :
  Posix.join "/home/u/proj" "notebooks/a.ipynb" = "/home/u/proj/notebooks/a.ipynb" ∧
  Posix.join "/x/" "y" = "/x/y" ∧ Posix.join "" "y" = "y" ∧ Posix.join "/x" "/y" = "/y".
Proof. vm_compute. repeat split. Qed.

Example posix_realpath_values :
  Posix.realpath "/home/u" "a/../b" = Ok "/home/u/b" ∧
  Posix.realpath "/home/u" "//x/./y" = Ok "/x/y" ∧
  Posix.realpath "/home/u" (String "a" (String zero "b")) = Raise ValueError ∧
  Posix.abspath "/home/u" (String "a" (String zero "b"))
  = "/home/u/a" +:+ String zero "b".
Proof. vm_compute. repeat split. Qed.

Example ntpath_normcase_value :
  ntpath_normcase lower "C:/Work\Notebooks/A.ipynb" = "c:\work\notebooks\a.ipynb".
Proof. vm_compute. reflexivity. Qed.

Example ntpath_isabs_values :
  map Ntpath.isabs ["\x"; "/x/y"; "c:\x"; "C:x"; "C:"; "a\b"; "\\srv\share\a"; ""]
  = [true; true; true; false; false; false; true; false].
Proof. vm_compute. reflexivity. Qed.

Example ntpath_splitdrive_values :
  map Ntpath.splitdrive
    ["c:\x"; "C:x"; "\\srv\share\a\..\b"; "\\?\UNC\srv\share\x"; "\x"; "//srv/share"]
  = [("c:", "\x"); ("C:", "x"); ("\\srv\share", "\a\..\b");
     ("\\?\UNC\srv\share", "\x"); ("", "\x"); ("//srv/share", "")].
Proof. vm_compute. reflexivity. Qed.

Example ntpath_join_values :
  map (Ntpath.join lower "C:\work") ["a\b"; "C:x"; "c:\x"; "\x"; "D:nb"; "A/B"; ".."]
  = ["C:\work\a\b"; "C:\work\x"; "c:\x"; "C:\x"; "D:nb"; "C:\work\A/B"; "C:\work\.."].
Proof. vm_compute. reflexivity. Qed.

Example ntpath_normpath_values :
  map Ntpath.normpath
    ["C:/x/../y"; "/x/y"; "a\..\.."; "C:\..\a"; "C:..\a"; ".\a\.\b\"; "";
     "\\srv\share\a\..\b"]
  = ["C:\y"; "\x\y"; ".."; "C:\a"; "C:..\a"; "a\b"; "."; "\\srv\share\b"].
Proof. vm_compute. reflexivity. Qed.

Example ntpath_abspath_values :
  map (Ntpath.abspath lower "C:\work") ["Notebooks\A.ipynb"; "\x"; "D:nb"; "C:/Work/../a"]
  = ["C:\work\Notebooks\A.ipynb"; "\x"; "D:nb"; "C:\a"].
Proof. vm_compute. reflexivity. Qed.

(** ** Equations of the action monad *)

Section RunFacts.
Context {A : Type}.

Lemma prepend_nil (r : Run A) : prepend [] r = r.
Proof. destruct r; reflexivity. Qed.

Lemma outcome_prepend (ev : list Event) (r : Run A) : outcome (prepend ev r) = outcome r.
Proof. reflexivity. Qed.

Lemma final_prepend (ev : list Event) (r : Run A) : final (prepend ev r) = final r.
Proof. reflexivity. Qed.

Lemma events_prepend (ev : list Event) (r : Run A) :
  events (prepend ev r) = (ev ++ events r)%list.
Proof. reflexivity. Qed.

End RunFacts.

Section ActEquations.
Context {A B : Type}.
Implicit Types (k : A → Action B) (s : Self).

Lemma bind_unfold (m : Action A) k s :
  bind m k s =
  match outcome (m s) with
  | Ok a => prepend (events (m s)) (k a (final (m s)))
  | Raise e => mkRun (events (m s)) (Raise e) (final (m s))
  end.
Proof.
  unfold bind, prepend. destruct (m s) as [ev [a|e] s']; cbn; [|reflexivity].
  destruct (k a s'); reflexivity.
Qed.

Lemma bind_lift_ok (a : A) k s : bind (lift (Ok a)) k s = k a s.
Proof. rewrite bind_unfold. cbn. apply prepend_nil. Qed.

Lemma bind_lift_raise (e : PyExc) k s : bind (lift (Raise e)) k s = mkRun [] (Raise e) s.
Proof. reflexivity. Qed.

End ActEquations.

(** ** Equations of the manager's operations *)

Section ManagerEquations.
Context {B : Type}.

Lemma bind_debug (m : DebugMsg) (k : unit → Action B) (s : Self) :
  bind (_debug m) k s = prepend (log_events s m) (k tt s).
Proof.
  rewrite bind_unfold. unfold _debug, log_events, bind, emit, get_self, ret.
  destruct (has_log s); reflexivity.
Qed.

Lemma bind_get_self (k : Self → Action B) (s : Self) : bind get_self k s = k s s.
Proof. rewrite bind_unfold. cbn. apply prepend_nil. Qed.

Lemma bind_kernels_contains (p : string) (k : bool → Action B) (s : Self) :
  bind (kernels_contains p) k s =
  prepend [EvContains p]
    (k (match _kernels s !! p with Some _ => true | None => false end) s).
Proof. rewrite bind_unfold. reflexivity. Qed.

Lemma bind_kernels_getitem (p : string) (k : KernelManager → Action B) (s : Self) :
  bind (kernels_getitem p) k s =
  prepend [EvGetItem p]
    (match _kernels s !! p with
     | Some km => k km s
     | None => mkRun [] (Raise (mkExc "KeyError" FromException)) s
     end).
Proof.
  rewrite bind_unfold. unfold kernels_getitem, bind, emit, get_self, ret, raise.
  destruct (_kernels s !! p); reflexivity.
Qed.

Lemma bind_probe_alive (p : string) (km : KernelManager) (k : bool → Action B) (s : Self) :
  bind (try_except (call_is_alive p km) (ret true)) k s =
  prepend [EvIsAlive p]
    (match is_alive km with
     | Ok b => k b s
     | Raise e => if isinstance_Exception e then k true s else mkRun [] (Raise e) s
     end).
Proof.
  rewrite bind_unfold. unfold try_except, call_is_alive, bind, emit, lift, ret.
  destruct (is_alive km) as [b|e]; cbn; [reflexivity|].
  destruct (isinstance_Exception e); reflexivity.
Qed.

Lemma bind_super_start (sup : Super) (kid : PyVal) (kw : gmap string PyVal)
    (k : PyVal → Action B) (s : Self) :
  bind (call_super_start_kernel sup kid kw) k s =
  prepend [EvSuperStart kid kw]
    (match (super_start_kernel sup s kid kw).1 with
     | Ok v => k v (super_start_kernel sup s kid kw).2
     | Raise e => mkRun [] (Raise e) (super_start_kernel sup s kid kw).2
     end).
Proof.
  rewrite bind_unfold. unfold call_super_start_kernel.
  destruct (super_start_kernel sup s kid kw) as [[v|e] s']; reflexivity.
Qed.

Lemma bind_super_start_async (sup : Super) (kid : PyVal) (kw : gmap string PyVal)
    (k : PyVal → Action B) (s : Self) :
  bind (call_super_start_kernel_async sup kid kw) k s =
  prepend [EvSuperStartAsync kid kw]
    (match (super_start_kernel_async sup s kid kw).1 with
     | Ok v => k v (super_start_kernel_async sup s kid kw).2
     | Raise e => mkRun [] (Raise e) (super_start_kernel_async sup s kid kw).2
     end).
Proof.
  rewrite bind_unfold. unfold call_super_start_kernel_async.
  destruct (super_start_kernel_async sup s kid kw) as [[v|e] s']; reflexivity.
Qed.

End ManagerEquations.

(** ** Reading a trace *)

Lemma super_starts_app (a b : list Event) :
  super_starts (a ++ b)%list = (super_starts a ++ super_starts b)%list.
Proof. apply omap_app. Qed.

Lemma super_starts_log (s : Self) (m : DebugMsg) : super_starts (log_events s m) = [].
Proof. unfold log_events. destruct (has_log s); reflexivity. Qed.

Lemma protocol_app (a b : list Event) :
  protocol (a ++ b)%list = (protocol a ++ protocol b)%list.
Proof. apply omap_app. Qed.

Lemma protocol_log (s : Self) (m : DebugMsg) : protocol (log_events s m) = [].
Proof. unfold log_events. destruct (has_log s); reflexivity. Qed.

Lemma probes_app (a b : list Event) : probes (a ++ b)%list = (probes a ++ probes b)%list.
Proof. apply filter_app. Qed.

Lemma probes_log (s : Self) (m : DebugMsg) : probes (log_events s m) = [].
Proof. unfold log_events. destruct (has_log s); reflexivity. Qed.

(** ** Popping [kernel_id] leaves the path and the kernel name alone *)

Lemma pick_path_pop (kw : gmap string PyVal) :
  _pick_path_from_kwargs (delete "kernel_id" kw) = _pick_path_from_kwargs kw.
Proof.
  unfold _pick_path_from_kwargs, dict_get.
  rewrite !lookup_delete_ne by discriminate. reflexivity.
Qed.

Lemma kernel_name_pop (kw : gmap string PyVal) :
  dict_get_default (delete "kernel_id" kw) "kernel_name" (PStr "python3") = kernel_name_of kw.
Proof.
  unfold kernel_name_of, dict_get_default. rewrite lookup_delete_ne by discriminate.
  reflexivity.
Qed.

(** Identity resolution never raises: the namespace falls back to the
    default instead. *)
Lemma propose_id_ok (os : OS) (abs : string) (kn : PyVal) :
  ∃ ns, _namespace os = Ok ns ∧ _propose_id os abs kn = Ok (_stable_kernel_id abs kn ns).
Proof.
  unfold _propose_id, _namespace.
  destruct (os_environ os !! "STICKYKM_NAMESPACE") as [v|]; cbn; [|eauto].
  destruct (nonempty v); cbn; [|eauto].
  destruct (uuid_UUID os v); cbn; eauto.
Qed.

(** ** After the inherited start operation returns *)

Section AfterStart.
Variables (m : DebugMsg) (r : Res PyVal) (s : Self).

Let tail : Run PyVal :=
  match r with
  | Ok v => bind (_debug m) (fun _ => ret v) s
  | Raise e => mkRun [] (Raise e) s
  end.

Lemma after_start_outcome : outcome tail = r.
Proof. subst tail. destruct r; [rewrite bind_debug|]; reflexivity. Qed.

Lemma after_start_final : final tail = s.
Proof. subst tail. destruct r; [rewrite bind_debug|]; reflexivity. Qed.

Lemma after_start_protocol : protocol (events tail) = [].
Proof.
  subst tail. destruct r; [rewrite bind_debug|]; [|reflexivity].
  rewrite events_prepend, protocol_app, protocol_log. reflexivity.
Qed.

Lemma after_start_super_starts : super_starts (events tail) = [].
Proof.
  subst tail. destruct r; [rewrite bind_debug|]; [|reflexivity].
  rewrite events_prepend, super_starts_app, super_starts_log. reflexivity.
Qed.

Lemma after_start_probes : probes (events tail) = [].
Proof.
  subst tail. destruct r; [rewrite bind_debug|]; [|reflexivity].
  rewrite events_prepend, probes_app, probes_log. reflexivity.
Qed.

End AfterStart.

(** ** Symbolic execution of a start request *)

Ltac run_step :=
  first
    [ rewrite bind_debug
    | rewrite bind_lift_ok
    | rewrite bind_lift_raise
    | rewrite bind_get_self
    | rewrite bind_kernels_contains
    | rewrite bind_kernels_getitem
    | rewrite bind_probe_alive
    | rewrite bind_super_start
    | rewrite bind_super_start_async ];
  cbv beta.

Ltac use_equation :=
  match goal with
  | H : _pick_path_from_kwargs _ = _ |- _ => rewrite H
  | H : _abs_norm _ _ _ = _ |- _ => rewrite H
  | H : _propose_id _ _ _ = _ |- _ => rewrite H
  | H : explicit_kernel_id _ = _ |- _ => rewrite H
  | H : nonempty _ = _ |- _ => rewrite H
  | H : _kernels _ !! _ = _ |- _ => rewrite H
  | H : is_alive _ = _ |- _ => rewrite H
  | H : isinstance_Exception _ = _ |- _ => rewrite H
  | H : is_None _ = _ |- _ => rewrite H
  end.

Ltac run :=
  repeat first [ run_step | use_equation | progress cbn [is_None andb] ].

Ltac observe :=
  repeat first
    [ rewrite events_prepend | rewrite outcome_prepend | rewrite final_prepend
    | rewrite super_starts_app | rewrite super_starts_log
    | rewrite protocol_app | rewrite protocol_log
    | rewrite probes_app | rewrite probes_log
    | rewrite after_start_outcome | rewrite after_start_final
    | rewrite after_start_protocol | rewrite after_start_super_starts
    | rewrite after_start_probes ];
  cbn [events outcome final app super_starts protocol probes omap filter
       list_omap list_filter started step_of is_probe ret].

Ltac enter f :=
  unfold f; cbv zeta;
  match goal with
  | |- context [dict_get_default ?kw "kernel_id" PNone] =>
      change (dict_get_default kw "kernel_id" PNone) with (explicit_kernel_id kw)
  end;
  rewrite ?pick_path_pop, ?kernel_name_pop.

(** ** The canonical path of a request *)

Lemma canonical_path_inv (os : OS) (self : Self) (kw : gmap string PyVal) (abs : string) :
  canonical_path os self kw = Ok abs →
  ∃ raw, _pick_path_from_kwargs kw = Ok raw ∧ _abs_norm os (self_root_dir self) raw = Ok abs.
Proof.
  unfold canonical_path. destruct (_pick_path_from_kwargs kw) as [raw|]; [|discriminate].
  cbn. eauto.
Qed.

Lemma py_or_optional_str (a b : PyVal) :
  optional_str a → (∃ s, b = PStr s) → ∃ s, py_or a b = PStr s.
Proof.
  intros Ha [s ->]. unfold py_or.
  destruct a as [|t| |]; try contradiction; cbn; [eauto|].
  destruct (negb (String.eqb t "")); eauto.
Qed.

Lemma session_entries_str (env : gmap string PyVal) :
  optional_str (dict_get env "JPY_SESSION_NAME") →
  optional_str (dict_get env "NOTEBOOK_PATH") →
  ∃ s, py_or (py_or (dict_get env "JPY_SESSION_NAME") (dict_get env "NOTEBOOK_PATH"))
             (PStr "") = PStr s.
Proof.
  intros Hj Hn. apply py_or_optional_str; [|eauto].
  unfold py_or. destruct (truthy (dict_get env "JPY_SESSION_NAME")); assumption.
Qed.

(** Path extraction returns text for a well-typed request. *)
Lemma well_typed_pick (kw : gmap string PyVal) :
  well_typed kw → ∃ s, _pick_path_from_kwargs kw = Ok (PStr s).
Proof.
  unfold well_typed, _pick_path_from_kwargs.
  intros [Hpath Henv].
  destruct (py_or_optional_str (dict_get kw "path") (PStr "") Hpath) as [p Hp]; [eauto|].
  rewrite Hp. destruct (truthy (PStr p)); [eauto|].
  unfold py_or at 1, empty_dict.
  destruct (dict_get kw "env") as [| |env r|]; try contradiction; cbn [truthy].
  - destruct (session_entries_str ∅) as [s Hs]; [exact I..|]. rewrite Hs. eauto.
  - destruct Henv as [Hj Hn].
    destruct (negb (bool_decide (env = ∅))).
    + destruct (session_entries_str env Hj Hn) as [s Hs]. rewrite Hs. eauto.
    + destruct (session_entries_str ∅) as [s Hs]; [exact I..|]. rewrite Hs. eauto.
Qed.

Lemma canonical_path_raise_inv (os : OS) (self : Self) (kw : gmap string PyVal) (e : PyExc) :
  canonical_path os self kw = Raise e →
  _pick_path_from_kwargs kw = Raise e
  ∨ ∃ raw, _pick_path_from_kwargs kw = Ok raw ∧ _abs_norm os (self_root_dir self) raw = Raise e.
Proof.
  unfold canonical_path. destruct (_pick_path_from_kwargs kw) as [raw|e']; cbn.
  - eauto.
  - intros [= ->]. auto.
Qed.

(** ** The start coordinator *)

Section Coordinator.
Variable sup : Super.
Variable os : OS.

(** C1.  A request without explicit [kernel_id] whose canonical path is not
    empty, whose proposed identity is in the registry and whose handle
    reports alive: both [start_kernel] and [start_kernel_async] return the
    proposed identity, after the registry test and the liveness check only;
    the inherited start operation is not called and the manager is left as
    it was. *)
Theorem C1_reuse_of_live_kernel
    (self : Self) (kw : gmap string PyVal) (abs proposed : string) (km : KernelManager) :
  explicit_kernel_id kw = PNone →
  canonical_path os self kw = Ok abs →
  nonempty abs = true →
  _propose_id os abs (kernel_name_of kw) = Ok proposed →
  _kernels self !! proposed = Some km →
  is_alive km = Ok true →
  (outcome (start_kernel sup os kw self) = Ok (PStr proposed) ∧
   super_starts (events (start_kernel sup os kw self)) = [] ∧
   protocol (events (start_kernel sup os kw self))
     = [Contains proposed; GetItem proposed; IsAlive proposed] ∧
   final (start_kernel sup os kw self) = self) ∧
  (outcome (start_kernel_async sup os kw self) = Ok (PStr proposed) ∧
   super_starts (events (start_kernel_async sup os kw self)) = [] ∧
   protocol (events (start_kernel_async sup os kw self))
     = [Contains proposed; GetItem proposed; IsAlive proposed] ∧
   final (start_kernel_async sup os kw self) = self).
Proof.
  intros Hid (raw & Hpick & Habs)%canonical_path_inv Hne Hprop Hreg Halive.
  split.
  - enter start_kernel. run. observe. auto.
  - enter start_kernel_async. run. observe. auto.
Qed.

(** C2, amended.  In the reuse branch, a liveness check that raises an
    instance of [Exception] is taken for alive: both entry points return the
    proposed identity, raise nothing and do not call the inherited start
    operation. *)
Theorem C2_liveness_Exception_means_alive
    (self : Self) (kw : gmap string PyVal) (abs proposed : string) (km : KernelManager)
    (e : PyExc) :
  explicit_kernel_id kw = PNone →
  canonical_path os self kw = Ok abs →
  nonempty abs = true →
  _propose_id os abs (kernel_name_of kw) = Ok proposed →
  _kernels self !! proposed = Some km →
  is_alive km = Raise e →
  isinstance_Exception e = true →
  (outcome (start_kernel sup os kw self) = Ok (PStr proposed) ∧
   super_starts (events (start_kernel sup os kw self)) = [] ∧
   final (start_kernel sup os kw self) = self) ∧
  (outcome (start_kernel_async sup os kw self) = Ok (PStr proposed) ∧
   super_starts (events (start_kernel_async sup os kw self)) = [] ∧
   final (start_kernel_async sup os kw self) = self).
Proof.
  intros Hid (raw & Hpick & Habs)%canonical_path_inv Hne Hprop Hreg Halive Hexc.
  split.
  - enter start_kernel. run. observe. auto.
  - enter start_kernel_async. run. observe. auto.
Qed.

(** A liveness check that raises outside [Exception] is not caught. *)
Lemma liveness_BaseException_propagates
    (self : Self) (kw : gmap string PyVal) (abs proposed : string) (km : KernelManager)
    (e : PyExc) :
  explicit_kernel_id kw = PNone →
  canonical_path os self kw = Ok abs →
  nonempty abs = true →
  _propose_id os abs (kernel_name_of kw) = Ok proposed →
  _kernels self !! proposed = Some km →
  is_alive km = Raise e →
  isinstance_Exception e = false →
  outcome (start_kernel sup os kw self) = Raise e ∧
  outcome (start_kernel_async sup os kw self) = Raise e.
Proof.
  intros Hid (raw & Hpick & Habs)%canonical_path_inv Hne Hprop Hreg Halive Hexc.
  split.
  - enter start_kernel. run. observe. auto.
  - enter start_kernel_async. run. observe. auto.
Qed.

(** C3, amended.  A request that carries an explicit [kernel_id].  When
    its path can be normalized, whatever the path, no registry test and no
    liveness check take place, and the only interaction is one call of the
    inherited start operation with exactly that [kernel_id] (and the
    request's other arguments, the path replaced by its canonical form when
    there is one); the call's result is the result of the request.  When
    path extraction or normalization raises, which happens before the
    [kernel_id] is looked at, the request raises that exception and nothing
    is probed or delegated. *)
Theorem C3_explicit_kernel_id_bypasses_reuse (self : Self) (kw : gmap string PyVal) :
  explicit_kernel_id kw ≠ PNone →
  match canonical_path os self kw with
  | Ok abs =>
      (probes (events (start_kernel sup os kw self)) = [] ∧
       protocol (events (start_kernel sup os kw self))
         = [Start (explicit_kernel_id kw) (outgoing_kwargs kw abs)] ∧
       outcome (start_kernel sup os kw self)
         = (super_start_kernel sup self (explicit_kernel_id kw) (outgoing_kwargs kw abs)).1) ∧
      (probes (events (start_kernel_async sup os kw self)) = [] ∧
       protocol (events (start_kernel_async sup os kw self))
         = [Start (explicit_kernel_id kw) (outgoing_kwargs kw abs)] ∧
       outcome (start_kernel_async sup os kw self)
         = (super_start_kernel_async sup self (explicit_kernel_id kw)
              (outgoing_kwargs kw abs)).1)
  | Raise e =>
      (protocol (events (start_kernel sup os kw self)) = [] ∧
       outcome (start_kernel sup os kw self) = Raise e) ∧
      (protocol (events (start_kernel_async sup os kw self)) = [] ∧
       outcome (start_kernel_async sup os kw self) = Raise e)
  end.
Proof.
  intros Hid.
  assert (Hnone : is_None (explicit_kernel_id kw) = false)
    by (destruct (explicit_kernel_id kw); [contradiction|reflexivity..]).
  destruct (canonical_path os self kw) as [abs|e] eqn:Hcan.
  - apply canonical_path_inv in Hcan as (raw & Hpick & Habs).
    unfold outgoing_kwargs.
    split.
    + enter start_kernel. run. observe.
      destruct (super_start_kernel sup self _ _) as [[v|e] s']; cbn [fst snd]; run; observe; auto.
    + enter start_kernel_async. run. observe.
      destruct (super_start_kernel_async sup self _ _) as [[v|e] s']; cbn [fst snd]; run; observe; auto.
  - apply canonical_path_raise_inv in Hcan as [Hpick|(raw & Hpick & Habs)].
    + split.
      * enter start_kernel. run. observe. auto.
      * enter start_kernel_async. run. observe. auto.
    + split.
      * enter start_kernel. run. observe. auto.
      * enter start_kernel_async. run. observe. auto.
Qed.

(** C4.  A request without explicit [kernel_id] whose canonical path is not
    empty, whose proposed identity is either absent from the registry or
    registered with a handle that reports not alive: the inherited start
    operation is called once, with the proposed identity as [kernel_id] and
    the canonical path as [path], and its result is the result of the
    request. *)
Theorem C4_start_under_proposed_identity
    (self : Self) (kw : gmap string PyVal) (abs proposed : string) :
  explicit_kernel_id kw = PNone →
  canonical_path os self kw = Ok abs →
  nonempty abs = true →
  _propose_id os abs (kernel_name_of kw) = Ok proposed →
  (_kernels self !! proposed = None ∨
   ∃ km, _kernels self !! proposed = Some km ∧ is_alive km = Ok false) →
  (super_starts (events (start_kernel sup os kw self))
     = [(PStr proposed, <["path" := PStr abs]> (delete "kernel_id" kw))] ∧
   outcome (start_kernel sup os kw self)
     = (super_start_kernel sup self (PStr proposed)
          (<["path" := PStr abs]> (delete "kernel_id" kw))).1) ∧
  (super_starts (events (start_kernel_async sup os kw self))
     = [(PStr proposed, <["path" := PStr abs]> (delete "kernel_id" kw))] ∧
   outcome (start_kernel_async sup os kw self)
     = (super_start_kernel_async sup self (PStr proposed)
          (<["path" := PStr abs]> (delete "kernel_id" kw))).1).
Proof.
  intros Hid (raw & Hpick & Habs)%canonical_path_inv Hne Hprop [Hreg|(km & Hreg & Hdead)].
  - split.
    + enter start_kernel. run. observe.
      destruct (super_start_kernel sup self _ _) as [[v|e] s']; cbn [fst snd]; run; observe; auto.
    + enter start_kernel_async. run. observe.
      destruct (super_start_kernel_async sup self _ _) as [[v|e] s']; cbn [fst snd]; run; observe; auto.
  - split.
    + enter start_kernel. run. observe.
      destruct (super_start_kernel sup self _ _) as [[v|e] s']; cbn [fst snd]; run; observe; auto.
    + enter start_kernel_async. run. observe.
      destruct (super_start_kernel_async sup self _ _) as [[v|e] s']; cbn [fst snd]; run; observe; auto.
Qed.

End Coordinator.

(** ** Blocking and suspending entry points *)

(** C6.  The two entry points follow one protocol: for every backend,
    platform, manager state and request, [start_kernel] and
    [start_kernel_async] make the same registry test, registry read and
    liveness check and hand the same [kernel_id] and the same keyword
    arguments (the canonical path among them) to the inherited start
    operation; a request that is answered by reuse, or that raises before
    delegating, has the same result in both; and where the two inherited
    operations agree, so do the results and the final states. *)
Theorem C6_sync_async_same_protocol
    (sup : Super) (os : OS) (kw : gmap string PyVal) (self : Self) :
  protocol (events (start_kernel sup os kw self))
    = protocol (events (start_kernel_async sup os kw self)) ∧
  (super_starts (events (start_kernel sup os kw self)) = [] →
   outcome (start_kernel sup os kw self) = outcome (start_kernel_async sup os kw self) ∧
   final (start_kernel sup os kw self) = final (start_kernel_async sup os kw self)) ∧
  ((∀ s kid args, super_start_kernel sup s kid args = super_start_kernel_async sup s kid args) →
   outcome (start_kernel sup os kw self) = outcome (start_kernel_async sup os kw self) ∧
   final (start_kernel sup os kw self) = final (start_kernel_async sup os kw self)).
Proof.
  enter start_kernel. enter start_kernel_async.
  destruct (_pick_path_from_kwargs kw) as [raw|e1] eqn:Hpick; run;
    [|observe; auto].
  destruct (_abs_norm os (self_root_dir self) raw) as [abs|e2] eqn:Habs; run;
    [|observe; auto].
  destruct (is_None (explicit_kernel_id kw)) eqn:Hnone;
    destruct (nonempty abs) eqn:Hne; cbn [andb].
  1: destruct (propose_id_ok os abs (kernel_name_of kw)) as (ns & _ & Hprop);
     rewrite Hprop; run;
     destruct (_kernels self !! _stable_kernel_id abs (kernel_name_of kw) ns)
       as [km|] eqn:Hreg; run;
     [destruct (is_alive km) as [[]|e3] eqn:Halive; run;
      [| |destruct (isinstance_Exception e3) eqn:Hexc; run]|].
  all: run; observe.
  all: split; [reflexivity|].
  all: split; [intros H; try discriminate H; auto|].
  all: intros H; rewrite ?H; auto.
Qed.

(** ** Path extraction *)

Lemma truthy_str (s : string) : truthy (PStr s) = nonempty s.
Proof. reflexivity. Qed.

Lemma py_or_truthy (a b : PyVal) : truthy a = true → py_or a b = a.
Proof. unfold py_or. intros ->. reflexivity. Qed.

Lemma py_or_falsy (a b : PyVal) : truthy a = false → py_or a b = b.
Proof. unfold py_or. intros ->. reflexivity. Qed.

Lemma dict_get_some (d : gmap string PyVal) (k : string) (v : PyVal) :
  d !! k = Some v → dict_get d k = v.
Proof. unfold dict_get. intros ->. reflexivity. Qed.

Lemma dict_get_empty (k : string) : dict_get ∅ k = PNone.
Proof. unfold dict_get. rewrite lookup_empty. reflexivity. Qed.

Lemma truthy_dict_nonempty (env : gmap string PyVal) (r k : string) (v : PyVal) :
  env !! k = Some v → truthy (PDict env r) = true.
Proof.
  intros H. cbn. rewrite bool_decide_false; [reflexivity|].
  intros ->. rewrite lookup_empty in H. discriminate.
Qed.

(** C7.  Path extraction goes by precedence: a non-empty [path] argument;
    else a non-empty [JPY_SESSION_NAME] entry of [env]; else a non-empty
    [NOTEBOOK_PATH] entry of [env]; else the empty string.  And a request
    whose extracted path is empty is not looked up in the registry: it is
    handed to the inherited start operation with the [kernel_id] it came
    with ([None] when it came with none) and its other arguments as they
    are. *)
Theorem C7_path_precedence_and_empty_path :
  (∀ (kw : gmap string PyVal) (p : string),
     kw !! "path" = Some (PStr p) → nonempty p = true →
     _pick_path_from_kwargs kw = Ok (PStr p)) ∧
  (∀ (kw env : gmap string PyVal) (r s : string),
     truthy (dict_get kw "path") = false →
     kw !! "env" = Some (PDict env r) →
     env !! "JPY_SESSION_NAME" = Some (PStr s) → nonempty s = true →
     _pick_path_from_kwargs kw = Ok (PStr s)) ∧
  (∀ (kw env : gmap string PyVal) (r n : string),
     truthy (dict_get kw "path") = false →
     kw !! "env" = Some (PDict env r) →
     truthy (dict_get env "JPY_SESSION_NAME") = false →
     env !! "NOTEBOOK_PATH" = Some (PStr n) → nonempty n = true →
     _pick_path_from_kwargs kw = Ok (PStr n)) ∧
  (∀ (kw : gmap string PyVal),
     truthy (dict_get kw "path") = false →
     (truthy (dict_get kw "env") = false ∨
      ∃ env r, kw !! "env" = Some (PDict env r) ∧
               truthy (dict_get env "JPY_SESSION_NAME") = false ∧
               truthy (dict_get env "NOTEBOOK_PATH") = false) →
     _pick_path_from_kwargs kw = Ok (PStr "")) ∧
  (∀ (sup : Super) (os : OS) (self : Self) (kw : gmap string PyVal),
     _pick_path_from_kwargs kw = Ok (PStr "") →
     (probes (events (start_kernel sup os kw self)) = [] ∧
      protocol (events (start_kernel sup os kw self))
        = [Start (explicit_kernel_id kw) (delete "kernel_id" kw)] ∧
      outcome (start_kernel sup os kw self)
        = (super_start_kernel sup self (explicit_kernel_id kw) (delete "kernel_id" kw)).1) ∧
     (probes (events (start_kernel_async sup os kw self)) = [] ∧
      protocol (events (start_kernel_async sup os kw self))
        = [Start (explicit_kernel_id kw) (delete "kernel_id" kw)] ∧
      outcome (start_kernel_async sup os kw self)
        = (super_start_kernel_async sup self (explicit_kernel_id kw)
             (delete "kernel_id" kw)).1)).
Proof.
  repeat apply conj.
  - intros kw p Hp Hne. unfold _pick_path_from_kwargs.
    rewrite (dict_get_some _ _ _ Hp).
    rewrite (py_or_truthy (PStr p)) by (rewrite truthy_str; assumption).
    rewrite truthy_str, Hne. reflexivity.
  - intros kw env r s Hpath Henv Hs Hne.
    unfold _pick_path_from_kwargs.
    rewrite (py_or_falsy (dict_get kw "path")) by assumption.
    rewrite truthy_str. cbn [nonempty String.eqb negb].
    rewrite (dict_get_some _ _ _ Henv).
    rewrite (py_or_truthy (PDict env r)) by (eapply truthy_dict_nonempty; eassumption).
    rewrite (dict_get_some _ _ _ Hs).
    rewrite (py_or_truthy (PStr s)) by (rewrite truthy_str; assumption).
    rewrite (py_or_truthy (PStr s)) by (rewrite truthy_str; assumption).
    reflexivity.
  - intros kw env r n Hpath Henv Hj Hn Hne.
    unfold _pick_path_from_kwargs.
    rewrite (py_or_falsy (dict_get kw "path")) by assumption.
    rewrite truthy_str. cbn [nonempty String.eqb negb].
    rewrite (dict_get_some _ _ _ Henv).
    rewrite (py_or_truthy (PDict env r)) by (eapply truthy_dict_nonempty; eassumption).
    rewrite (py_or_falsy (dict_get env "JPY_SESSION_NAME")) by assumption.
    rewrite (dict_get_some _ _ _ Hn).
    rewrite (py_or_truthy (PStr n)) by (rewrite truthy_str; assumption).
    reflexivity.
  - intros kw Hpath Henv.
    unfold _pick_path_from_kwargs.
    rewrite (py_or_falsy (dict_get kw "path")) by assumption.
    rewrite truthy_str. cbn [nonempty String.eqb negb].
    destruct Henv as [Henv|(env & r & Henv & Hj & Hn)].
    + rewrite (py_or_falsy (dict_get kw "env")) by assumption.
      unfold empty_dict. rewrite !dict_get_empty. reflexivity.
    + rewrite (dict_get_some _ _ _ Henv).
      unfold py_or at 1. destruct (truthy (PDict env r)).
      * rewrite (py_or_falsy (dict_get env "JPY_SESSION_NAME")) by assumption.
        rewrite (py_or_falsy (dict_get env "NOTEBOOK_PATH")) by assumption.
        reflexivity.
      * unfold empty_dict. rewrite !dict_get_empty. reflexivity.
  - intros sup os self kw Hpick.
    assert (Habs : _abs_norm os (self_root_dir self) (PStr "") = Ok "") by reflexivity.
    assert (Hne : nonempty "" = false) by reflexivity.
    split.
    + enter start_kernel. run. rewrite andb_false_r. run. observe. auto.
    + enter start_kernel_async. run. rewrite andb_false_r. run. observe. auto.
Qed.

(** ** The identity resolver *)

(** The identity a request is looked up under: the first thing a request
    without explicit [kernel_id] and with a canonical path does to its
    surroundings is to test the registry for its proposed identity. *)
Lemma first_probe_is_proposed
    (sup : Super) (os : OS) (self : Self) (kw : gmap string PyVal) (abs id : string) :
  explicit_kernel_id kw = PNone →
  canonical_path os self kw = Ok abs →
  nonempty abs = true →
  _propose_id os abs (kernel_name_of kw) = Ok id →
  head (protocol (events (start_kernel sup os kw self))) = Some (Contains id) ∧
  head (protocol (events (start_kernel_async sup os kw self))) = Some (Contains id).
Proof.
  intros Hid (raw & Hpick & Habs)%canonical_path_inv Hne Hprop.
  split.
  - enter start_kernel. run. observe. reflexivity.
  - enter start_kernel_async. run. observe. reflexivity.
Qed.

Lemma stable_kernel_id_text (abs : string) (k1 k2 : PyVal) (ns : UUID) :
  py_str k1 = py_str k2 → _stable_kernel_id abs k1 ns = _stable_kernel_id abs k2 ns.
Proof. unfold _stable_kernel_id. intros ->. reflexivity. Qed.

(** C5.  The proposed identity is a function of the canonical path, the
    kernel-type tag and the namespace alone: two requests that agree on
    these three are looked up under the same identity, whatever else differs
    between them (their other arguments, the raw spelling of the path, the
    manager that serves them, the backend, the rest of the platform), and
    that identity is [_stable_kernel_id] of the three. *)
Theorem C5_identity_is_function_of_path_type_namespace
    (sup1 sup2 : Super) (os1 os2 : OS) (self1 self2 : Self)
    (kw1 kw2 : gmap string PyVal) (abs : string) (ns : UUID) :
  explicit_kernel_id kw1 = PNone →
  explicit_kernel_id kw2 = PNone →
  canonical_path os1 self1 kw1 = Ok abs →
  canonical_path os2 self2 kw2 = Ok abs →
  nonempty abs = true →
  py_str (kernel_name_of kw1) = py_str (kernel_name_of kw2) →
  _namespace os1 = Ok ns →
  _namespace os2 = Ok ns →
  _propose_id os1 abs (kernel_name_of kw1) = Ok (_stable_kernel_id abs (kernel_name_of kw1) ns) ∧
  _propose_id os2 abs (kernel_name_of kw2) = Ok (_stable_kernel_id abs (kernel_name_of kw1) ns) ∧
  head (protocol (events (start_kernel sup1 os1 kw1 self1)))
    = Some (Contains (_stable_kernel_id abs (kernel_name_of kw1) ns)) ∧
  head (protocol (events (start_kernel sup2 os2 kw2 self2)))
    = Some (Contains (_stable_kernel_id abs (kernel_name_of kw1) ns)) ∧
  head (protocol (events (start_kernel_async sup1 os1 kw1 self1)))
    = Some (Contains (_stable_kernel_id abs (kernel_name_of kw1) ns)) ∧
  head (protocol (events (start_kernel_async sup2 os2 kw2 self2)))
    = Some (Contains (_stable_kernel_id abs (kernel_name_of kw1) ns)).
Proof.
  intros Hid1 Hid2 Hcan1 Hcan2 Hne Hk Hns1 Hns2.
  assert (Hp1 : _propose_id os1 abs (kernel_name_of kw1)
                = Ok (_stable_kernel_id abs (kernel_name_of kw1) ns))
    by (unfold _propose_id; rewrite Hns1; reflexivity).
  assert (Hp2 : _propose_id os2 abs (kernel_name_of kw2)
                = Ok (_stable_kernel_id abs (kernel_name_of kw1) ns)).
  { unfold _propose_id. rewrite Hns2. cbn.
    rewrite (stable_kernel_id_text abs _ _ ns Hk). reflexivity. }
  destruct (first_probe_is_proposed sup1 os1 self1 kw1 abs _ Hid1 Hcan1 Hne Hp1) as [? ?].
  destruct (first_probe_is_proposed sup2 os2 self2 kw2 abs _ Hid2 Hcan2 Hne Hp2) as [? ?].
  repeat split; assumption.
Qed.

Lemma string_append_assoc (a b c : string) : (a +:+ b) +:+ c = a +:+ (b +:+ c).
Proof.
  induction a as [|x a IH]; [reflexivity|].
  change (String x ((a +:+ b) +:+ c) = String x (a +:+ (b +:+ c))).
  rewrite IH. reflexivity.
Qed.

(** C10.  The text that is hashed, path, then a bar, then kernel type, does
    not tell where the path ends: a bar can be moved from the path to the
    kernel type.  So the pairs [("a|b", "c")] and [("a", "b|c")], which
    differ, get the same identity in every namespace. *)
Theorem C10_hash_input_not_injective :
  (∀ (a b c : string) (ns : UUID),
     _stable_kernel_id (a +:+ "|" +:+ b) (PStr c) ns
     = _stable_kernel_id a (PStr (b +:+ "|" +:+ c)) ns) ∧
  (∀ ns : UUID,
     _stable_kernel_id "a|b" (PStr "c") ns = _stable_kernel_id "a" (PStr "b|c") ns) ∧
  ("a|b", PStr "c") ≠ ("a", PStr "b|c").
Proof.
  assert (H : ∀ (a b c : string) (ns : UUID),
     _stable_kernel_id (a +:+ "|" +:+ b) (PStr c) ns
     = _stable_kernel_id a (PStr (b +:+ "|" +:+ c)) ns).
  { intros a b c ns. unfold _stable_kernel_id. cbn [py_str].
    rewrite !string_append_assoc. reflexivity. }
  split; [exact H|]. split; [|discriminate].
  intros ns. exact (H "a" "b" "c" ns).
Qed.

(** ** The namespace *)

(** C8.  The namespace of a resolution is read from the environment the
    resolution runs in: when the variable is absent, empty or not a UUID,
    [_namespace] returns the default namespace and raises nothing, and the
    identity is resolved under the default; when it holds a UUID, the
    identity is resolved under that UUID; and this goes for the value the
    environment holds at the time of the call, whatever it held before. *)
Theorem C8_namespace_read_at_each_resolution (os : OS) :
  (os_environ os !! "STICKYKM_NAMESPACE" = None →
   _namespace os = Ok DEFAULT_NAMESPACE ∧
   ∀ p k, _propose_id os p k = Ok (_stable_kernel_id p k DEFAULT_NAMESPACE)) ∧
  (∀ v, os_environ os !! "STICKYKM_NAMESPACE" = Some v →
        uuid_UUID os v = None ∨ v = "" →
        _namespace os = Ok DEFAULT_NAMESPACE ∧
        ∀ p k, _propose_id os p k = Ok (_stable_kernel_id p k DEFAULT_NAMESPACE)) ∧
  (∀ v u, os_environ os !! "STICKYKM_NAMESPACE" = Some v →
          nonempty v = true → uuid_UUID os v = Some u →
          _namespace os = Ok u ∧
          ∀ p k, _propose_id os p k = Ok (_stable_kernel_id p k u)) ∧
  (∀ v u, nonempty v = true → uuid_UUID os v = Some u →
          _namespace (setenv os "STICKYKM_NAMESPACE" v) = Ok u ∧
          ∀ p k, _propose_id (setenv os "STICKYKM_NAMESPACE" v) p k = Ok (_stable_kernel_id p k u)) ∧
  (∀ v, uuid_UUID os v = None →
        _namespace (setenv os "STICKYKM_NAMESPACE" v) = Ok DEFAULT_NAMESPACE) ∧
  _namespace (unsetenv os "STICKYKM_NAMESPACE") = Ok DEFAULT_NAMESPACE.
Proof.
  assert (Hdefault : ∀ o, _namespace o = Ok DEFAULT_NAMESPACE →
            ∀ p k, _propose_id o p k = Ok (_stable_kernel_id p k DEFAULT_NAMESPACE))
    by (intros o H p k; unfold _propose_id; rewrite H; reflexivity).
  assert (Habsent : ∀ o, os_environ o !! "STICKYKM_NAMESPACE" = None →
            _namespace o = Ok DEFAULT_NAMESPACE)
    by (intros o H; unfold _namespace; rewrite H; reflexivity).
  assert (Hbad : ∀ o v, os_environ o !! "STICKYKM_NAMESPACE" = Some v →
            uuid_UUID o v = None ∨ v = "" → _namespace o = Ok DEFAULT_NAMESPACE).
  { intros o v H [Hv| ->]; unfold _namespace; rewrite H; [|reflexivity].
    destruct (nonempty v); [|reflexivity]. rewrite Hv. reflexivity. }
  assert (Hgood : ∀ o v u, os_environ o !! "STICKYKM_NAMESPACE" = Some v →
            nonempty v = true → uuid_UUID o v = Some u → _namespace o = Ok u)
    by (intros o v u H Hne Hu; unfold _namespace; rewrite H, Hne, Hu; reflexivity).
  repeat apply conj.
  - intros H. split; [|apply Hdefault]; apply Habsent; assumption.
  - intros v H Hv. split; [|apply Hdefault]; eapply Hbad; eassumption.
  - intros v u H Hne Hu. assert (Hns := Hgood os v u H Hne Hu).
    split; [assumption|]. intros p k. unfold _propose_id. rewrite Hns. reflexivity.
  - intros v u Hne Hu.
    assert (Hns : _namespace (setenv os "STICKYKM_NAMESPACE" v) = Ok u)
      by (apply (Hgood _ v u); [apply lookup_insert_eq|assumption|assumption]).
    split; [assumption|]. intros p k. unfold _propose_id. rewrite Hns. reflexivity.
  - intros v Hv. apply (Hbad _ v); [apply lookup_insert_eq|left; assumption].
  - apply Habsent. apply lookup_delete_eq.
Qed.

(** ** Case folding *)

Section CaseFolding.












End CaseFolding.

(** ** [posixpath] does not look at case *)

Section PosixCase.
Import Posix.














End PosixCase.

(** ** [ntpath] does not look at case *)

Section NtpathCase.
Import Ntpath.

























End NtpathCase.

(** ** Platforms and case *)





(** ** Path normalization and case *)




(** * Instances *)

Import Scenarios.

(** The first scenario: nothing registered, so a kernel is started under
    the identity of the canonical path. *)
Example scenario_first_start :
  canonical_path proj_os proj_self first_request = Ok proj_path ∧
  _propose_id proj_os proj_path (PStr "python3") = Ok proj_id ∧
  super_starts (events (start_kernel live_backend proj_os first_request proj_self))
    = [(PStr proj_id, <["path" := PStr proj_path]> first_request)] ∧
  outcome (start_kernel live_backend proj_os first_request proj_self) = Ok (PStr proj_id).
Proof. vm_compute. repeat split. Qed.

(** The second scenario: the kernel the first request started is reused by
    a second request that spells the path differently. *)
Example scenario_second_start_reuses :
  outcome (start_kernel_async live_backend proj_os second_request
             (final (start_kernel live_backend proj_os first_request proj_self)))
    = Ok (PStr proj_id) ∧
  super_starts (events (start_kernel_async live_backend proj_os second_request
             (final (start_kernel live_backend proj_os first_request proj_self)))) = [].
Proof. vm_compute. repeat split. Qed.

Lemma C1_witness :
  outcome (start_kernel live_backend proj_os second_request live_self) = Ok (PStr proj_id) ∧
  super_starts (events (start_kernel live_backend proj_os second_request live_self)) = [] ∧
  outcome (start_kernel_async live_backend proj_os second_request live_self)
    = Ok (PStr proj_id) ∧
  super_starts (events (start_kernel_async live_backend proj_os second_request live_self)) = [].
Proof.
  destruct (C1_reuse_of_live_kernel live_backend proj_os live_self second_request
              proj_path proj_id (mkKM (Ok true)))
    as [(Ho & Hs & _) (Hoa & Hsa & _)]; [vm_compute; reflexivity..|].
  repeat split; assumption.
Defined.

(** C2 as stated fails for an exception outside [Exception]: a liveness
    check interrupted from the keyboard is not caught, and the request
    raises [KeyboardInterrupt]. *)
Lemma C2_counterexample :
  explicit_kernel_id second_request = PNone ∧
  canonical_path proj_os interrupted_self second_request = Ok proj_path ∧
  _propose_id proj_os proj_path (kernel_name_of second_request) = Ok proj_id ∧
  _kernels interrupted_self !! proj_id = Some (mkKM (Raise KeyboardInterrupt)) ∧
  outcome (start_kernel live_backend proj_os second_request interrupted_self)
    = Raise KeyboardInterrupt ∧
  outcome (start_kernel_async live_backend proj_os second_request interrupted_self)
    = Raise KeyboardInterrupt ∧
  ¬ (∀ (sup : Super) (os : OS) (self : Self) (kw : gmap string PyVal)
       (abs proposed : string) (km : KernelManager) (e : PyExc),
       explicit_kernel_id kw = PNone →
       canonical_path os self kw = Ok abs →
       nonempty abs = true →
       _propose_id os abs (kernel_name_of kw) = Ok proposed →
       _kernels self !! proposed = Some km →
       is_alive km = Raise e →
       outcome (start_kernel sup os kw self) = Ok (PStr proposed)).
Proof.
  repeat (split; [vm_compute; reflexivity|]).
  intros H.
  specialize (H live_backend proj_os interrupted_self second_request proj_path proj_id
                (mkKM (Raise KeyboardInterrupt)) KeyboardInterrupt).
  assert (Hout : outcome (start_kernel live_backend proj_os second_request interrupted_self)
                 = Ok (PStr proj_id))
    by (apply H; vm_compute; reflexivity).
  vm_compute in Hout. discriminate Hout.
Qed.

Lemma C2_witness :
  is_alive (mkKM (Raise RuntimeError)) = Raise RuntimeError ∧
  isinstance_Exception RuntimeError = true ∧
  outcome (start_kernel live_backend proj_os second_request failing_self) = Ok (PStr proj_id) ∧
  super_starts (events (start_kernel live_backend proj_os second_request failing_self)) = [] ∧
  outcome (start_kernel_async live_backend proj_os second_request failing_self)
    = Ok (PStr proj_id) ∧
  super_starts (events (start_kernel_async live_backend proj_os second_request failing_self))
    = [].
Proof.
  destruct (C2_liveness_Exception_means_alive live_backend proj_os failing_self second_request
              proj_path proj_id (mkKM (Raise RuntimeError)) RuntimeError)
    as [(Ho & Hs & _) (Hoa & Hsa & _)]; [vm_compute; reflexivity..|].
  repeat split; assumption.
Defined.

(** C3 as stated fails for a request whose path cannot be normalized: the
    path is normalized before the [kernel_id] is looked at, and a NUL in it
    makes [os.path.realpath] raise [ValueError]; the request raises, and
    nothing is delegated. *)
Lemma C3_counterexample :
  explicit_kernel_id nul_request = PStr "my-kernel" ∧
  well_typed nul_request ∧
  canonical_path proj_os proj_self nul_request = Raise ValueError ∧
  outcome (start_kernel live_backend proj_os nul_request proj_self) = Raise ValueError ∧
  super_starts (events (start_kernel live_backend proj_os nul_request proj_self)) = [] ∧
  outcome (start_kernel_async live_backend proj_os nul_request proj_self)
    = Raise ValueError ∧
  super_starts (events (start_kernel_async live_backend proj_os nul_request proj_self)) = [] ∧
  ¬ (∀ (sup : Super) (os : OS) (self : Self) (kw : gmap string PyVal),
       explicit_kernel_id kw ≠ PNone →
       ∃ kw', super_starts (events (start_kernel sup os kw self))
              = [(explicit_kernel_id kw, kw')]).
Proof.
  split; [vm_compute; reflexivity|].
  split; [vm_compute; split; exact I|].
  repeat (split; [vm_compute; reflexivity|]).
  intros H.
  destruct (H live_backend proj_os proj_self nul_request) as [kw' Hkw'].
  - vm_compute. discriminate.
  - vm_compute in Hkw'. discriminate Hkw'.
Qed.

Lemma C3_witness :
  canonical_path proj_os live_self explicit_request = Ok proj_path ∧
  probes (events (start_kernel live_backend proj_os explicit_request live_self)) = [] ∧
  protocol (events (start_kernel live_backend proj_os explicit_request live_self))
    = [Start (explicit_kernel_id explicit_request)
         (outgoing_kwargs explicit_request proj_path)] ∧
  probes (events (start_kernel_async live_backend proj_os explicit_request live_self)) = [] ∧
  protocol (events (start_kernel_async live_backend proj_os explicit_request live_self))
    = [Start (explicit_kernel_id explicit_request)
         (outgoing_kwargs explicit_request proj_path)].
Proof.
  assert (Hcan : canonical_path proj_os live_self explicit_request = Ok proj_path)
    by (vm_compute; reflexivity).
  pose proof (C3_explicit_kernel_id_bypasses_reuse live_backend proj_os live_self
                explicit_request) as H.
  rewrite Hcan in H.
  destruct H as ((Hp & Hs & _) & (Hpa & Hsa & _)); [vm_compute; discriminate|].
  repeat split; assumption.
Defined.

Lemma C4_witness :
  super_starts (events (start_kernel live_backend proj_os second_request dead_self))
    = [(PStr proj_id, <["path" := PStr proj_path]> (delete "kernel_id" second_request))] ∧
  super_starts (events (start_kernel_async live_backend proj_os second_request proj_self))
    = [(PStr proj_id, <["path" := PStr proj_path]> (delete "kernel_id" second_request))].
Proof.
  split.
  - refine (proj1 (proj1 (C4_start_under_proposed_identity live_backend proj_os dead_self
              second_request proj_path proj_id _ _ _ _ _))); try (vm_compute; reflexivity).
    right. exists (mkKM (Ok false)). vm_compute. split; reflexivity.
  - refine (proj1 (proj2 (C4_start_under_proposed_identity live_backend proj_os proj_self
              second_request proj_path proj_id _ _ _ _ _))); try (vm_compute; reflexivity).
    left. vm_compute. reflexivity.
Defined.

Lemma C5_witness :
  head (protocol (events (start_kernel live_backend proj_os first_request proj_self)))
    = Some (Contains proj_id) ∧
  head (protocol (events (start_kernel_async live_backend proj_os second_request live_self)))
    = Some (Contains proj_id).
Proof.
  destruct (C5_identity_is_function_of_path_type_namespace
              live_backend live_backend proj_os proj_os proj_self live_self
              first_request second_request proj_path DEFAULT_NAMESPACE)
    as (_ & _ & H1 & _ & _ & H2); [vm_compute; reflexivity..|].
  split; [exact H1|exact H2].
Defined.

Lemma C6_witness :
  protocol (events (start_kernel live_backend proj_os first_request dead_self))
    = protocol (events (start_kernel_async live_backend proj_os first_request dead_self)) ∧
  outcome (start_kernel live_backend proj_os first_request dead_self)
    = outcome (start_kernel_async live_backend proj_os first_request dead_self).
Proof.
  destruct (C6_sync_async_same_protocol live_backend proj_os first_request dead_self)
    as (Hp & _ & Hagree).
  split; [exact Hp|]. apply Hagree. intros s kid args. reflexivity.
Defined.

Lemma C7_witness :
  _pick_path_from_kwargs first_request = Ok (PStr "notebooks/a.ipynb") ∧
  _pick_path_from_kwargs session_request = Ok (PStr "notebooks/a.ipynb") ∧
  _pick_path_from_kwargs notebook_request = Ok (PStr "other.ipynb") ∧
  _pick_path_from_kwargs pathless_request = Ok (PStr "") ∧
  protocol (events (start_kernel live_backend proj_os pathless_request live_self))
    = [Start PNone pathless_request].
Proof.
  destruct C7_path_precedence_and_empty_path as (H1 & H2 & H3 & H4 & H5).
  repeat apply conj.
  - apply H1; vm_compute; reflexivity.
  - apply (H2 session_request session_env "{...}"); vm_compute; reflexivity.
  - apply (H3 notebook_request notebook_env "{...}"); vm_compute; reflexivity.
  - apply H4; [vm_compute; reflexivity|]. left. vm_compute. reflexivity.
  - destruct (H5 live_backend proj_os live_self pathless_request) as [(_ & Hp & _) _].
    + vm_compute. reflexivity.
    + rewrite Hp. vm_compute. reflexivity.
Defined.

Lemma C8_witness :
  _namespace proj_os = Ok DEFAULT_NAMESPACE ∧
  _namespace named_os = Ok DEFAULT_NAMESPACE ∧
  _namespace (setenv named_os "STICKYKM_NAMESPACE" dns_namespace)
    = Ok 0x6ba7b8109dad11d180b400c04fd430c8%N ∧
  _namespace (unsetenv (setenv named_os "STICKYKM_NAMESPACE" dns_namespace)
                "STICKYKM_NAMESPACE") = Ok DEFAULT_NAMESPACE.
Proof.
  repeat apply conj.
  - destruct (C8_namespace_read_at_each_resolution proj_os) as (H & _).
    apply H. vm_compute. reflexivity.
  - destruct (C8_namespace_read_at_each_resolution named_os) as (_ & H & _).
    apply (H "my-project-2025"); [vm_compute; reflexivity|]. left. vm_compute. reflexivity.
  - destruct (C8_namespace_read_at_each_resolution named_os) as (_ & _ & _ & H & _).
    apply H; vm_compute; reflexivity.
  - destruct (C8_namespace_read_at_each_resolution
                (setenv named_os "STICKYKM_NAMESPACE" dns_namespace)) as (_ & _ & _ & _ & _ & H).
    exact H.
Defined.

(** The namespace is read again for each request: the same request is
    looked up under another identity once the variable has changed. *)
Example namespace_change_takes_effect :
  head (protocol (events (start_kernel live_backend proj_os first_request proj_self)))
    = Some (Contains proj_id) ∧
  head (protocol (events (start_kernel live_backend
                            (setenv proj_os "STICKYKM_NAMESPACE" dns_namespace)
                            first_request
                            (final (start_kernel live_backend proj_os first_request proj_self)))))
    = Some (Contains "56d07f6a-48b7-5ddf-bdce-710e267f5b24").
Proof. vm_compute. repeat split. Qed.



(** * Further properties of the coordinator *)

(** ** Both entry points carry out the decision *)

Lemma start_kernel_decides (sup : Super) (os : OS) (kw : gmap string PyVal) (self : Self) :
  observed (start_kernel sup os kw self)
  = carry_out (super_start_kernel sup) self (decide os self kw).
Proof.
  unfold observed, decide, canonical_path.
  enter start_kernel.
  destruct (_pick_path_from_kwargs kw) as [raw|e1] eqn:Hpick; run;
    [|observe; reflexivity].
  cbn [res_bind].
  destruct (_abs_norm os (self_root_dir self) raw) as [abs|e2] eqn:Habs; run;
    [|observe; reflexivity].
  unfold outgoing_kwargs.
  destruct (is_None (explicit_kernel_id kw)) eqn:Hnone;
    destruct (nonempty abs) eqn:Hne; cbn [andb].
  1: destruct (propose_id_ok os abs (kernel_name_of kw)) as (ns & _ & Hprop);
     rewrite Hprop; run;
     destruct (_kernels self !! _stable_kernel_id abs (kernel_name_of kw) ns)
       as [km|] eqn:Hreg; run;
     [destruct (is_alive km) as [[]|e3] eqn:Halive; run;
      [| |destruct (isinstance_Exception e3) eqn:Hexc; run]|].
  all: run; observe; reflexivity.
Qed.

Lemma start_kernel_async_decides (sup : Super) (os : OS) (kw : gmap string PyVal) (self : Self) :
  observed (start_kernel_async sup os kw self)
  = carry_out (super_start_kernel_async sup) self (decide os self kw).
Proof.
  unfold observed, decide, canonical_path.
  enter start_kernel_async.
  destruct (_pick_path_from_kwargs kw) as [raw|e1] eqn:Hpick; run;
    [|observe; reflexivity].
  cbn [res_bind].
  destruct (_abs_norm os (self_root_dir self) raw) as [abs|e2] eqn:Habs; run;
    [|observe; reflexivity].
  unfold outgoing_kwargs.
  destruct (is_None (explicit_kernel_id kw)) eqn:Hnone;
    destruct (nonempty abs) eqn:Hne; cbn [andb].
  1: destruct (propose_id_ok os abs (kernel_name_of kw)) as (ns & _ & Hprop);
     rewrite Hprop; run;
     destruct (_kernels self !! _stable_kernel_id abs (kernel_name_of kw) ns)
       as [km|] eqn:Hreg; run;
     [destruct (is_alive km) as [[]|e3] eqn:Halive; run;
      [| |destruct (isinstance_Exception e3) eqn:Hexc; run]|].
  all: run; observe; reflexivity.
Qed.

Lemma entry_decides (async : bool) (sup : Super) (os : OS) (kw : gmap string PyVal)
    (self : Self) :
  observed (entry async sup os kw self)
  = carry_out (inherited async sup) self (decide os self kw).
Proof.
  destruct async; [apply start_kernel_async_decides|apply start_kernel_decides].
Qed.

Lemma observed_inv (r : Run PyVal) (p : list Step) (o : Res PyVal) (s : Self) :
  observed r = (p, o, s) → protocol (events r) = p ∧ outcome r = o ∧ final r = s.
Proof. unfold observed. intros [= -> -> ->]. auto. Qed.

Lemma super_starts_protocol (tr : list Event) :
  super_starts tr = omap start_args (protocol tr).
Proof.
  unfold super_starts, protocol.
  induction tr as [|e tr IH]; [reflexivity|].
  destruct e; cbn; rewrite ?IH; reflexivity.
Qed.

(** The ways a decision can come out, with what each one tells. *)
Lemma decide_cases (os : OS) (self : Self) (kw : gmap string PyVal) :
  (∃ e, canonical_path os self kw = Raise e ∧ decide os self kw = Fails e) ∨
  (∃ abs, canonical_path os self kw = Ok abs ∧
     (is_None (explicit_kernel_id kw) && nonempty abs = false ∧
      decide os self kw = StartNew [] (explicit_kernel_id kw) (outgoing_kwargs kw abs)
      ∨
      ∃ ns, is_None (explicit_kernel_id kw) = true ∧ nonempty abs = true ∧
        _namespace os = Ok ns ∧
        let id := _stable_kernel_id abs (kernel_name_of kw) ns in
        (_kernels self !! id = None ∧
           decide os self kw = StartNew [Contains id] (PStr id) (outgoing_kwargs kw abs)
         ∨ ∃ km, _kernels self !! id = Some km ∧
             (is_alive km = Ok false ∧
                decide os self kw = StartNew (was_probed id) (PStr id) (outgoing_kwargs kw abs)
              ∨ (is_alive km = Ok true ∨
                 ∃ e, is_alive km = Raise e ∧ isinstance_Exception e = true) ∧
                decide os self kw = Reuse id
              ∨ ∃ e, is_alive km = Raise e ∧ isinstance_Exception e = false ∧
                  decide os self kw = ProbeRaises id e)))).
Proof.
  unfold decide.
  destruct (canonical_path os self kw) as [abs|e]; [right|left; eauto].
  exists abs. split; [reflexivity|].
  destruct (is_None (explicit_kernel_id kw) && nonempty abs) eqn:Hb; [right|left; auto].
  apply andb_true_iff in Hb as [Hn Hne].
  destruct (propose_id_ok os abs (kernel_name_of kw)) as (ns & Hns & Hprop).
  rewrite Hprop. exists ns. repeat (split; [assumption|]). cbv zeta.
  destruct (_kernels self !! _stable_kernel_id abs (kernel_name_of kw) ns) as [km|];
    [right|left; auto].
  exists km. split; [reflexivity|].
  destruct (is_alive km) as [[]|e]; [right; left; eauto|left; eauto|].
  destruct (isinstance_Exception e) eqn:He.
  - right; left. split; [right; eauto|reflexivity].
  - right; right. eauto.
Qed.


(** The three observations of a run, read off the decision. *)
Lemma entry_carries_out
    (async : bool) (sup : Super) (os : OS) (kw : gmap string PyVal) (self : Self) :
  protocol (events (entry async sup os kw self))
    = (carry_out (inherited async sup) self (decide os self kw)).1.1 ∧
  outcome (entry async sup os kw self)
    = (carry_out (inherited async sup) self (decide os self kw)).1.2 ∧
  final (entry async sup os kw self)
    = (carry_out (inherited async sup) self (decide os self kw)).2.
Proof.
  pose proof (entry_decides async sup os kw self) as H.
  destruct (carry_out (inherited async sup) self (decide os self kw)) as [[p o] s].
  apply observed_inv in H. exact H.
Qed.

(** X1.  Both entry points refine the decision algorithm: for every backend,
    platform, request and manager, the blocking and the suspending entry
    point follow the protocol, return the result and leave the manager that
    the decision function of the algorithm (normalize, resolve, look up,
    probe) gives when it is carried out with the inherited start. *)
Theorem entry_points_refine_decision
    (sup : Super) (os : OS) (kw : gmap string PyVal) (self : Self) :
  observed (start_kernel sup os kw self)
    = carry_out (super_start_kernel sup) self (decide os self kw) ∧
  observed (start_kernel_async sup os kw self)
    = carry_out (super_start_kernel_async sup) self (decide os self kw).
Proof.
  split.
  - apply start_kernel_decides.
  - apply start_kernel_async_decides.
Qed.

(** X2.  The shape of every run: a request makes no probe and no start (it
    failed on its path), or starts at once, or tests membership of one
    identity and starts under it, or tests, reads and checks one identity
    and then either stops or starts under it.  So the inherited start is
    called at most once and is the last step, a handle is read only after
    its membership test, and all probes concern one identity. *)
Theorem protocol_shape
    (async : bool) (sup : Super) (os : OS) (kw : gmap string PyVal) (self : Self) :
  (List.length (super_starts (events (entry async sup os kw self))) ≤ 1)%nat ∧
  (protocol (events (entry async sup os kw self)) = []
   ∨ (∃ k kw', protocol (events (entry async sup os kw self)) = [Start k kw'])
   ∨ (∃ id kw', protocol (events (entry async sup os kw self))
                = [Contains id; Start (PStr id) kw'])
   ∨ (∃ id, protocol (events (entry async sup os kw self))
            = [Contains id; GetItem id; IsAlive id])
   ∨ (∃ id kw', protocol (events (entry async sup os kw self))
                = [Contains id; GetItem id; IsAlive id; Start (PStr id) kw'])).
Proof.
  rewrite super_starts_protocol.
  destruct (entry_carries_out async sup os kw self) as (-> & _ & _).
  destruct (decide_cases os self kw)
    as [(e & _ & ->)
       |(abs & _ & [[_ ->]
                   |(ns & _ & _ & _ & [[_ ->]|(km & _ & [[_ ->]|[[_ ->]|(e & _ & _ & ->)]])])])];
    cbn; split; try lia; eauto 10.
Qed.

(** X3.  What the inherited start is given.  Whenever a request reaches the
    inherited start, the keyword arguments it passes on hold no [kernel_id]
    entry (the identity travels only as the separate argument); they hold
    every entry of the request other than [path] and [kernel_id] unchanged,
    and nothing else; and [path] is the canonical path when that is not
    empty and the request's own entry otherwise. *)
Theorem delegated_arguments
    (async : bool) (sup : Super) (os : OS) (kw : gmap string PyVal) (self : Self)
    (k : PyVal) (kw' : gmap string PyVal) :
  In (k, kw') (super_starts (events (entry async sup os kw self))) →
  kw' !! "kernel_id" = None ∧
  (∀ key, key ≠ "path" → key ≠ "kernel_id" → kw' !! key = kw !! key) ∧
  ∃ abs, canonical_path os self kw = Ok abs ∧
    kw' !! "path" = (if nonempty abs then Some (PStr abs) else kw !! "path").
Proof.
  rewrite super_starts_protocol.
  destruct (entry_carries_out async sup os kw self) as (-> & _ & _).
  assert (Hout : ∀ abs, canonical_path os self kw = Ok abs →
            kw' = outgoing_kwargs kw abs →
            kw' !! "kernel_id" = None ∧
            (∀ key, key ≠ "path" → key ≠ "kernel_id" → kw' !! key = kw !! key) ∧
            ∃ abs, canonical_path os self kw = Ok abs ∧
              kw' !! "path" = (if nonempty abs then Some (PStr abs) else kw !! "path")).
  { intros abs Hcan ->. unfold outgoing_kwargs. split; [|split].
    - destruct (nonempty abs).
      + rewrite lookup_insert_ne by discriminate. apply lookup_delete_eq.
      + apply lookup_delete_eq.
    - intros key Hp Hk. destruct (nonempty abs).
      + rewrite lookup_insert_ne by congruence. apply lookup_delete_ne. congruence.
      + apply lookup_delete_ne. congruence.
    - exists abs. split; [assumption|]. destruct (nonempty abs).
      + apply lookup_insert_eq.
      + apply lookup_delete_ne. discriminate. }
  destruct (decide_cases os self kw)
    as [(e & _ & ->)
       |(abs & Hcan & [[_ ->]
                   |(ns & _ & _ & _ & [[_ ->]|(km & _ & [[_ ->]|[[_ ->]|(e & _ & _ & ->)]])])])];
    cbn; intros Hin; intuition (try discriminate);
    match goal with H : (_, _) = (_, _) |- _ => injection H as _ H end;
    eapply Hout; eauto.
Qed.

(** X4.  The coordinator keeps no state of its own.  A request that does
    not reach the inherited start leaves the manager as it found it; one
    that does calls it on the manager as it found it, and hands back its
    result (an identity or an exception) and the manager it leaves,
    untouched.  In particular the registry and the path-to-identity table
    are never written by the coordinator. *)
Theorem manager_changed_only_by_inherited_start
    (async : bool) (sup : Super) (os : OS) (kw : gmap string PyVal) (self : Self) :
  (super_starts (events (entry async sup os kw self)) = [] ∧
   final (entry async sup os kw self) = self)
  ∨ (∃ k kw',
       super_starts (events (entry async sup os kw self)) = [(k, kw')] ∧
       outcome (entry async sup os kw self) = (inherited async sup self k kw').1 ∧
       final (entry async sup os kw self) = (inherited async sup self k kw').2).
Proof.
  rewrite super_starts_protocol.
  destruct (entry_carries_out async sup os kw self) as (-> & -> & ->).
  destruct (decide_cases os self kw)
    as [(e & _ & ->)
       |(abs & _ & [[_ ->]
                   |(ns & _ & _ & _ & [[_ ->]|(km & _ & [[_ ->]|[[_ ->]|(e & _ & _ & ->)]])])])];
    cbn; eauto 10.
Qed.

(** ** Errors *)

(** X5.  Where an exception comes from.  If a request ends in an
    exception, then path extraction or normalization raised it, before
    anything was probed; or the liveness check of the handle registered
    under its identity raised it and it is not an instance of Exception; or
    the inherited start, called once, raised it.  No exception has another
    origin, the texts of the request being texts that UTF-8 encodes (as a
    [string] holds them), so that hashing the identity does not raise. *)
Theorem request_raises_only_what_it_is_handed
    (async : bool) (sup : Super) (os : OS) (kw : gmap string PyVal) (self : Self)
    (e : PyExc) :
  outcome (entry async sup os kw self) = Raise e →
  (canonical_path os self kw = Raise e ∧
   protocol (events (entry async sup os kw self)) = [])
  ∨ (∃ abs ns km,
       canonical_path os self kw = Ok abs ∧ _namespace os = Ok ns ∧
       _kernels self !! _stable_kernel_id abs (kernel_name_of kw) ns = Some km ∧
       is_alive km = Raise e ∧ isinstance_Exception e = false)
  ∨ (∃ k kw',
       super_starts (events (entry async sup os kw self)) = [(k, kw')] ∧
       (inherited async sup self k kw').1 = Raise e).
Proof.
  rewrite super_starts_protocol.
  destruct (entry_carries_out async sup os kw self) as (-> & -> & _).
  destruct (decide_cases os self kw)
    as [(e' & Hcan & ->)
       |(abs & Hcan & [[_ ->]
          |(ns & _ & _ & Hns & [[_ ->]|(km & Hreg & [[_ ->]|[[_ ->]|(e' & Ha & He & ->)]])])])];
    cbn; try discriminate; eauto 10.
  - intros [= ->]. left. auto.
  - intros [= ->]. right. left. eauto 10.
Qed.

(** X6.  A request whose path cannot be normalized fails fast.  Whatever
    exception path extraction or normalization raises (a [ValueError] for
    a NUL in the path, an [OSError] of the working directory, a
    [TypeError] for a value that is no path), the request raises that
    exception without any probe of the registry and without calling the
    inherited start, and leaves the manager unchanged; and a request makes
    no probe and no start in that case only (its texts being texts that
    UTF-8 encodes, so that hashing the identity does not raise). *)
Theorem unnormalizable_path_fails_before_probing
    (async : bool) (sup : Super) (os : OS) (kw : gmap string PyVal) (self : Self) :
  (∀ e, canonical_path os self kw = Raise e →
     protocol (events (entry async sup os kw self)) = [] ∧
     super_starts (events (entry async sup os kw self)) = [] ∧
     outcome (entry async sup os kw self) = Raise e ∧
     final (entry async sup os kw self) = self) ∧
  (protocol (events (entry async sup os kw self)) = [] →
   ∃ e, canonical_path os self kw = Raise e).
Proof.
  rewrite super_starts_protocol.
  destruct (entry_carries_out async sup os kw self) as (-> & -> & ->).
  split.
  - intros e Hcan. unfold decide. rewrite Hcan. cbn. auto.
  - destruct (decide_cases os self kw)
      as [(e & Hcan & ->)
         |(abs & _ & [[_ ->]
            |(ns & _ & _ & _ & [[_ ->]|(km & _ & [[_ ->]|[[_ ->]|(e & _ & _ & ->)]])])])];
      cbn; try discriminate. eauto.
Qed.

(** ** One kernel per notebook *)

Lemma canonical_path_parent (os : OS) (s1 s2 : Self) (kw : gmap string PyVal) :
  parent s1 = parent s2 → canonical_path os s1 kw = canonical_path os s2 kw.
Proof. unfold canonical_path, self_root_dir. intros ->. reflexivity. Qed.

Lemma serve_registered_live
    (async : bool) (sup : Super) (os : OS) (abs id : string) (kn : PyVal)
    (reqs : list (gmap string PyVal)) (self : Self) (km : KernelManager) :
  nonempty abs = true →
  _propose_id os abs kn = Ok id →
  _kernels self !! id = Some km → is_alive km = Ok true →
  (∀ kw, In kw reqs →
     explicit_kernel_id kw = PNone ∧ kernel_name_of kw = kn ∧
     canonical_path os self kw = Ok abs) →
  Forall (fun r => outcome r = Ok (PStr id)) (serve async sup os reqs self) ∧
  session_starts (serve async sup os reqs self) = [].
Proof.
  intros Hne Hprop Hreg Halive.
  induction reqs as [|kw reqs IH]; intros Hreqs; [split; [constructor|reflexivity]|].
  destruct (Hreqs kw (or_introl eq_refl)) as (Hid & Hkn & Hcan).
  cbn [serve].
  pose proof (entry_carries_out async sup os kw self) as (Hp & Ho & Hf).
  pose proof (super_starts_protocol (events (entry async sup os kw self))) as Hs.
  rewrite Hp in Hs.
  unfold decide in Hp, Ho, Hf, Hs.
  rewrite Hcan, Hid, Hne, Hkn, Hprop, Hreg, Halive in Hp, Ho, Hf, Hs.
  cbn in Hp, Ho, Hf, Hs.
  rewrite Hf.
  destruct IH as [IHo IHs]; [intros kw' Hin; apply Hreqs; right; exact Hin|].
  split; [constructor; assumption|].
  unfold session_starts in *. cbn [map concat]. rewrite Hs, IHs. reflexivity.
Qed.

(** X7.  One kernel per notebook.  On a manager whose registry does not yet
    hold the identity of a notebook, and with an inherited start that
    registers a live kernel under the identity it is given, any number of
    requests for that notebook (no explicit kernel id, the same non-empty
    canonical path, the same kernel type; other arguments and the spelling
    of the path may differ), served one after another, all return the same
    identity, and the inherited start is called exactly once in the whole
    session: by the first request. *)
Theorem one_kernel_per_notebook
    (async : bool) (sup : Super) (os : OS) (abs id : string) (kn : PyVal)
    (first : gmap string PyVal) (others : list (gmap string PyVal)) (self : Self) :
  registers_live (inherited async sup) →
  nonempty abs = true →
  _propose_id os abs kn = Ok id →
  _kernels self !! id = None →
  (∀ kw, In kw (first :: others) →
     explicit_kernel_id kw = PNone ∧ kernel_name_of kw = kn ∧
     canonical_path os self kw = Ok abs) →
  Forall (fun r => outcome r = Ok (PStr id)) (serve async sup os (first :: others) self) ∧
  session_starts (serve async sup os (first :: others) self)
    = [(PStr id, outgoing_kwargs first abs)].
Proof.
  intros Hlive Hne Hprop Hreg Hreqs.
  destruct (Hreqs first (or_introl eq_refl)) as (Hid & Hkn & Hcan).
  cbn [serve].
  pose proof (entry_carries_out async sup os first self) as (Hp & Ho & Hf).
  pose proof (super_starts_protocol (events (entry async sup os first self))) as Hs.
  rewrite Hp in Hs.
  unfold decide in Hp, Ho, Hf, Hs.
  rewrite Hcan, Hid, Hne, Hkn, Hprop, Hreg in Hp, Ho, Hf, Hs.
  cbn in Hp, Ho, Hf, Hs.
  destruct (Hlive self id (outgoing_kwargs first abs)) as (Hres & Hpar & km & Hkm & Halive).
  rewrite Hres in Ho.
  destruct (serve_registered_live async sup os abs id kn others
              (final (entry async sup os first self)) km Hne Hprop) as [IHo IHs].
  - rewrite Hf. exact Hkm.
  - exact Halive.
  - intros kw Hin. destruct (Hreqs kw (or_intror Hin)) as (Hid' & Hkn' & Hcan').
    repeat split; [assumption..|].
    rewrite <- Hcan'. apply canonical_path_parent. rewrite Hf. exact Hpar.
  - split; [constructor; assumption|].
    unfold session_starts in *. cbn [map concat]. rewrite Hs, IHs. reflexivity.
Qed.

(** * What a request is read for *)

Lemma pick_path_reads (kw1 kw2 : gmap string PyVal) :
  kw1 !! "path" = kw2 !! "path" → kw1 !! "env" = kw2 !! "env" →
  _pick_path_from_kwargs kw1 = _pick_path_from_kwargs kw2.
Proof.
  intros Hp He. unfold _pick_path_from_kwargs, dict_get. rewrite Hp, He. reflexivity.
Qed.

(** X23.  Only four arguments of a request are read.  Two requests that
    agree on [path], [env], [kernel_id] and [kernel_name], made on the same
    manager and platform, follow the same protocol up to the keyword
    arguments handed on (the same probes of the same identity, a start
    under the same identity or none), and when no kernel is started they
    return the same result: whatever else a request carries (a user, a
    working directory, resource limits) has no part in the decision, and
    is dropped when a kernel is reused. *)
Theorem only_four_arguments_are_read
    (async : bool) (sup : Super) (os : OS) (self : Self) (kw1 kw2 : gmap string PyVal) :
  kw1 !! "path" = kw2 !! "path" →
  kw1 !! "env" = kw2 !! "env" →
  kw1 !! "kernel_id" = kw2 !! "kernel_id" →
  kw1 !! "kernel_name" = kw2 !! "kernel_name" →
  map forget_kwargs (protocol (events (entry async sup os kw1 self)))
  = map forget_kwargs (protocol (events (entry async sup os kw2 self))) ∧
  (super_starts (events (entry async sup os kw1 self)) = [] →
   outcome (entry async sup os kw1 self) = outcome (entry async sup os kw2 self) ∧
   final (entry async sup os kw1 self) = final (entry async sup os kw2 self)).
Proof.
  intros Hp He Hi Hn.
  rewrite super_starts_protocol.
  destruct (entry_carries_out async sup os kw1 self) as (-> & -> & ->).
  destruct (entry_carries_out async sup os kw2 self) as (-> & -> & ->).
  unfold decide, canonical_path, explicit_kernel_id, kernel_name_of, dict_get_default.
  rewrite (pick_path_reads kw1 kw2 Hp He), Hi, Hn.
  destruct (res_bind (_pick_path_from_kwargs kw2) (_abs_norm os (self_root_dir self)))
    as [abs|e]; [|cbn; auto].
  cbv zeta.
  destruct (is_None (default PNone (kw2 !! "kernel_id")) && nonempty abs);
    [|cbn; split; [reflexivity|discriminate]].
  destruct (_propose_id os abs (default (PStr "python3") (kw2 !! "kernel_name")))
    as [id|e]; [|cbn; auto].
  destruct (_kernels self !! id) as [km|]; [|cbn; split; [reflexivity|discriminate]].
  destruct (is_alive km) as [[]|e]; [cbn; auto|cbn; split; [reflexivity|discriminate]|].
  destruct (isinstance_Exception e); cbn; auto.
Qed.

(** * The canonical path is a fixed point of normalization *)

Section CanonicalPaths.
Import Posix Canonical.

Lemma string_app_cons (c : ascii) (a b : string) : String c a +:+ b = String c (a +:+ b).
Proof. reflexivity. Qed.

Lemma string_app_empty (b : string) : "" +:+ b = b.
Proof. reflexivity. Qed.

Lemma split_slash_cons (s : string) : ∃ h t, split_slash s = h :: t.
Proof.
  induction s as [|c r (h & t & IH)]; cbn; [eauto|].
  destruct (Ascii.eqb c "/"); [eauto|]. rewrite IH. eauto.
Qed.

Lemma split_slash_no_slash (s : string) :
  Forall (fun c => has_slash c = false) (split_slash s).
Proof.
  induction s as [|c r IH]; cbn [split_slash].
  - repeat constructor.
  - destruct (Ascii.eqb c "/") eqn:Hc.
    + constructor; [reflexivity|exact IH].
    + destruct (split_slash r) as [|h t]; [repeat constructor; cbn; rewrite Hc; reflexivity|].
      inversion IH as [|? ? Hh Ht]; subst. constructor; [|exact Ht].
      cbn. rewrite Hc, Hh. reflexivity.
Qed.

Lemma split_slash_name (c : string) : has_slash c = false → split_slash c = [c].
Proof.
  induction c as [|a c IH]; intros H; [reflexivity|].
  cbn in H. apply orb_false_iff in H as [Ha Hc].
  cbn [split_slash]. rewrite Ha, (IH Hc). reflexivity.
Qed.

Lemma split_slash_app (a b : string) :
  has_slash a = false → split_slash (a +:+ String "/" b) = a :: split_slash b.
Proof.
  induction a as [|c a IH]; intros H.
  - reflexivity.
  - cbn in H. apply orb_false_iff in H as [Hc Ha].
    rewrite string_app_cons. cbn [split_slash]. rewrite Hc, (IH Ha). reflexivity.
Qed.

Lemma join_slash_cons (c d : string) (r : list string) :
  join_slash (c :: d :: r) = c +:+ String "/" (join_slash (d :: r)).
Proof. reflexivity. Qed.

Lemma split_join_slash (comps : list string) :
  comps ≠ [] → Forall (fun c => has_slash c = false) comps →
  split_slash (join_slash comps) = comps.
Proof.
  induction comps as [|c comps IH]; intros Hne Hall; [congruence|].
  inversion Hall as [|? ? Hc Hrest]; subst.
  destruct comps as [|d comps].
  - cbn [join_slash]. apply split_slash_name. exact Hc.
  - rewrite join_slash_cons, split_slash_app by exact Hc.
    rewrite IH; [reflexivity|discriminate|exact Hrest].
Qed.

Lemma is_name_inv (c : string) :
  is_name c = true →
  String.eqb c "" = false ∧ String.eqb c "." = false ∧ String.eqb c ".." = false ∧
  has_slash c = false.
Proof.
  unfold is_name. intros H.
  apply andb_true_iff in H as [H H4]. apply andb_true_iff in H as [H H3].
  apply andb_true_iff in H as [H1 H2].
  repeat split; apply negb_true_iff; assumption.
Qed.

Lemma names_no_slash (names : list string) :
  forallb is_name names = true → Forall (fun c => has_slash c = false) names.
Proof.
  induction names as [|c names IH]; cbn; intros H; [constructor|].
  apply andb_true_iff in H as [Hc Hrest].
  constructor; [apply is_name_inv, Hc|exact (IH Hrest)].
Qed.

Lemma fold_names (n : nat) (names acc : list string) :
  forallb is_name names = true →
  fold_left (normpath_step n) names acc = (rev names ++ acc)%list.
Proof.
  revert acc. induction names as [|c names IH]; intros acc H; [reflexivity|].
  cbn in H. apply andb_true_iff in H as [Hc Hrest].
  destruct (is_name_inv c Hc) as (H1 & H2 & H3 & _).
  cbn [fold_left rev]. rewrite IH by exact Hrest.
  unfold normpath_step. rewrite H1, H2, H3. cbn [orb negb].
  rewrite <- app_assoc. reflexivity.
Qed.

Lemma forallb_tail {A : Type} (f : A → bool) (l : list A) :
  forallb f l = true → forallb f (tail l) = true.
Proof. destruct l; cbn; [auto|]. intros H. apply andb_true_iff in H. tauto. Qed.

Lemma step_keeps_names (n : nat) (acc : list string) (comp : string) :
  n ≠ O → forallb is_name acc = true → has_slash comp = false →
  forallb is_name (normpath_step n acc comp) = true.
Proof.
  intros Hn Hacc Hcomp. unfold normpath_step.
  destruct (String.eqb comp "") eqn:H1; [exact Hacc|].
  destruct (String.eqb comp ".") eqn:H2; [exact Hacc|]. cbn [orb].
  destruct (String.eqb comp "..") eqn:H3; cbn [negb orb].
  - assert (Hz : Nat.eqb n 0 = false) by (apply Nat.eqb_neq; exact Hn).
    rewrite Hz. cbn [andb orb].
    destruct acc as [|last acc]; [reflexivity|].
    cbn in Hacc. apply andb_true_iff in Hacc as [Hlast Hrest].
    destruct (is_name_inv last Hlast) as (_ & _ & -> & _). exact Hrest.
  - cbn. rewrite Hacc. unfold is_name. rewrite H1, H2, H3, Hcomp. reflexivity.
Qed.

Lemma fold_keeps_names (n : nat) (comps acc : list string) :
  n ≠ O → forallb is_name acc = true →
  Forall (fun c => has_slash c = false) comps →
  forallb is_name (fold_left (normpath_step n) comps acc) = true.
Proof.
  intros Hn. revert acc. induction comps as [|c comps IH]; intros acc Hacc Hall; [exact Hacc|].
  inversion Hall; subst. cbn [fold_left]. apply IH; [|assumption].
  apply step_keeps_names; assumption.
Qed.

Lemma forallb_rev {A : Type} (f : A → bool) (l : list A) :
  forallb f l = true → forallb f (rev l) = true.
Proof.
  intros H. apply forallb_forall. intros x Hx. apply in_rev in Hx.
  rewrite forallb_forall in H. auto.
Qed.

Lemma join_names_first (names : list string) :
  forallb is_name names = true → startswith_slash (join_slash names) = false.
Proof.
  destruct names as [|c names]; [reflexivity|]. cbn [forallb]. intros H.
  apply andb_true_iff in H as [Hc _].
  destruct (is_name_inv c Hc) as (H1 & _ & _ & H4).
  destruct c as [|a c]; [discriminate|]. cbn in H4. apply orb_false_iff in H4 as [Ha _].
  destruct names; [exact Ha|]. rewrite join_slash_cons, string_app_cons. exact Ha.
Qed.

Lemma initial_slashes_one (r : string) :
  startswith_slash r = false → initial_slashes (String "/" r) = 1%nat.
Proof.
  destruct r as [|c r]; [reflexivity|]. cbn [startswith_slash]. intros Hc.
  destruct c as [[] [] [] [] [] [] [] []]; try reflexivity; discriminate.
Qed.

Lemma initial_slashes_abs (r : string) :
  initial_slashes (String "/" r) = 1%nat ∨ initial_slashes (String "/" r) = 2%nat.
Proof.
  destruct r as [|c r]; [left; reflexivity|].
  destruct (Ascii.eqb_spec c "/") as [->|Hc].
  - destruct r as [|d r]; [right; reflexivity|].
    destruct (Ascii.eqb_spec d "/") as [->|Hd]; [left; reflexivity|].
    right. destruct d as [[] [] [] [] [] [] [] []]; try reflexivity; congruence.
  - left. destruct c as [[] [] [] [] [] [] [] []]; try reflexivity; congruence.
Qed.

(** A canonical path is left as it is by [normpath]. *)
Lemma normpath_canonical (names : list string) :
  forallb is_name names = true →
  normpath (String "/" (join_slash names)) = String "/" (join_slash names).
Proof.
  intros Hn. unfold normpath.
  change (String.eqb (String "/" (join_slash names)) "") with false. cbv iota zeta.
  rewrite (initial_slashes_one _ (join_names_first names Hn)).
  change (split_slash (String "/" (join_slash names)))
    with ("" :: split_slash (join_slash names)).
  destruct names as [|c names]; [reflexivity|].
  rewrite split_join_slash; [|discriminate|apply names_no_slash, Hn].
  change (fold_left (normpath_step 1) ("" :: c :: names) [])
    with (fold_left (normpath_step 1) (c :: names) []).
  rewrite fold_names by exact Hn. rewrite app_nil_r, rev_involutive.
  reflexivity.
Qed.

(** [normpath] of an absolute path is canonical, up to a second leading
    slash. *)
Lemma normpath_absolute (y : string) :
  startswith_slash y = true →
  ∃ names, forallb is_name names = true ∧
    (normpath y = String "/" (join_slash names)
     ∨ normpath y = String "/" (String "/" (join_slash names))).
Proof.
  destruct y as [|c y]; [discriminate|]. cbn [startswith_slash]. intros Hc.
  apply Ascii.eqb_eq in Hc as ->.
  exists (rev (fold_left (normpath_step (initial_slashes (String "/" y)))
                 (split_slash (String "/" y)) [])).
  split.
  - apply forallb_rev, fold_keeps_names; [|reflexivity|apply split_slash_no_slash].
    destruct (initial_slashes_abs y) as [-> | ->]; discriminate.
  - unfold normpath.
    change (String.eqb (String "/" y) "") with false. cbv iota zeta.
    destruct (initial_slashes_abs y) as [-> | ->]; [left|right]; reflexivity.
Qed.

Lemma resolve_absolute (cwd y : string) :
  startswith_slash y = true →
  ∃ names, forallb is_name names = true ∧ resolve cwd y = String "/" (join_slash names)
    ∧ has_nul (resolve cwd y) = has_nul (normpath y).
Proof.
  intros Hy. unfold resolve, abspath. rewrite Hy.
  destruct (normpath_absolute y Hy) as (names & Hn & [-> | ->]); exists names.
  - split; [exact Hn|].
    pose proof (join_names_first names Hn) as Hf.
    destruct (join_slash names) as [|c r]; [split; reflexivity|].
    cbn in Hf. destruct c as [[] [] [] [] [] [] [] []]; try (split; reflexivity); discriminate.
  - split; [exact Hn|split; reflexivity].
Qed.

(** *** Embedded NULs *)

Lemma has_nul_app (a b : string) : has_nul (a +:+ b) = has_nul a || has_nul b.
Proof.
  induction a as [|c a IH]; [reflexivity|].
  rewrite string_app_cons. cbn [has_nul]. rewrite IH. apply orb_assoc.
Qed.

Lemma has_nul_split (s : string) : has_nul s = existsb has_nul (split_slash s).
Proof.
  induction s as [|c r IH]; [reflexivity|]. cbn [split_slash has_nul].
  destruct (Ascii.eqb_spec c "/") as [-> | Hc].
  - cbn [existsb has_nul]. rewrite IH. reflexivity.
  - destruct (split_slash_cons r) as (h & t & Hs). rewrite Hs in *.
    cbn [existsb has_nul] in *. rewrite IH. apply orb_assoc.
Qed.

Lemma has_nul_join_slash (comps : list string) :
  has_nul (join_slash comps) = existsb has_nul comps.
Proof.
  induction comps as [|c comps IH]; [reflexivity|].
  destruct comps as [|d comps]; [cbn; rewrite orb_false_r; reflexivity|].
  rewrite join_slash_cons, has_nul_app. cbn [has_nul].
  change (Ascii.eqb "/" zero) with false. cbn [orb]. rewrite IH. reflexivity.
Qed.

Lemma step_nul_free (n : nat) (acc : list string) (comp : string) :
  existsb has_nul acc = false → has_nul comp = false →
  existsb has_nul (normpath_step n acc comp) = false.
Proof.
  intros Hacc Hc. unfold normpath_step.
  destruct (String.eqb comp "" || String.eqb comp "."); [exact Hacc|].
  match goal with |- existsb _ (if ?b then _ else _) = _ => destruct b end.
  - cbn [existsb]. rewrite Hc, Hacc. reflexivity.
  - destruct acc as [|last acc]; [reflexivity|].
    cbn [existsb] in Hacc. apply orb_false_iff in Hacc. apply Hacc.
Qed.

Lemma fold_nul_free (n : nat) (comps acc : list string) :
  existsb has_nul acc = false → existsb has_nul comps = false →
  existsb has_nul (fold_left (normpath_step n) comps acc) = false.
Proof.
  revert acc. induction comps as [|c comps IH]; intros acc Hacc Hcomps; [exact Hacc|].
  cbn [existsb] in Hcomps. apply orb_false_iff in Hcomps as [Hc Hrest].
  cbn [fold_left]. apply IH; [|exact Hrest]. apply step_nul_free; assumption.
Qed.

Lemma existsb_reversed {A : Type} (f : A → bool) (l : list A) :
  existsb f (rev l) = existsb f l.
Proof.
  induction l as [|x l IH]; [reflexivity|].
  cbn [rev existsb]. rewrite existsb_app, IH. cbn [existsb].
  rewrite orb_false_r. apply orb_comm.
Qed.

(** [normpath] puts no NUL into a path. *)
Lemma has_nul_normpath (p : string) : has_nul p = false → has_nul (normpath p) = false.
Proof.
  intros Hp. unfold normpath. destruct (String.eqb p ""); [reflexivity|]. cbv zeta.
  match goal with |- context [join_slash ?l] => set (comps := l) end.
  assert (Hc : has_nul (join_slash comps) = false).
  { rewrite has_nul_join_slash. subst comps. rewrite existsb_reversed.
    apply fold_nul_free; [reflexivity|]. rewrite <- has_nul_split. exact Hp. }
  assert (Hif : ∀ s, has_nul s = false → has_nul (if String.eqb s "" then "." else s) = false).
  { intros s Hs. destruct (String.eqb s ""); [reflexivity|exact Hs]. }
  destruct (initial_slashes p) as [|[|n]]; apply Hif;
    [exact Hc|rewrite has_nul_app, Hc; reflexivity..].
Qed.

(** The components that count tell whether a path has a NUL. *)
Lemma has_nul_essential (s : string) : has_nul s = existsb has_nul (essential s).
Proof.
  rewrite has_nul_split. unfold essential.
  induction (split_slash s) as [|c comps IH]; [reflexivity|].
  cbn [existsb List.filter].
  destruct (String.eqb c "" || String.eqb c ".") eqn:Hc; cbn [negb].
  - apply orb_true_iff in Hc as [Hc | Hc]; apply String.eqb_eq in Hc as ->; exact IH.
  - cbn [existsb]. rewrite IH. reflexivity.
Qed.

(** *** [realpath] *)

Lemma realpath_absolute (cwd y : string) :
  startswith_slash y = true →
  realpath cwd y = if has_nul y then Raise ValueError else Ok (resolve cwd y).
Proof. intros Hy. unfold realpath. rewrite Hy. reflexivity. Qed.

Lemma canonical_absolute (q : string) : canonical q → startswith_slash q = true.
Proof. intros (names & _ & ->). reflexivity. Qed.

Lemma canonical_nonempty (q : string) : canonical q → nonempty q = true.
Proof. intros (names & _ & ->). reflexivity. Qed.

Lemma abspath_canonical (cwd q : string) : canonical q → abspath cwd q = q.
Proof.
  intros (names & Hn & ->). unfold abspath. cbn [startswith_slash Ascii.eqb].
  change (Ascii.eqb "/" "/") with true. cbv iota.
  apply normpath_canonical. exact Hn.
Qed.

Lemma resolve_canonical (cwd q : string) : canonical q → resolve cwd q = q.
Proof.
  intros Hq. unfold resolve. rewrite (abspath_canonical cwd q Hq).
  destruct Hq as (names & Hn & ->).
  pose proof (join_names_first names Hn) as Hf.
  destruct (join_slash names) as [|c r]; [reflexivity|].
  cbn in Hf. destruct c as [[] [] [] [] [] [] [] []]; try reflexivity; discriminate.
Qed.

Lemma realpath_canonical (cwd q : string) :
  canonical q → has_nul q = false → realpath cwd q = Ok q.
Proof.
  intros Hq Hn. rewrite (realpath_absolute cwd q (canonical_absolute q Hq)), Hn.
  rewrite (resolve_canonical cwd q Hq). reflexivity.
Qed.

Lemma join_absolute (cwd x : string) :
  startswith_slash cwd = true → startswith_slash (join cwd x) = true.
Proof.
  intros Hcwd. unfold join. destruct (startswith_slash x) eqn:Hx; [exact Hx|].
  destruct cwd as [|c cwd]; [discriminate|].
  destruct (String.eqb (String c cwd) "" || endswith_slash (String c cwd));
    rewrite !string_app_cons; exact Hcwd.
Qed.

(** Under an absolute working directory, [realpath] looks up an absolute
    path and returns a canonical path without NUL. *)
Lemma realpath_posix (cwd p r : string) :
  startswith_slash cwd = true → realpath cwd p = Ok r → canonical r ∧ has_nul r = false.
Proof.
  intros Hcwd.
  assert (Habs : ∀ y, startswith_slash y = true → realpath cwd y = Ok r →
                      canonical r ∧ has_nul r = false).
  { intros y Hy. rewrite (realpath_absolute cwd y Hy).
    destruct (has_nul y) eqn:Hn; [discriminate|]. intros [= <-].
    destruct (resolve_absolute cwd y Hy) as (names & Hnames & Hr & Hnul).
    split; [exists names; split; assumption|].
    rewrite Hnul. apply has_nul_normpath, Hn. }
  destruct (startswith_slash p) eqn:Hp; [apply Habs, Hp|].
  assert (Hrel : realpath cwd p = realpath cwd (join cwd p)).
  { unfold realpath, resolve, abspath. rewrite Hp, (join_absolute cwd p Hcwd). reflexivity. }
  rewrite Hrel. apply Habs, join_absolute, Hcwd.
Qed.

(** The root directory a POSIX platform normalizes against. *)
Lemma posix_base (cwd : string) (environ : gmap string string) (root : option string) :
  ∃ base,
    match root with
    | Some d => if nonempty d then Ok d else os_getcwd (posix_os cwd environ)
    | None => os_getcwd (posix_os cwd environ)
    end = Ok base
    ∧ (base = cwd ∨ root = Some base).
Proof.
  destruct root as [d|]; [destruct (nonempty d)|]; cbn [posix_os os_getcwd]; eauto.
Qed.

(** Normalizing a non-empty path on POSIX gives a canonical path. *)
Lemma abs_norm_posix (cwd : string) (environ : gmap string string)
    (root : option string) (raw q : string) :
  isabs cwd = true → nonempty raw = true →
  _abs_norm (posix_os cwd environ) root (PStr raw) = Ok q →
  canonical q ∧ has_nul q = false.
Proof.
  intros Hcwd Hraw. unfold _abs_norm. cbn [truthy]. fold (nonempty raw). rewrite Hraw.
  cbn [negb]. destruct (posix_base cwd environ root) as (base & -> & _).
  cbn [res_bind posix_os os_path_isabs os_path_join os_path_abspath os_path_realpath
       os_name]. cbv zeta.
  change (String.eqb "posix" "nt") with false. cbv iota.
  match goal with |- res_bind (realpath cwd ?x) _ = _ → _ => set (p := x) end.
  destruct (realpath cwd p) as [r|e] eqn:Hr; cbn [res_bind]; [|discriminate].
  destruct (realpath_posix cwd p r Hcwd Hr) as [Hcan Hnul].
  rewrite (abspath_canonical cwd r Hcan). intros [= <-]. split; assumption.
Qed.

Lemma abs_norm_canonical (cwd : string) (environ : gmap string string)
    (root : option string) (q : string) :
  canonical q → has_nul q = false →
  _abs_norm (posix_os cwd environ) root (PStr q) = Ok q.
Proof.
  intros Hq Hn. unfold _abs_norm. cbn [truthy]. fold (nonempty q).
  rewrite (canonical_nonempty q Hq).
  cbn [negb]. destruct (posix_base cwd environ root) as (base & -> & _).
  cbn [res_bind posix_os os_path_isabs os_path_join os_path_abspath os_path_realpath
       os_name]. cbv zeta.
  change (String.eqb "posix" "nt") with false. cbv iota.
  unfold isabs. rewrite (canonical_absolute q Hq).
  rewrite (realpath_canonical cwd q Hq Hn). cbn [res_bind].
  rewrite (abspath_canonical cwd q Hq). reflexivity.
Qed.

Lemma abs_norm_empty (os : OS) (root : option string) (raw : string) (q : string) :
  nonempty raw = false → _abs_norm os root (PStr raw) = Ok q → q = "" ∧ raw = "".
Proof.
  intros Hraw. unfold _abs_norm. cbn [truthy]. fold (nonempty raw). rewrite Hraw.
  cbn [negb]. intros [= <-]. split; [reflexivity|].
  unfold nonempty in Hraw. apply negb_false_iff, String.eqb_eq in Hraw. exact Hraw.
Qed.

Lemma pick_path_given (m : gmap string PyVal) (p : string) :
  nonempty p = true → _pick_path_from_kwargs (<["path" := PStr p]> m) = Ok (PStr p).
Proof.
  intros Hp. unfold _pick_path_from_kwargs. cbv zeta.
  rewrite (dict_get_some _ "path" (PStr p)) by apply lookup_insert_eq.
  rewrite py_or_truthy by (rewrite truthy_str; exact Hp).
  rewrite truthy_str, Hp. reflexivity.
Qed.

(** X18.  The canonical path is a fixed point of path normalization.  On a
    POSIX platform without symbolic links and with an absolute working
    directory, whatever [_abs_norm] returns for a text path is returned
    unchanged when it is normalized again, against any root directory; and
    for a non-empty path the result is a single slash followed by names
    (none empty, none [.] or [..]) separated by single slashes. *)
Theorem canonical_path_is_a_fixed_point
    (cwd : string) (environ : gmap string string) (root root' : option string)
    (raw q : string) :
  isabs cwd = true →
  _abs_norm (posix_os cwd environ) root (PStr raw) = Ok q →
  _abs_norm (posix_os cwd environ) root' (PStr q) = Ok q ∧
  (nonempty raw = true → canonical q).
Proof.
  intros Hcwd Habs. destruct (nonempty raw) eqn:Hraw.
  - destruct (abs_norm_posix cwd environ root raw q Hcwd Hraw Habs) as [Hq Hn].
    split; [apply abs_norm_canonical; assumption|intros _; exact Hq].
  - destruct (abs_norm_empty _ _ _ _ Hraw Habs) as [-> ->].
    split; [reflexivity|discriminate].
Qed.

(** X19.  The request handed on resolves to the same path.  On such a
    platform, the keyword arguments the coordinator passes to the inherited
    start have the canonical path of the request as their own canonical
    path, for a manager with any root directory: a request made again with
    the arguments that were handed on (as a restart does) gets the same
    canonical path, hence the same identity. *)
Theorem handed_on_request_has_the_same_path
    (cwd : string) (environ : gmap string string) (self self' : Self)
    (kw : gmap string PyVal) (abs : string) :
  isabs cwd = true →
  canonical_path (posix_os cwd environ) self kw = Ok abs →
  canonical_path (posix_os cwd environ) self' (outgoing_kwargs kw abs) = Ok abs.
Proof.
  intros Hcwd Hcan.
  destruct (canonical_path_inv _ _ _ _ Hcan) as (raw & Hpick & Habs).
  destruct (truthy raw) eqn:Hraw.
  - destruct raw as [|raw| |];
      try (exfalso; unfold _abs_norm in Habs; rewrite Hraw in Habs;
           destruct (posix_base cwd environ (self_root_dir self)) as (base & Hb & _);
           rewrite Hb in Habs; discriminate Habs).
    rewrite truthy_str in Hraw.
    destruct (abs_norm_posix cwd environ _ raw abs Hcwd Hraw Habs) as [Hq Hn].
    unfold outgoing_kwargs. rewrite (canonical_nonempty abs Hq).
    unfold canonical_path.
    rewrite (pick_path_given _ abs (canonical_nonempty abs Hq)). cbn [res_bind].
    apply abs_norm_canonical; assumption.
  - assert (Hempty : ∀ root, _abs_norm (posix_os cwd environ) root raw = Ok "").
    { intros root. unfold _abs_norm. rewrite Hraw. reflexivity. }
    rewrite Hempty in Habs. injection Habs as <-.
    unfold outgoing_kwargs. cbn [nonempty String.eqb negb].
    unfold canonical_path. rewrite pick_path_pop, Hpick. cbn [res_bind]. apply Hempty.
Qed.

Lemma realpath_of_absolute (cwd cwd' x : string) :
  startswith_slash x = true → realpath cwd x = realpath cwd' x.
Proof. intros Hx. unfold realpath, resolve, abspath. rewrite Hx. reflexivity. Qed.

(** After [realpath] of an absolute path, [abspath] changes nothing. *)
Lemma abspath_after_realpath (cwd x : string) :
  startswith_slash x = true →
  res_bind (realpath cwd x) (fun p => Ok (abspath cwd p)) = realpath cwd x.
Proof.
  intros Hx. rewrite (realpath_absolute cwd x Hx).
  destruct (has_nul x); [reflexivity|]. cbn [res_bind].
  destruct (resolve_absolute cwd x Hx) as (names & Hn & Hr & _).
  rewrite (abspath_canonical cwd (resolve cwd x)); [reflexivity|].
  exists names. split; assumption.
Qed.

(** X20.  With an absolute server root the working directory does not
    matter.  On POSIX platforms without symbolic links, when the root
    directory of the server is an absolute path, the canonical path of any
    text path (relative or absolute) is the same whatever the working
    directory and the environment of the process: identities survive a
    restart of the server from another directory. *)
Theorem absolute_root_makes_cwd_irrelevant
    (cwd cwd' : string) (environ environ' : gmap string string) (root raw : string) :
  isabs root = true →
  _abs_norm (posix_os cwd environ) (Some root) (PStr raw)
  = _abs_norm (posix_os cwd' environ') (Some root) (PStr raw).
Proof.
  intros Hroot. unfold _abs_norm. destruct (negb (truthy (PStr raw))); [reflexivity|].
  cbn [posix_os os_path_isabs os_path_join os_path_abspath os_path_realpath
       os_name os_getcwd]. cbv zeta.
  assert (Hne : nonempty root = true) by (destruct root; [discriminate|reflexivity]).
  rewrite Hne.
  change (String.eqb "posix" "nt") with false. cbv iota.
  cbn [res_bind].
  match goal with |- res_bind (realpath cwd ?x) _ = _ => set (p := x) end.
  assert (Hp : startswith_slash p = true).
  { subst p. unfold isabs. destruct (startswith_slash raw) eqn:Hraw; [exact Hraw|].
    apply join_absolute. exact Hroot. }
  rewrite (abspath_after_realpath cwd p Hp), (abspath_after_realpath cwd' p Hp).
  apply realpath_of_absolute. exact Hp.
Qed.

Lemma split_slash_app_slash (a b : string) :
  split_slash (a +:+ String "/" b) = (split_slash a ++ split_slash b)%list.
Proof.
  induction a as [|c a IH]; [reflexivity|].
  rewrite string_app_cons. cbn [split_slash]. destruct (Ascii.eqb c "/").
  - rewrite IH. reflexivity.
  - rewrite IH. destruct (split_slash_cons a) as (h & t & ->). reflexivity.
Qed.

Lemma fold_essential (n : nat) (comps acc : list string) :
  fold_left (normpath_step n) comps acc
  = fold_left (normpath_step n)
      (List.filter (fun c => negb (String.eqb c "" || String.eqb c ".")) comps) acc.
Proof.
  revert acc. induction comps as [|c comps IH]; intros acc; [reflexivity|].
  cbn [fold_left List.filter].
  destruct (String.eqb c "" || String.eqb c ".") eqn:Hc; cbn [negb].
  - unfold normpath_step at 2. rewrite Hc. apply IH.
  - cbn [fold_left]. apply IH.
Qed.

(** [normpath] reads a path for its leading slashes and the components
    that count. *)
Lemma normpath_essential (a b : string) :
  String.eqb a "" = false → String.eqb b "" = false →
  initial_slashes a = initial_slashes b → essential a = essential b →
  normpath a = normpath b.
Proof.
  intros Ha Hb Hn He. unfold normpath. rewrite Ha, Hb. cbv zeta.
  rewrite (fold_essential _ (split_slash a)), (fold_essential _ (split_slash b)).
  fold (essential a). fold (essential b). rewrite Hn, He. reflexivity.
Qed.

Lemma essential_app_slash (a b : string) :
  essential (a +:+ String "/" b) = (essential a ++ essential b)%list.
Proof. unfold essential. rewrite split_slash_app_slash. apply List.filter_app. Qed.

Lemma essential_slash (b : string) : essential (String "/" b) = essential b.
Proof. reflexivity. Qed.

Lemma endswith_slash_split (a : string) :
  endswith_slash a = true → ∃ a', a = a' +:+ "/".
Proof.
  induction a as [|c a IH]; [discriminate|].
  destruct a as [|d a].
  - cbn. intros Hc. apply Ascii.eqb_eq in Hc as ->. exists "". reflexivity.
  - intros H. destruct (IH H) as [a' Ha']. exists (String c a').
    rewrite string_app_cons, <- Ha'. reflexivity.
Qed.

Lemma app_assoc_slash (a b : string) : (a +:+ "/") +:+ b = a +:+ String "/" b.
Proof. induction a as [|c a IH]; [reflexivity|]. rewrite !string_app_cons, IH. reflexivity. Qed.

(** Joining a relative path to an absolute base puts a base and a slash
    before it. *)
Lemma join_relative (base : string) :
  startswith_slash base = true →
  ∃ b, (b = "" ∨ startswith_slash b = true) ∧
    ∀ raw, startswith_slash raw = false → join base raw = b +:+ String "/" raw.
Proof.
  intros Hbase. destruct base as [|c base]; [discriminate|].
  destruct (endswith_slash (String c base)) eqn:He.
  - destruct (endswith_slash_split _ He) as [b Hb]. exists b. split.
    + destruct b as [|d b]; [left; reflexivity|right].
      rewrite string_app_cons in Hb. injection Hb as <- _. exact Hbase.
    + intros raw Hraw. unfold join. rewrite Hraw, He. cbn [String.eqb orb].
      rewrite Hb. apply app_assoc_slash.
  - exists (String c base). split; [right; exact Hbase|].
    intros raw Hraw. unfold join. rewrite Hraw, He. reflexivity.
Qed.

Lemma initial_slashes_two (c : ascii) (t : string) :
  Ascii.eqb c "/" = false → initial_slashes (String "/" (String "/" (String c t))) = 2%nat.
Proof.
  intros Hc. destruct c as [[] [] [] [] [] [] [] []]; try reflexivity; discriminate.
Qed.

Lemma initial_slashes_join (b r1 r2 : string) :
  b = "" ∨ startswith_slash b = true →
  startswith_slash r1 = false → startswith_slash r2 = false →
  String.eqb r1 "" = false → String.eqb r2 "" = false →
  initial_slashes (b +:+ String "/" r1) = initial_slashes (b +:+ String "/" r2).
Proof.
  intros Hb H1 H2 N1 N2.
  destruct r1 as [|c1 r1]; [discriminate|]. destruct r2 as [|c2 r2]; [discriminate|].
  cbn in H1, H2.
  destruct Hb as [->|Hb].
  { rewrite !string_app_empty, !initial_slashes_one by assumption. reflexivity. }
  destruct b as [|x b]; [discriminate|]. cbn in Hb. apply Ascii.eqb_eq in Hb as ->.
  destruct b as [|y b].
  - rewrite !string_app_cons, !string_app_empty, !initial_slashes_two by assumption. reflexivity.
  - destruct b as [|z b].
    + rewrite !string_app_cons, !string_app_empty.
      destruct y as [[] [] [] [] [] [] [] []]; reflexivity.
    + rewrite !string_app_cons.
      destruct y as [[] [] [] [] [] [] [] []]; try reflexivity;
      destruct z as [[] [] [] [] [] [] [] []]; reflexivity.
Qed.

(** X21.  Spellings of a relative path that differ only in empty and dot
    components get the same canonical path.  On POSIX platforms without
    symbolic links and with an absolute server root, two non-empty relative
    paths with the same components other than empty ones and dots (as
    [notebooks/a.ipynb], [./notebooks/a.ipynb], [notebooks//a.ipynb] and
    [notebooks/./a.ipynb/]) are normalized to the same canonical path, so
    they resolve to the same identity. *)
Theorem dot_and_empty_components_do_not_matter
    (cwd : string) (environ : gmap string string) (root raw1 raw2 : string) :
  isabs root = true →
  nonempty raw1 = true → nonempty raw2 = true →
  isabs raw1 = false → isabs raw2 = false →
  essential raw1 = essential raw2 →
  _abs_norm (posix_os cwd environ) (Some root) (PStr raw1)
  = _abs_norm (posix_os cwd environ) (Some root) (PStr raw2).
Proof.
  intros Hroot N1 N2 R1 R2 He. unfold _abs_norm. cbn [truthy].
  fold (nonempty raw1). fold (nonempty raw2). rewrite N1, N2. cbn [negb].
  cbn [posix_os os_path_isabs os_path_join os_path_abspath os_path_realpath
       os_name os_getcwd]. cbv zeta.
  assert (Hne : nonempty root = true) by (destruct root; [discriminate|reflexivity]).
  unfold isabs in *. rewrite Hne, R1, R2.
  change (String.eqb "posix" "nt") with false. cbv iota.
  assert (Hj : normpath (join root raw1) = normpath (join root raw2)).
  { destruct (join_relative root Hroot) as (b & Hb & Hjoin).
    rewrite (Hjoin raw1 R1), (Hjoin raw2 R2).
    apply normpath_essential.
    - destruct b; reflexivity.
    - destruct b; reflexivity.
    - apply initial_slashes_join; try assumption; apply negb_true_iff; assumption.
    - rewrite !essential_app_slash, He. reflexivity. }
  assert (Hn : has_nul (join root raw1) = has_nul (join root raw2)).
  { destruct (join_relative root Hroot) as (b & _ & Hjoin).
    rewrite (Hjoin raw1 R1), (Hjoin raw2 R2), !has_nul_app. cbn [has_nul].
    rewrite (has_nul_essential raw1), (has_nul_essential raw2), He. reflexivity. }
  cbn [res_bind].
  pose proof (join_absolute root raw1 Hroot) as A1.
  pose proof (join_absolute root raw2 Hroot) as A2.
  rewrite (abspath_after_realpath cwd _ A1), (abspath_after_realpath cwd _ A2).
  rewrite (realpath_absolute cwd _ A1), (realpath_absolute cwd _ A2), Hn.
  unfold resolve, abspath. rewrite A1, A2, Hj. reflexivity.
Qed.

End CanonicalPaths.

(** * Every identity is the text of a version-5 UUID *)

Section IdentityTexts.
Import IdentityText.
Local Open Scope N_scope.

Lemma nibble_lt (x k : N) : N.land (N.shiftr x k) 0xf < 16.
Proof.
  change 0xf with (N.ones 4). rewrite N.land_ones.
  apply N.mod_lt. discriminate.
Qed.

Lemma hex_digit_lower (d : N) : d < 16 → is_lower_hex (Uuid.hex_digit d) = true.
Proof.
  intros H.
  assert (Hd : d = 0 ∨ d = 1 ∨ d = 2 ∨ d = 3 ∨ d = 4 ∨ d = 5 ∨ d = 6 ∨ d = 7 ∨ d = 8 ∨
               d = 9 ∨ d = 10 ∨ d = 11 ∨ d = 12 ∨ d = 13 ∨ d = 14 ∨ d = 15) by lia.
  repeat (destruct Hd as [-> | Hd]; [reflexivity|]). subst. reflexivity.
Qed.

Lemma nibble_lower (x k : N) :
  is_lower_hex (Uuid.hex_digit (N.land (N.shiftr x k) 0xf)) = true.
Proof. apply hex_digit_lower, nibble_lt. Qed.

Lemma testbit_small (a i : N) : a < 16 → 4 <= i → N.testbit a i = false.
Proof.
  intros Ha Hi. destruct (N.eq_dec a 0) as [->|Hz]; [apply N.bits_0|].
  apply N.bits_above_log2.
  assert (N.log2 a < 4); [|lia].
  apply N.log2_lt_pow2; [lia|exact Ha].
Qed.

Lemma set_version_bit (x i : N) :
  N.testbit (Uuid.set_version 5 x) i
  = (((N.testbit x i && negb (N.testbit (N.shiftl 0xc000 48) i)
       || N.testbit (N.shiftl 0x8000 48) i)
      && negb (N.testbit (N.shiftl 0xf000 64) i))
     || N.testbit (N.shiftl 5 76) i)%bool.
Proof.
  unfold Uuid.set_version. cbv zeta.
  rewrite N.lor_spec, N.ldiff_spec, N.lor_spec, N.ldiff_spec. reflexivity.
Qed.

(** The version digit. *)
Lemma version_nibble (x : N) : N.land (N.shiftr (Uuid.set_version 5 x) 76) 0xf = 5.
Proof.
  apply N.bits_inj. intros i.
  rewrite N.land_spec, N.shiftr_spec', set_version_bit.
  destruct (N.lt_ge_cases i 4) as [Hi|Hi].
  - assert (Hd : i = 0 ∨ i = 1 ∨ i = 2 ∨ i = 3) by lia.
    destruct Hd as [-> | [-> | [-> | ->]]];
      match goal with |- context [N.testbit x ?k] => generalize (N.testbit x k) end;
      intros []; vm_compute; reflexivity.
  - rewrite (testbit_small 0xf i), (testbit_small 5 i) by (try exact Hi; reflexivity).
    apply andb_false_r.
Qed.

(** The variant digit. *)
Lemma variant_nibble (x : N) :
  ∃ d, N.land (N.shiftr (Uuid.set_version 5 x) 60) 0xf = d ∧
    (d = 8 ∨ d = 9 ∨ d = 10 ∨ d = 11).
Proof.
  eexists. split; [reflexivity|].
  pose proof (nibble_lt (Uuid.set_version 5 x) 60) as Hlt.
  assert (H3 : N.testbit (N.land (N.shiftr (Uuid.set_version 5 x) 60) 0xf) 3 = true).
  { rewrite N.land_spec, N.shiftr_spec', set_version_bit.
    generalize (N.testbit x (3 + 60)). intros []; vm_compute; reflexivity. }
  assert (H2 : N.testbit (N.land (N.shiftr (Uuid.set_version 5 x) 60) 0xf) 2 = false).
  { rewrite N.land_spec, N.shiftr_spec', set_version_bit.
    generalize (N.testbit x (2 + 60)). intros []; vm_compute; reflexivity. }
  revert Hlt H3 H2.
  generalize (N.land (N.shiftr (Uuid.set_version 5 x) 60) 0xf). intros d Hlt H3 H2.
  assert (Hd : d = 0 ∨ d = 1 ∨ d = 2 ∨ d = 3 ∨ d = 4 ∨ d = 5 ∨ d = 6 ∨ d = 7 ∨ d = 8 ∨
               d = 9 ∨ d = 10 ∨ d = 11 ∨ d = 12 ∨ d = 13 ∨ d = 14 ∨ d = 15) by lia.
  repeat (destruct Hd as [-> | Hd];
          [first [discriminate H3|discriminate H2|auto]|]).
  subst. discriminate H2.
Qed.

(** The text of a UUID, digit by digit. *)
Lemma str_digits (u : N) :
  Uuid.str u
  = (let h k := Uuid.hex_digit (N.land (N.shiftr u (4 * N.of_nat k)) 0xf) in
     String (h 31%nat) (String (h 30%nat) (String (h 29%nat) (String (h 28%nat)
     (String (h 27%nat) (String (h 26%nat) (String (h 25%nat) (String (h 24%nat)
     EmptyString)))))))
     +:+ "-" +:+
     String (h 23%nat) (String (h 22%nat) (String (h 21%nat) (String (h 20%nat)
     EmptyString)))
     +:+ "-" +:+
     String (h 19%nat) (String (h 18%nat) (String (h 17%nat) (String (h 16%nat)
     EmptyString)))
     +:+ "-" +:+
     String (h 15%nat) (String (h 14%nat) (String (h 13%nat) (String (h 12%nat)
     EmptyString)))
     +:+ "-" +:+
     String (h 11%nat) (String (h 10%nat) (String (h 9%nat) (String (h 8%nat)
     (String (h 7%nat) (String (h 6%nat) (String (h 5%nat) (String (h 4%nat)
     (String (h 3%nat) (String (h 2%nat) (String (h 1%nat) (String (h 0%nat)
     EmptyString))))))))))))%string.
Proof. reflexivity. Qed.

(** X22.  Every identity is the text of a version-5 UUID.  For every
    canonical path, kernel type and namespace, the identity the resolver
    computes is 36 characters long: groups of 8, 4, 4, 4 and 12 lower-case
    hexadecimal digits separated by hyphens, with version digit 5 and a
    variant digit among 8, 9, a, b. *)
Theorem identity_is_version5_text (abs_path : string) (kernel_name : PyVal) (ns : UUID) :
  version5_text (_stable_kernel_id abs_path kernel_name ns) ∧
  String.length (_stable_kernel_id abs_path kernel_name ns) = 36%nat.
Proof.
  unfold _stable_kernel_id, Uuid.uuid5. cbv zeta.
  match goal with |- context [Uuid.set_version 5 ?x] => generalize x end.
  intros x. rewrite str_digits. cbv beta zeta.
  change (4 * N.of_nat 19) with 76. change (4 * N.of_nat 15) with 60.
  rewrite version_nibble.
  destruct (variant_nibble x) as (d & -> & Hd).
  split; [|reflexivity].
  eexists _, _, _, _, _, _. split; [reflexivity|].
  repeat (split; [reflexivity|]).
  split.
  - destruct Hd as [-> | [-> | [-> | ->]]]; reflexivity.
  - cbv [all_lower_hex String.app]. rewrite !nibble_lower. reflexivity.
Qed.

End IdentityTexts.

(** * The namespace the installer exports *)

Section DefaultPrefix.
Import Uuid Setup.

Lemma installer_namespace_defaul (name : string) :
  installer_namespace name = defaul (String "t" (String "-" name)).
Proof. reflexivity. Qed.

Lemma remove_urn_defaul (r : string) :
  ∃ r', remove_substring "urn:" (defaul r) = defaul r'.
Proof. eexists. unfold remove_substring, defaul. cbn. reflexivity. Qed.

Lemma remove_uuid_defaul (r : string) :
  ∃ r', remove_substring "uuid:" (defaul r) = defaul r'.
Proof. eexists. unfold remove_substring, defaul. cbn. reflexivity. Qed.

Lemma remove_hyphen_defaul (r : string) :
  ∃ r', remove_substring "-" (defaul r) = defaul r'.
Proof. eexists. unfold remove_substring, defaul. cbn. reflexivity. Qed.

Lemma lstrip_keeps_tail (p : ascii → bool) (c : ascii) (t xs : list ascii) :
  p c = false →
  ∃ xs', lstrip p (string_of_list_ascii (xs ++ c :: t)%list)
         = string_of_list_ascii (xs' ++ c :: t)%list.
Proof.
  intros Hc. induction xs as [|x xs IH].
  - exists []. cbn. rewrite Hc. reflexivity.
  - cbn. destruct (p x).
    + exact IH.
    + exists (x :: xs). reflexivity.
Qed.

Lemma strip_defaul (p : ascii → bool) (r : string) :
  p "d"%char = false → p "l"%char = false →
  ∃ r', strip p (defaul r) = defaul r'.
Proof.
  intros Hd Hl. unfold strip.
  assert (H1 : lstrip p (defaul r) = defaul r) by (unfold defaul; cbn; rewrite Hd; reflexivity).
  rewrite H1. unfold string_rev at 2.
  change (list_ascii_of_string (defaul r))
    with ("d"%char :: "e"%char :: "f"%char :: "a"%char :: "u"%char :: "l"%char
          :: list_ascii_of_string r).
  cbn [rev]. rewrite <- !app_assoc. cbn [app].
  destruct (lstrip_keeps_tail p "l"%char
              ["u"%char; "a"%char; "f"%char; "e"%char; "d"%char]
              (rev (list_ascii_of_string r)) Hl) as [xs' ->].
  unfold string_rev. rewrite list_ascii_of_string_of_list_ascii.
  rewrite rev_app_distr. cbn [rev app].
  exists (string_of_list_ascii (rev xs')). reflexivity.
Qed.

Lemma int16_defaul (r : string) : int16 (defaul r) = None.
Proof.
  unfold int16.
  destruct (strip_defaul is_space r) as [r' ->]; [reflexivity..|].
  reflexivity.
Qed.

Lemma UUID_of_hex_defaul (r : string) : UUID_of_hex (defaul r) = None.
Proof.
  unfold UUID_of_hex. cbv zeta.
  destruct (remove_urn_defaul r) as [r1 ->].
  destruct (remove_uuid_defaul r1) as [r2 ->].
  destruct (strip_defaul is_brace r2) as [r3 ->]; [reflexivity..|].
  destruct (remove_hyphen_defaul r3) as [r4 ->].
  rewrite int16_defaul.
  destruct (negb _); reflexivity.
Qed.

End DefaultPrefix.

(** X8.  The namespace the installer exports is never a UUID.  Whatever the
    name of the virtual environment, the text [default-<name>] that the
    environment script and the activate script put in STICKYKM_NAMESPACE is
    rejected by the UUID constructor; so with that setting the namespace
    resolves to the built-in default, and identities are those of the
    default namespace: the installer's per-environment namespace isolates
    nothing. *)
Theorem installer_namespace_is_never_a_uuid (venv_name : string) (os : OS) :
  (∀ v, uuid_UUID os v = Uuid.UUID_of_hex v) →
  os_environ os !! "STICKYKM_NAMESPACE" = Some (Setup.installer_namespace venv_name) →
  Uuid.UUID_of_hex (Setup.installer_namespace venv_name) = None ∧
  _namespace os = Ok DEFAULT_NAMESPACE ∧
  ∀ abs kn, _propose_id os abs kn = Ok (_stable_kernel_id abs kn DEFAULT_NAMESPACE).
Proof.
  intros Huuid Henv.
  assert (Hnone : Uuid.UUID_of_hex (Setup.installer_namespace venv_name) = None).
  { rewrite installer_namespace_defaul. apply UUID_of_hex_defaul. }
  assert (Hns : _namespace os = Ok DEFAULT_NAMESPACE).
  { unfold _namespace. rewrite Henv. cbv zeta.
    rewrite installer_namespace_defaul at 1. cbn [nonempty Setup.defaul String.eqb negb].
    rewrite Huuid, Hnone. reflexivity. }
  split; [exact Hnone|]. split; [exact Hns|].
  intros abs kn. unfold _propose_id. rewrite Hns. reflexivity.
Qed.

(** * [config.py]: cleaning the configuration *)

Section TextFacts.
Import Txt.



Lemma split_no_newline (s : Text) : Forall no_newline (split_lines s).
Proof.
  induction s as [|c r IH]; cbn [split_lines].
  - constructor; [intros []|constructor].
  - destruct (N.eqb_spec c newline) as [->|Hc].
    + constructor; [intros []|exact IH].
    + destruct (split_lines r) as [|l ls]; [repeat constructor; intros [H|[]]; congruence|].
      inversion IH as [|? ? Hl Hls]; subst. constructor; [|exact Hls].
      intros [H|H]; [congruence|exact (Hl H)].
Qed.

Lemma split_line (l : Text) : no_newline l → split_lines l = [l].
Proof.
  induction l as [|c l IH]; intros Hl; [reflexivity|].
  cbn [split_lines]. destruct (N.eqb_spec c newline) as [->|Hc].
  - exfalso. apply Hl. left. reflexivity.
  - rewrite IH; [reflexivity|]. intros H. apply Hl. right. exact H.
Qed.

Lemma split_app_newline (l r : Text) :
  no_newline l → split_lines (l ++ newline :: r)%list = l :: split_lines r.
Proof.
  induction l as [|c l IH]; intros Hl.
  - cbn. reflexivity.
  - cbn [app split_lines]. destruct (N.eqb_spec c newline) as [->|Hc].
    + exfalso. apply Hl. left. reflexivity.
    + rewrite IH; [reflexivity|]. intros H. apply Hl. right. exact H.
Qed.

Lemma split_join (ls : list Text) :
  ls ≠ [] → Forall no_newline ls → split_lines (join_lines ls) = ls.
Proof.
  induction ls as [|l ls IH]; intros Hne Hls; [congruence|].
  inversion Hls as [|? ? Hl Hrest]; subst.
  destruct ls as [|l2 ls].
  - cbn. apply split_line. exact Hl.
  - change (join_lines (l :: l2 :: ls)) with (l ++ newline :: join_lines (l2 :: ls))%list.
    rewrite split_app_newline by exact Hl.
    rewrite IH; [reflexivity|discriminate|exact Hrest].
Qed.

Lemma startswith_app_newline (sub l r : Text) :
  no_newline sub → startswith sub (l ++ newline :: r)%list = startswith sub l.
Proof.
  revert sub. induction l as [|c l IH]; intros [|p ps] Hsub; cbn; try reflexivity.
  - destruct (N.eqb_spec p newline) as [->|Hp]; [|reflexivity].
    exfalso. apply Hsub. left. reflexivity.
  - rewrite IH; [reflexivity|]. intros H. apply Hsub. right. exact H.
Qed.

Lemma contains_nil (sub : Text) : sub ≠ [] → contains sub [] = false.
Proof. destruct sub; [congruence|reflexivity]. Qed.

Lemma contains_app_newline (sub l r : Text) :
  no_newline sub → sub ≠ [] →
  contains sub (l ++ newline :: r)%list = contains sub l || contains sub r.
Proof.
  intros Hsub Hne. induction l as [|c l IH].
  - rewrite contains_nil by exact Hne.
    change (contains sub ([] ++ newline :: r)%list)
      with (startswith sub ([] ++ newline :: r)%list || contains sub r).
    rewrite (startswith_app_newline sub [] r Hsub).
    destruct sub; [congruence|reflexivity].
  - change (contains sub ((c :: l) ++ newline :: r)%list)
      with (startswith sub ((c :: l) ++ newline :: r)%list || contains sub (l ++ newline :: r)%list).
    rewrite startswith_app_newline by exact Hsub. rewrite IH.
    cbn [contains]. rewrite orb_assoc. reflexivity.
Qed.

Lemma contains_join (sub : Text) (ls : list Text) :
  no_newline sub → sub ≠ [] →
  contains sub (join_lines ls) = existsb (contains sub) ls.
Proof.
  intros Hsub Hne. induction ls as [|l ls IH].
  - cbn. apply contains_nil. exact Hne.
  - destruct ls as [|l2 ls].
    + cbn. rewrite orb_false_r. reflexivity.
    + change (join_lines (l :: l2 :: ls)) with (l ++ newline :: join_lines (l2 :: ls))%list.
      rewrite contains_app_newline by assumption.
      rewrite IH. reflexivity.
Qed.

End TextFacts.

Section Cleaning.
Import Txt Config.

Ltac a_name :=
  split; [intros H; vm_compute in H; intuition discriminate|discriminate].

Lemma name_DarkPyonix : no_newline (text "DarkPyonix") ∧ text "DarkPyonix" ≠ [].
Proof. a_name. Qed.

Lemma name_kernel_manager :
  no_newline (text "StickyMappingKernelManager") ∧ text "StickyMappingKernelManager" ≠ [].
Proof. a_name. Qed.

Lemma name_session_manager :
  no_newline (text "StickySessionManager") ∧ text "StickySessionManager" ≠ [].
Proof. a_name. Qed.

(** A text mentions one of the three names exactly when one of its lines does. *)
Lemma is_marker_join (ls : list Text) : is_marker (join_lines ls) = existsb is_marker ls.
Proof.
  unfold is_marker.
  rewrite !contains_join by
    first [apply name_DarkPyonix|apply name_kernel_manager|apply name_session_manager].
  induction ls as [|l ls IH]; [reflexivity|].
  cbn [existsb]. rewrite <- IH.
  destruct (contains (text "DarkPyonix") l), (contains (text "StickyMappingKernelManager") l),
    (contains (text "StickySessionManager") l),
    (existsb (contains (text "DarkPyonix")) ls),
    (existsb (contains (text "StickyMappingKernelManager")) ls),
    (existsb (contains (text "StickySessionManager")) ls); reflexivity.
Qed.


Lemma is_marker_DarkPyonix (s : Text) :
  is_marker s = false → contains (text "DarkPyonix") s = false.
Proof. unfold is_marker. intros H. apply orb_false_iff in H as [H _].
  apply orb_false_iff in H as [H _]. exact H. Qed.

(** What the loop keeps: the lines gathered so far, then a subsequence of
    the lines read, none of which mentions a name. *)
Lemma clean_loop_kept (skip_block : bool) (new_lines lines : list Text) :
  ∃ kept, clean_loop skip_block new_lines lines = (new_lines ++ kept)%list ∧
    sublist kept lines ∧ Forall (fun l => is_marker l = false) kept.
Proof.
  revert skip_block new_lines.
  induction lines as [|line rest IH]; intros skip_block new_lines; cbn [clean_loop].
  - exists []. rewrite app_nil_r. repeat split; constructor.
  - destruct (is_marker line) eqn:Hm.
    { destruct (IH true new_lines) as (kept & -> & Hsub & Hall).
      exists kept. repeat split; [constructor|]; assumption. }
    destruct (skip_block && is_blank line).
    { destruct (IH skip_block new_lines) as (kept & -> & Hsub & Hall).
      exists kept. repeat split; [constructor|]; assumption. }
    cbv zeta.
    destruct (negb (if skip_block && negb (continues_block line) then false else skip_block)).
    + destruct (IH (if skip_block && negb (continues_block line) then false else skip_block)
                  (new_lines ++ [line])%list) as (kept & -> & Hsub & Hall).
      exists (line :: kept). rewrite <- app_assoc. repeat split.
      * constructor. exact Hsub.
      * constructor; assumption.
    + destruct (IH (if skip_block && negb (continues_block line) then false else skip_block)
                  new_lines) as (kept & -> & Hsub & Hall).
      exists kept. repeat split; [constructor|]; assumption.
Qed.

(** Without a line that mentions a name the loop keeps every line. *)
Lemma clean_loop_no_marker (new_lines lines : list Text) :
  existsb is_marker lines = false →
  clean_loop false new_lines lines = (new_lines ++ lines)%list.
Proof.
  revert new_lines. induction lines as [|line rest IH]; intros new_lines Hm.
  - cbn. rewrite app_nil_r. reflexivity.
  - cbn [existsb] in Hm. apply orb_false_iff in Hm as [Hl Hrest].
    cbn [clean_loop]. rewrite Hl. cbn [andb negb]. rewrite IH by exact Hrest.
    rewrite <- app_assoc. reflexivity.
Qed.

Lemma sublist_Forall' {A : Type} (P : A → Prop) (k l : list A) :
  sublist k l → Forall P l → Forall P k.
Proof.
  induction 1; intros Hl; [constructor|..].
  - inversion Hl; subst. constructor; auto.
  - inversion Hl; subst. auto.
Qed.

Lemma Forall_not_marker (ls : list Text) :
  Forall (fun l => is_marker l = false) ls → existsb is_marker ls = false.
Proof.
  induction 1 as [|l ls Hl _ IH]; [reflexivity|]. cbn. rewrite Hl, IH. reflexivity.
Qed.

(** The lines of a rewritten file. *)
Lemma clean_content_rewritten (content new : Text) :
  clean_content content = Rewritten new →
  ∃ kept, new = join_lines kept ∧ split_lines new = kept ∧ kept ≠ [] ∧
    kept = clean_loop false [] (split_lines content) ∧
    existsb (fun line => negb (is_blank line)) kept = true ∧
    sublist kept (split_lines content) ∧
    Forall (fun l => is_marker l = false) kept.
Proof.
  unfold clean_content.
  destruct (contains (text "DarkPyonix") content && (count_newlines content <? 20)%nat);
    [discriminate|].
  cbv zeta.
  destruct (clean_loop_kept false [] (split_lines content)) as (kept & Hk & Hsub & Hall).
  cbn [app] in Hk. rewrite Hk.
  destruct kept as [|k0 kept]; [discriminate|]. cbn [andb].
  destruct (existsb (fun line => negb (is_blank line)) (k0 :: kept)) eqn:Hex; [|discriminate].
  intros [= <-]. exists (k0 :: kept). repeat split; try assumption; try discriminate.
  apply (split_join (k0 :: kept)); [discriminate|].
  apply (sublist_Forall' _ _ _ Hsub). apply split_no_newline.
Qed.

End Cleaning.

Section CleaningProperties.
Import Txt Config.

(** X9.  What cleaning leaves mentions DarkPyonix nowhere: when
    [clean_config] rewrites the file instead of removing it, the new content
    contains none of the names DarkPyonix, StickyMappingKernelManager and
    StickySessionManager, in any line. *)
Theorem cleaned_file_mentions_no_name (content new : Text) :
  clean_content content = Rewritten new →
  is_marker new = false ∧
  Forall (fun line => is_marker line = false) (split_lines new).
Proof.
  intros (kept & -> & Hsplit & _ & _ & _ & _ & Hall)%clean_content_rewritten.
  rewrite Hsplit. split; [|exact Hall].
  rewrite is_marker_join. apply Forall_not_marker. exact Hall.
Qed.

(** X10.  Cleaning only deletes whole lines: the lines of the rewritten
    file are a subsequence of the lines of the file as it was (no line is
    edited, added or moved), and at least one of them is not blank. *)
Theorem cleaned_file_is_a_subsequence (content new : Text) :
  clean_content content = Rewritten new →
  sublist (split_lines new) (split_lines content) ∧
  existsb (fun line => negb (is_blank line)) (split_lines new) = true.
Proof.
  intros (kept & -> & Hsplit & _ & _ & Hex & Hsub & _)%clean_content_rewritten.
  rewrite Hsplit. split; assumption.
Qed.



(** X12.  What follows a line that mentions a name goes with it.  After
    such a line, every line that is blank, or starts with [c.], [#] or
    [print], or mentions a name itself, is deleted, up to the first line
    that does none of these; that line and what follows it are treated as
    if the file began there.  So a setting of the user's own that follows
    the DarkPyonix block directly is deleted with it. *)
Theorem lines_after_a_name_are_dropped
    (skip_block : bool) (new_lines : list Text) (m : Text) (block : list Text)
    (line : Text) (rest : list Text) :
  is_marker m = true →
  Forall (fun l => is_marker l || is_blank l || continues_block l = true) block →
  is_marker line = false → is_blank line = false → continues_block line = false →
  clean_loop skip_block new_lines (m :: block) = new_lines ∧
  clean_loop skip_block new_lines (m :: block ++ line :: rest)%list
  = clean_loop false (new_lines ++ [line])%list rest.
Proof.
  intros Hm Hblock Hl1 Hl2 Hl3.
  assert (Hskip : ∀ tail, clean_loop true new_lines (block ++ tail)%list
                          = clean_loop true new_lines tail).
  { intros tail. induction Hblock as [|l block Hl _ IH]; [reflexivity|].
    cbn [app clean_loop].
    destruct (is_marker l) eqn:H1; [exact IH|].
    destruct (is_blank l) eqn:H2; cbn [andb]; [exact IH|].
    cbn [orb] in Hl. rewrite Hl. cbn [negb]. exact IH. }
  split.
  - cbn [clean_loop]. rewrite Hm.
    rewrite <- (app_nil_r block). rewrite Hskip. reflexivity.
  - cbn [clean_loop]. rewrite Hm, Hskip.
    cbn [clean_loop]. rewrite Hl1, Hl2, Hl3. reflexivity.
Qed.

(** X13.  Cleaning is idempotent: cleaning a file that cleaning has
    rewritten writes the same content again. *)
Theorem cleaning_twice_is_cleaning_once (content new : Text) :
  clean_content content = Rewritten new →
  clean_content new = Rewritten new.
Proof.
  intros (kept & Hnew & Hsplit & Hne & _ & Hex & _ & Hall)%clean_content_rewritten.
  assert (Hm : is_marker new = false).
  { rewrite Hnew, is_marker_join. apply Forall_not_marker. exact Hall. }
  unfold clean_content. rewrite (is_marker_DarkPyonix new Hm). cbn [andb]. cbv zeta.
  rewrite Hsplit.
  rewrite clean_loop_no_marker by (apply Forall_not_marker; exact Hall). cbn [app].
  rewrite Hex. destruct kept; [congruence|]. cbn [andb]. rewrite Hnew. reflexivity.
Qed.

(** X14.  Cleaning undoes creating.  Whatever the configuration directory
    holds (also a configuration of the user's own, which creating
    overwrites), after [create_config] and then [clean_config] there is no
    configuration file, and the directory is gone unless it has other
    entries; this on a platform whose default encoding reads the written
    file back.  A file that cannot be read is never touched.  The
    configuration the installer writes is removed whole as well. *)
Theorem clean_after_create (read : Text → option Text) (d : ConfigDir) :
  read config_content = Some config_content →
  clean_config read (create_config d)
  = match d with
    | Dir _ true => Dir None true
    | _ => NoDir
    end
  ∧ clean_content Setup.config_content = Unlinked
  ∧ ∀ stored others, read stored = None →
      clean_config read (Dir (Some stored) others) = Dir (Some stored) others.
Proof.
  intros Hread. split; [|split].
  - assert (Hc : clean_content config_content = Unlinked) by (vm_compute; reflexivity).
    destruct d as [|file [|]]; cbn [create_config clean_config];
      rewrite Hread, Hc; reflexivity.
  - vm_compute. reflexivity.
  - intros stored others Hnone. cbn [clean_config]. rewrite Hnone.
    destruct others; reflexivity.
Qed.


End CleaningProperties.

(** * [setup.py]: the activate script *)

Section ActivateScript.
Import Txt Setup.

Lemma startswith_app (sub post : Text) : startswith sub (sub ++ post)%list = true.
Proof.
  induction sub as [|c sub IH]; [reflexivity|].
  cbn. rewrite N.eqb_refl. exact IH.
Qed.

Lemma contains_app_r (sub pre s : Text) :
  contains sub s = true → contains sub (pre ++ s)%list = true.
Proof.
  intros H. induction pre as [|c pre IH]; [exact H|].
  cbn [app contains]. rewrite IH. apply orb_true_r.
Qed.

Lemma contains_infix (sub pre post : Text) : contains sub (pre ++ sub ++ post)%list = true.
Proof.
  apply contains_app_r. destruct sub as [|c sub]; [destruct post; reflexivity|].
  change (contains (c :: sub) ((c :: sub) ++ post)%list)
    with (startswith (c :: sub) ((c :: sub) ++ post)%list
          || contains (c :: sub) (sub ++ post)%list).
  rewrite startswith_app. reflexivity.
Qed.

Lemma darkpyonix_config_names_itself (nt : bool) (venv_name dir : Text) :
  contains (text "DarkPyonix") (darkpyonix_config nt venv_name dir) = true.
Proof.
  unfold darkpyonix_config. cbv zeta.
  change (text "# DarkPyonix Auto Configuration")
    with (text "# " ++ text "DarkPyonix" ++ text " Auto Configuration")%list.
  rewrite <- !app_assoc.
  rewrite (app_assoc [newline; newline] (text "# ")).
  apply contains_infix.
Qed.

(** X16.  The activate script is modified at most once.  The installer
    never creates the script; it only ever appends to it, leaving what was
    there as a prefix; after it ran the script mentions DarkPyonix; and any
    later run, also with another directory, another environment name or
    another platform flag, leaves the script exactly as it is.  So a second
    installation never duplicates the exported settings, and never updates
    them either. *)
Theorem activate_script_modified_once
    (nt nt' : bool) (venv_name dir venv_name' dir' : Text) (script : option Text) :
  (script = None ↔ modify_activate_script nt venv_name dir script = None) ∧
  (∀ content, script = Some content →
     ∃ appended, modify_activate_script nt venv_name dir script
                 = Some (content ++ appended)%list ∧
       contains (text "DarkPyonix") (content ++ appended)%list = true ∧
       (appended = [] ∨ appended = darkpyonix_config nt venv_name dir)) ∧
  modify_activate_script nt' venv_name' dir' (modify_activate_script nt venv_name dir script)
  = modify_activate_script nt venv_name dir script.
Proof.
  destruct script as [content|]; cbn [modify_activate_script].
  - destruct (contains (text "DarkPyonix") content) eqn:Hc.
    + split; [split; discriminate|]. split.
      * intros c [= <-]. exists []. rewrite app_nil_r. auto.
      * cbn [modify_activate_script]. rewrite Hc. reflexivity.
    + assert (Hnew : contains (text "DarkPyonix")
                       (content ++ darkpyonix_config nt venv_name dir)%list = true)
        by (apply contains_app_r, darkpyonix_config_names_itself).
      split; [split; discriminate|]. split.
      * intros c [= <-]. eauto.
      * cbn [modify_activate_script]. rewrite Hnew. reflexivity.
  - split; [tauto|]. split; [discriminate|reflexivity].
Qed.

End ActivateScript.

(** * The constructor *)

Section Constructor.
Import Logging.

Lemma init_handlers (lg : Logger) (self : Self) :
  handlers (__init__ lg self).1
  = match handlers lg with
    | [] => [StreamHandler sticky_format]
    | _ :: _ => handlers lg
    end.
Proof. unfold __init__. destruct (handlers lg) eqn:H; cbn; rewrite ?H; reflexivity. Qed.

(** X17.  Constructing managers never piles up log handlers.  However many
    managers are constructed in a process, the StickyKM logger ends with
    the handlers it had before the first construction, or with exactly one
    stream handler when it had none (so no message is ever written twice
    by handlers of the constructor's making); its level is INFO whatever
    it was set to before; and every manager starts with an empty table
    from paths to identities and with the registry, parent and log the
    inherited constructor gave it. *)
Theorem constructor_installs_one_handler
    (lg : Logger) (first : Self) (others : list Self) :
  handlers (construct_all lg (first :: others)).1
  = match handlers lg with
    | [] => [StreamHandler sticky_format]
    | _ :: _ => handlers lg
    end ∧
  level (construct_all lg (first :: others)).1 = INFO ∧
  Forall2 (fun built self =>
             _path_to_kernel_id self = ∅ ∧ _kernels self = _kernels built ∧
             parent self = parent built ∧ has_log self = has_log built)
          (first :: others) (construct_all lg (first :: others)).2.
Proof.
  assert (Hrest : ∀ built lg0,
            handlers lg0 ≠ [] → level lg0 = INFO →
            handlers (construct_all lg0 built).1 = handlers lg0 ∧
            level (construct_all lg0 built).1 = INFO ∧
            Forall2 (fun built self =>
                       _path_to_kernel_id self = ∅ ∧ _kernels self = _kernels built ∧
                       parent self = parent built ∧ has_log self = has_log built)
                    built (construct_all lg0 built).2).
  { induction built as [|self rest IH]; intros lg0 Hne Hlevel.
    - cbn. auto.
    - cbn [construct_all].
      destruct (__init__ lg0 self) as [lg1 self1] eqn:Hinit.
      assert (H1 : handlers lg1 = handlers lg0).
      { pose proof (init_handlers lg0 self) as H. rewrite Hinit in H. cbn in H.
        destruct (handlers lg0); [congruence|exact H]. }
      assert (H2 : level lg1 = INFO).
      { unfold __init__ in Hinit. injection Hinit as <- _. reflexivity. }
      destruct (IH lg1) as (Hh & Hl & Hf); [congruence|exact H2|].
      destruct (construct_all lg1 rest) as [lg2 managers]. cbn in *.
      split; [congruence|]. split; [exact Hl|].
      constructor; [|exact Hf].
      unfold __init__ in Hinit. injection Hinit as _ <-. cbn. auto. }
  cbn [construct_all].
  destruct (__init__ lg first) as [lg1 self1] eqn:Hinit.
  assert (H1 : handlers lg1 = match handlers lg with
                              | [] => [StreamHandler sticky_format]
                              | _ :: _ => handlers lg
                              end).
  { pose proof (init_handlers lg first) as H. rewrite Hinit in H. exact H. }
  assert (H2 : level lg1 = INFO).
  { unfold __init__ in Hinit. injection Hinit as <- _. reflexivity. }
  destruct (Hrest others lg1) as (Hh & Hl & Hf);
    [rewrite H1; destruct (handlers lg); discriminate|exact H2|].
  destruct (construct_all lg1 others) as [lg2 managers]. cbn in *.
  split; [congruence|]. split; [exact Hl|].
  constructor; [|exact Hf].
  unfold __init__ in Hinit. injection Hinit as _ <-. cbn. auto.
Qed.

End Constructor.

(** * Instances of the further properties *)

Lemma delegated_arguments_witness :
  (<["path" := PStr proj_path]> first_request) !! "kernel_id" = None ∧
  (∀ key, key ≠ "path" → key ≠ "kernel_id" →
     (<["path" := PStr proj_path]> first_request) !! key = first_request !! key) ∧
  ∃ abs, canonical_path proj_os proj_self first_request = Ok abs ∧
    (<["path" := PStr proj_path]> first_request) !! "path"
    = (if nonempty abs then Some (PStr abs) else first_request !! "path").
Proof.
  apply (delegated_arguments false live_backend proj_os first_request proj_self
           (PStr proj_id) (<["path" := PStr proj_path]> first_request)).
  vm_compute. left. reflexivity.
Defined.

Lemma request_raises_only_what_it_is_handed_witness :
  (canonical_path proj_os interrupted_self second_request = Raise KeyboardInterrupt ∧
   protocol (events (entry true live_backend proj_os second_request interrupted_self)) = [])
  ∨ (∃ abs ns km,
       canonical_path proj_os interrupted_self second_request = Ok abs ∧
       _namespace proj_os = Ok ns ∧
       _kernels interrupted_self !! _stable_kernel_id abs (kernel_name_of second_request) ns
         = Some km ∧
       is_alive km = Raise KeyboardInterrupt ∧ isinstance_Exception KeyboardInterrupt = false)
  ∨ (∃ k kw',
       super_starts (events (entry true live_backend proj_os second_request interrupted_self))
         = [(k, kw')] ∧
       (inherited true live_backend interrupted_self k kw').1 = Raise KeyboardInterrupt).
Proof.
  apply (request_raises_only_what_it_is_handed true live_backend proj_os
           second_request interrupted_self KeyboardInterrupt).
  vm_compute. reflexivity.
Defined.

(** A request for a notebook whose name holds a NUL, on a manager that has
    kernels: [os.path.realpath] raises, and nothing else happens. *)
Lemma unnormalizable_path_fails_before_probing_witness :
  protocol (events (entry false live_backend proj_os nul_request live_self)) = [] ∧
  super_starts (events (entry false live_backend proj_os nul_request live_self)) = [] ∧
  outcome (entry false live_backend proj_os nul_request live_self) = Raise ValueError ∧
  final (entry false live_backend proj_os nul_request live_self) = live_self.
Proof.
  destruct (unnormalizable_path_fails_before_probing false live_backend proj_os
              nul_request live_self) as [H _].
  apply (H ValueError). vm_compute. reflexivity.
Defined.

(** Two people open the same notebook, one after the other. *)
Lemma one_kernel_per_notebook_witness :
  Forall (fun r => outcome r = Ok (PStr proj_id))
    (serve false live_backend proj_os [first_request; second_request] proj_self) ∧
  session_starts (serve false live_backend proj_os [first_request; second_request] proj_self)
    = [(PStr proj_id, outgoing_kwargs first_request proj_path)].
Proof.
  apply (one_kernel_per_notebook false live_backend proj_os proj_path proj_id
           (PStr "python3") first_request [second_request] proj_self).
  - intros self id kw. cbn. repeat split.
    eexists. split; [apply lookup_insert_eq|reflexivity].
  - reflexivity.
  - vm_compute. reflexivity.
  - vm_compute. reflexivity.
  - intros kw [<-|[<-|[]]]; vm_compute; repeat split.
Defined.

(** The same notebook asked for by two users. *)
Lemma only_four_arguments_are_read_witness :
  map forget_kwargs (protocol (events (entry false live_backend proj_os
        (<["user" := PStr "someone"]> first_request) live_self)))
  = map forget_kwargs (protocol (events (entry false live_backend proj_os
        (<["user" := PStr "someone-else"]> first_request) live_self))) ∧
  (super_starts (events (entry false live_backend proj_os
        (<["user" := PStr "someone"]> first_request) live_self)) = [] →
   outcome (entry false live_backend proj_os
        (<["user" := PStr "someone"]> first_request) live_self)
   = outcome (entry false live_backend proj_os
        (<["user" := PStr "someone-else"]> first_request) live_self) ∧
   final (entry false live_backend proj_os
        (<["user" := PStr "someone"]> first_request) live_self)
   = final (entry false live_backend proj_os
        (<["user" := PStr "someone-else"]> first_request) live_self)).
Proof.
  apply (only_four_arguments_are_read false live_backend proj_os live_self
           (<["user" := PStr "someone"]> first_request)
           (<["user" := PStr "someone-else"]> first_request));
    vm_compute; reflexivity.
Defined.

Lemma canonical_path_is_a_fixed_point_witness :
  _abs_norm (posix_os "/srv" ∅) None (PStr proj_path) = Ok proj_path ∧
  (nonempty "./notebooks/../notebooks//a.ipynb" = true → Canonical.canonical proj_path).
Proof.
  apply (canonical_path_is_a_fixed_point "/srv" ∅ (Some "/home/u/proj") None
           "./notebooks/../notebooks//a.ipynb" proj_path).
  - reflexivity.
  - vm_compute. reflexivity.
Defined.

Lemma handed_on_request_has_the_same_path_witness :
  canonical_path (posix_os "/srv" ∅) live_self (outgoing_kwargs second_request proj_path)
  = Ok proj_path.
Proof.
  apply (handed_on_request_has_the_same_path "/srv" ∅ proj_self live_self
           second_request proj_path).
  - reflexivity.
  - vm_compute. reflexivity.
Defined.

Lemma absolute_root_makes_cwd_irrelevant_witness :
  _abs_norm (posix_os "/srv" ∅) (Some "/home/u/proj") (PStr "notebooks/a.ipynb")
  = _abs_norm (posix_os "/tmp" ∅) (Some "/home/u/proj") (PStr "notebooks/a.ipynb").
Proof.
  apply (absolute_root_makes_cwd_irrelevant "/srv" "/tmp" ∅ ∅ "/home/u/proj"
           "notebooks/a.ipynb").
  reflexivity.
Defined.

Lemma dot_and_empty_components_do_not_matter_witness :
  _abs_norm (posix_os "/srv" ∅) (Some "/home/u/proj") (PStr "./notebooks/a.ipynb")
  = _abs_norm (posix_os "/srv" ∅) (Some "/home/u/proj") (PStr "notebooks//./a.ipynb/").
Proof.
  apply (dot_and_empty_components_do_not_matter "/srv" ∅ "/home/u/proj"
           "./notebooks/a.ipynb" "notebooks//./a.ipynb/"); reflexivity.
Defined.

Lemma installer_namespace_is_never_a_uuid_witness :
  Uuid.UUID_of_hex (Setup.installer_namespace "venv") = None ∧
  _namespace (setenv proj_os "STICKYKM_NAMESPACE" (Setup.installer_namespace "venv"))
    = Ok DEFAULT_NAMESPACE ∧
  ∀ abs kn,
    _propose_id (setenv proj_os "STICKYKM_NAMESPACE" (Setup.installer_namespace "venv")) abs kn
    = Ok (_stable_kernel_id abs kn DEFAULT_NAMESPACE).
Proof.
  apply (installer_namespace_is_never_a_uuid "venv"
           (setenv proj_os "STICKYKM_NAMESPACE" (Setup.installer_namespace "venv"))).
  - intros v. reflexivity.
  - vm_compute. reflexivity.
Defined.

Section CleaningInstances.
Import Txt Config.

Lemma cleaned_file_mentions_no_name_witness :
  is_marker user_config_cleaned = false ∧
  Forall (fun line => is_marker line = false) (split_lines user_config_cleaned).
Proof.
  apply (cleaned_file_mentions_no_name user_config user_config_cleaned).
  vm_compute. reflexivity.
Defined.

Lemma cleaned_file_is_a_subsequence_witness :
  sublist (split_lines user_config_cleaned) (split_lines user_config) ∧
  existsb (fun line => negb (is_blank line)) (split_lines user_config_cleaned) = true.
Proof.
  apply (cleaned_file_is_a_subsequence user_config user_config_cleaned).
  vm_compute. reflexivity.
Defined.


(** The user's port and address settings follow the line that names the
    manager class, and go with it. *)
Lemma lines_after_a_name_are_dropped_witness :
  clean_loop false [text "import os"]
    [text "c.ServerApp.kernel_manager_class = StickyMappingKernelManager";
     text "c.ServerApp.port = 9999"; []; text "c.ServerApp.ip = '0.0.0.0'"]
  = [text "import os"] ∧
  clean_loop false [text "import os"]
    (text "c.ServerApp.kernel_manager_class = StickyMappingKernelManager"
     :: [text "c.ServerApp.port = 9999"; []; text "c.ServerApp.ip = '0.0.0.0'"]
     ++ text "x = 2" :: [])%list
  = clean_loop false ([text "import os"] ++ [text "x = 2"])%list [].
Proof.
  apply (lines_after_a_name_are_dropped false [text "import os"]
           (text "c.ServerApp.kernel_manager_class = StickyMappingKernelManager")
           [text "c.ServerApp.port = 9999"; []; text "c.ServerApp.ip = '0.0.0.0'"]
           (text "x = 2") []).
  - vm_compute. reflexivity.
  - repeat constructor.
  - vm_compute. reflexivity.
  - vm_compute. reflexivity.
  - vm_compute. reflexivity.
Defined.

Lemma cleaning_twice_is_cleaning_once_witness :
  clean_content user_config_cleaned = Rewritten user_config_cleaned.
Proof.
  apply (cleaning_twice_is_cleaning_once user_config user_config_cleaned).
  vm_compute. reflexivity.
Defined.

Lemma clean_after_create_witness :
  clean_config Some (create_config (Dir (Some user_config) false)) = NoDir
  ∧ clean_content Setup.config_content = Unlinked
  ∧ ∀ stored others, Some stored = None →
      clean_config Some (Dir (Some stored) others) = Dir (Some stored) others.
Proof.
  apply (clean_after_create Some (Dir (Some user_config) false)).
  reflexivity.
Defined.


End CleaningInstances.
